(** * Tweet availability checker: a model of check_tweet_links.py and app.py

    The development follows the two source files of the repository.

    - Python [str] values are modelled as [string]; a character is a code
      point below 256 (the Latin-1 part of [str]), on which [str.lower],
      [str.isspace], [\d] and [.] are written out as CPython computes them.
      Every statement below is about strings of these characters. On
      other characters the library functions do more: [\d] matches the
      decimal digits of every script, and [urlsplit] rejects a network
      location whose NFKC form holds one of the characters [/?#@:].
    - [re] is modelled by a backtracking matcher with the priorities of
      CPython's engine (leftmost start, alternatives and optional parts
      in order, greedy and lazy repetition).
    - [urllib.parse] is modelled after CPython 3.11 ([urlsplit],
      [urlparse], [urlunsplit], [urlunparse]); a [ValueError] raised by the
      parser is a result of the model.
    - The network is a function from the requests made so far and the
      current request to a reply; the requests made are kept in a trace. *)

From Stdlib Require Import ZArith NArith Ascii String DecimalString.
From stdpp Require Import base option list strings gmap.

Local Open Scope char_scope.
Local Open Scope stdpp_scope.

#[local] Arguments String.append : simpl nomatch.

(** ** Python values and exceptions *)

(** A Python object as the program sees it: [None], a [str], or any other
    object (a number, a float NaN of an empty cell, a list, ...), of which
    only the truth value matters to the code. *)
Inductive pyval : Type :=
  | PyNone
  | PyStr (s : string)
  | PyOther (truthy : bool).

Inductive exn : Type :=
  | ValueError
  | AttributeError
  | KeyError.

Inductive res (A : Type) : Type :=
  | Ok (a : A)
  | Raise (e : exn).
Arguments Ok {A} a.
Arguments Raise {A} e.

Definition res_bind {A B} (m : res A) (f : A -> res B) : res B :=
  match m with
  | Ok a => f a
  | Raise e => Raise e
  end.

(** Truth value of an object ([if x:]). *)
Definition truthy_str (s : string) : bool :=
  match s with "" => false | _ => true end.

Definition truthy (v : pyval) : bool :=
  match v with
  | PyNone => false
  | PyStr s => truthy_str s
  | PyOther b => b
  end.

(** ** Characters *)

Definition code (c : ascii) : N := N_of_ascii c.

Definition in_range (lo hi : N) (c : ascii) : bool :=
  ((lo <=? code c) && (code c <=? hi))%N.

(** [str.isspace] on one character. *)
Definition isspace (c : ascii) : bool :=
  in_range 9 13 c || in_range 28 32 c || (code c =? 133)%N || (code c =? 160)%N.

(** [str.lower] on one character. *)
Definition ascii_lower (c : ascii) : ascii :=
  if in_range 65 90 c || in_range 192 214 c || in_range 216 222 c
  then ascii_of_N (code c + 32)
  else c.

(** [\d] of [re] on a code point below 256: the digits [0] to [9]
    (the other decimal digits of Unicode lie above). *)
Definition is_digit (c : ascii) : bool := in_range 48 57 c.

(** [c.isascii() and c.isalpha()]. *)
Definition is_ascii_alpha (c : ascii) : bool :=
  in_range 65 90 c || in_range 97 122 c.

(** ** String methods *)

Fixpoint all_chars (p : ascii -> bool) (s : string) : bool :=
  match s with
  | "" => true
  | String c r => p c && all_chars p r
  end.

(** [c in s]. *)
Fixpoint contains (c : ascii) (s : string) : bool :=
  match s with
  | "" => false
  | String d r => Ascii.eqb d c || contains c r
  end.

(** [s.startswith(p)]. *)
Fixpoint startswith (p s : string) : bool :=
  match p, s with
  | "", _ => true
  | String a p', String b s' => Ascii.eqb a b && startswith p' s'
  | String _ _, "" => false
  end.

(** [s.lower()]. *)
Fixpoint lower (s : string) : string :=
  match s with
  | "" => ""
  | String c r => String (ascii_lower c) (lower r)
  end.

(** [s.lstrip(chars)] and [s.rstrip(chars)], the characters given as a
    predicate. *)
Fixpoint lstrip_with (p : ascii -> bool) (s : string) : string :=
  match s with
  | "" => ""
  | String c r => if p c then lstrip_with p r else s
  end.

Fixpoint rstrip_with (p : ascii -> bool) (s : string) : string :=
  match s with
  | "" => ""
  | String c r =>
      match rstrip_with p r with
      | "" => if p c then "" else String c ""
      | r' => String c r'
      end
  end.

(** [s.strip()]. *)
Definition strip (s : string) : string :=
  rstrip_with isspace (lstrip_with isspace s).

Definition is_slash (c : ascii) : bool := Ascii.eqb c "/".

(** [s.replace(c, "")] for each [c] of a set of characters. *)
Fixpoint remove_chars (p : ascii -> bool) (s : string) : string :=
  match s with
  | "" => ""
  | String c r => if p c then remove_chars p r else String c (remove_chars p r)
  end.

(** [s[n:]]. *)
Fixpoint drop_str (n : nat) (s : string) : string :=
  match n, s with
  | O, _ => s
  | S n', String _ r => drop_str n' r
  | S _, "" => ""
  end.

(** [s[:n]]. *)
Fixpoint take_str (n : nat) (s : string) : string :=
  match n, s with
  | O, _ => ""
  | S n', String c r => String c (take_str n' r)
  | S _, "" => ""
  end.

(** [s.partition(c)]: the text before the first [c] and the text after
    it, or [None] when [c] does not occur (Python then returns
    [(s, "", "")]). *)
Fixpoint partition (c : ascii) (s : string) : option (string * string) :=
  match s with
  | "" => None
  | String d r =>
      if Ascii.eqb d c then Some ("", r)
      else match partition c r with
           | Some (a, b) => Some (String d a, b)
           | None => None
           end
  end.

(** [s.rpartition(c)]: the text before the last [c] and the text after
    it, or [None] when [c] does not occur (Python then returns
    [("", "", s)]). *)
Fixpoint rpartition (c : ascii) (s : string) : option (string * string) :=
  match s with
  | "" => None
  | String d r =>
      match rpartition c r with
      | Some (a, b) => Some (String d a, b)
      | None => if Ascii.eqb d c then Some ("", r) else None
      end
  end.

(** [s.endswith(suf)]. *)
Fixpoint endswith (suf s : string) : bool :=
  String.eqb s suf ||
  match s with
  | "" => false
  | String _ r => endswith suf r
  end.

(** [s in l] for a list or tuple of strings. *)
Definition str_in (s : string) (l : list string) : bool :=
  existsb (String.eqb s) l.

(** The text up to the first character in the set [p], and the text from
    that character on. *)
Fixpoint break_at (p : ascii -> bool) (s : string) : string * string :=
  match s with
  | "" => ("", "")
  | String c r =>
      if p c then ("", s)
      else let '(a, b) := break_at p r in (String c a, b)
  end.

(** ** Regular expressions

    The constructs of [TWEET_URL_RE], matched by backtracking in
    continuation-passing style: the continuation receives the rest of the
    subject and the text of group 1. *)

Inductive atom : Type :=
  | Lit (c : ascii)
  | Dot
  | Digit.

Definition atom_matches (a : atom) (c : ascii) : bool :=
  match a with
  | Lit d => Ascii.eqb c d
  | Dot => negb (Ascii.eqb c "010")
  | Digit => is_digit c
  end.

Inductive regex : Type :=
  | Eps
  | Atom (a : atom)
  | Cat (r1 r2 : regex)
  | Alt (r1 r2 : regex)
  | Opt (r : regex)
  | Plus (greedy : bool) (a : atom)
  | Group (r : regex).

Fixpoint lits (s : string) : regex :=
  match s with
  | "" => Eps
  | String c r => Cat (Atom (Lit c)) (lits r)
  end.

Section Matcher.
Context {A : Type}.

(** [a*], longest first. *)
Fixpoint star_greedy (a : atom) (s : string) (k : string -> option A) : option A :=
  match s with
  | String c r =>
      if atom_matches a c then
        match star_greedy a r k with
        | Some x => Some x
        | None => k s
        end
      else k s
  | "" => k s
  end.

(** [a*?], shortest first. *)
Fixpoint star_lazy (a : atom) (s : string) (k : string -> option A) : option A :=
  match k s with
  | Some x => Some x
  | None =>
      match s with
      | String c r => if atom_matches a c then star_lazy a r k else None
      | "" => None
      end
  end.

Definition plus (greedy : bool) (a : atom) (s : string) (k : string -> option A) : option A :=
  match s with
  | String c r =>
      if atom_matches a c
      then (if greedy then star_greedy a r k else star_lazy a r k)
      else None
  | "" => None
  end.

Fixpoint rmatch (r : regex) (s : string) (cap : option string)
    (k : string -> option string -> option A) : option A :=
  match r with
  | Eps => k s cap
  | Atom a =>
      match s with
      | String c s' => if atom_matches a c then k s' cap else None
      | "" => None
      end
  | Cat r1 r2 => rmatch r1 s cap (fun s' cap' => rmatch r2 s' cap' k)
  | Alt r1 r2 =>
      match rmatch r1 s cap k with
      | Some x => Some x
      | None => rmatch r2 s cap k
      end
  | Opt r1 =>
      match rmatch r1 s cap k with
      | Some x => Some x
      | None => k s cap
      end
  | Plus greedy a => plus greedy a s (fun s' => k s' cap)
  | Group r1 =>
      rmatch r1 s cap
        (fun s' _ => k s' (Some (take_str (String.length s - String.length s') s)))
  end.
End Matcher.

(** [pattern.match(s)]: a match at the start of [s]; the result is the
    text of group 1. *)
Definition match_at (r : regex) (s : string) : option (option string) :=
  rmatch r s None (fun _ cap => Some cap).

(** [pattern.search(s)]: the match at the leftmost position that has one. *)
Fixpoint search (r : regex) (s : string) : option (option string) :=
  match match_at r s with
  | Some m => Some m
  | None =>
      match s with
      | "" => None
      | String _ s' => search r s'
      end
  end.

(** ** Identifier extraction (check_tweet_links.py, lines 23-32) *)

(** [/status(?:es)?/(\d+)], the end of the pattern. *)
Definition STATUS_ID_RE : regex :=
  Cat (lits "/status")
  (Cat (Opt (lits "es"))
  (Cat (lits "/")
       (Group (Plus true Digit)))).

(** [(?:www\.)?(?:twitter|x)\.com/.+?/status(?:es)?/(\d+)], the pattern
    after its optional scheme. *)
Definition HOST_PATH_RE : regex :=
  Cat (Opt (lits "www."))
  (Cat (Alt (lits "twitter") (lits "x"))
  (Cat (lits ".com/")
  (Cat (Plus false Dot) STATUS_ID_RE))).

(** [(?:https?://)?(?:www\.)?(?:twitter|x)\.com/.+?/status(?:es)?/(\d+)] *)
Definition TWEET_URL_RE : regex :=
  Cat (Opt (Cat (lits "http") (Cat (Opt (lits "s")) (lits "://"))))
      HOST_PATH_RE.

Definition extract_tweet_id (url : pyval) : option string :=
  match url with
  | PyStr s =>
      match search TWEET_URL_RE s with
      | Some m => m
      | None => None
      end
  | _ => None
  end.


(** ** urllib.parse (CPython 3.11) *)

Notation "x <- m ;; k" := (res_bind m (fun x => k))
  (at level 100, m at next level, right associativity, only parsing).

Record SplitResult : Type := mkSplit {
  sr_scheme : string;
  sr_netloc : string;
  sr_path : string;
  sr_query : string;
  sr_fragment : string
}.

Record ParseResult : Type := mkParse {
  scheme : string;
  netloc : string;
  path : string;
  params : string;
  query : string;
  fragment : string
}.

Definition uses_netloc : list string :=
  [""; "ftp"; "http"; "gopher"; "nntp"; "telnet"; "imap"; "wais"; "file";
   "mms"; "https"; "shttp"; "snews"; "prospero"; "rtsp"; "rtspu"; "rsync";
   "svn"; "svn+ssh"; "sftp"; "nfs"; "git"; "git+ssh"; "ws"; "wss"].

Definition uses_params : list string :=
  [""; "ftp"; "hdl"; "prospero"; "http"; "imap"; "https"; "shttp"; "rtsp";
   "rtspu"; "sip"; "sips"; "mms"; "sftp"; "tel"].

(** Membership in [scheme_chars]. *)
Definition scheme_char (c : ascii) : bool :=
  in_range 97 122 c || in_range 65 90 c || in_range 48 57 c ||
  Ascii.eqb c "+" || Ascii.eqb c "-" || Ascii.eqb c ".".

(** [_WHATWG_C0_CONTROL_OR_SPACE]. *)
Definition c0_control_or_space (c : ascii) : bool := in_range 0 32 c.

(** [_UNSAFE_URL_BYTES_TO_REMOVE]. *)
Definition unsafe_url_byte (c : ascii) : bool :=
  Ascii.eqb c "009" || Ascii.eqb c "013" || Ascii.eqb c "010".

Definition netloc_delim (c : ascii) : bool :=
  Ascii.eqb c "/" || Ascii.eqb c "?" || Ascii.eqb c "#".

(** [_splitnetloc(url, 2)]. *)
Definition splitnetloc2 (url : string) : string * string :=
  break_at netloc_delim (drop_str 2 url).

(** [s.split(c, 1)] as used by [urlsplit]: [s] is cut at the first [c]
    when there is one. *)
Definition split_once (c : ascii) (s : string) : string * string :=
  match partition c s with
  | Some (a, b) => (a, b)
  | None => (s, "")
  end.

(** [s[:-1]]. *)
Fixpoint but_last (s : string) : string :=
  match s with
  | "" => ""
  | String c r => match r with "" => "" | _ => String c (but_last r) end
  end.

(** [_splitparams]: the first [;] behind the last [/] cuts the URL. It
    is called on a URL that holds a [;]; without one, and without [/],
    [find] gives -1 and the slices are [url[:-1]] and [url]. *)
Definition splitparams (url : string) : string * string :=
  match rpartition "/" url with
  | Some (dir, last) =>
      match partition ";" last with
      | Some (a, b) => (dir +:+ "/" +:+ a, b)
      | None => (url, "")
      end
  | None =>
      match partition ";" url with
      | Some (a, b) => (a, b)
      | None => (but_last url, url)
      end
  end.

(** [urlunsplit]. *)
Definition urlunsplit (scheme netloc url query fragment : string) : string :=
  let url :=
    if truthy_str netloc ||
       (truthy_str scheme && str_in scheme uses_netloc &&
        negb (String.eqb (take_str 2 url) "//"))
    then
      let url := if truthy_str url && negb (String.eqb (take_str 1 url) "/")
                 then "/" +:+ url else url in
      "//" +:+ netloc +:+ url
    else url in
  let url := if truthy_str scheme then scheme +:+ ":" +:+ url else url in
  let url := if truthy_str query then url +:+ "?" +:+ query else url in
  let url := if truthy_str fragment then url +:+ "#" +:+ fragment else url in
  url.

(** [urlunparse]. *)
Definition urlunparse (scheme netloc url params query fragment : string) : string :=
  let url := if truthy_str params then url +:+ ";" +:+ params else url in
  urlunsplit scheme netloc url query fragment.

(** ** Outcomes, requests and the network *)

Inductive AvailabilityCode : Type :=
  | invalid_url
  | public
  | restricted
  | not_found
  | rate_limited
  | unavailable_legal
  | gone
  | unknown
  | error.

(** The dictionary returned by [check_tweet]. *)
Record outcome : Type := mkOutcome {
  availability : AvailabilityCode;
  http_status : option Z;
  detail : option string;
  oembed_status : option Z;
  checked_url : option string
}.

(** A GET of the oEmbed session (the [url] parameter is given) or of
    the bot session (the URL fetched is given). *)
Inductive request : Type :=
  | OembedGet (url : string)
  | BotGet (url : string).

(** What [response.json()] does: raise [ValueError], return a
    dictionary whose [.get("url")] is [url] ([PyNone] when the key is
    missing or null), or return a value that is no dictionary. *)
Inductive json_result : Type :=
  | JsonValueError (exc : string)
  | JsonObject (url : pyval)
  | JsonOther.

(** What a GET does: raise [requests.RequestException] with the text
    [str(exc)], or return a response. *)
Inductive reply : Type :=
  | RequestException (exc : string)
  | Response (status_code : Z) (json : json_result).

(** The network answers a request knowing the requests made before. *)
Definition network : Type := list request -> request -> reply.

(** The requests made, oldest first, and the identifiers for which
    the batch loop has called [check_tweet], oldest first (a history
    kept for the statements, no variable of the program). *)
Record world : Type := mkWorld {
  requests : list request;
  calls : list string
}.

Definition send (net : network) (req : request) (w : world) : reply * world :=
  (net (requests w) req, mkWorld (requests w ++ [req]) (calls w)).

(** [str(n)] for an [int]. *)
Definition str_of_int (n : Z) : string := NilZero.string_of_int (Z.to_int n).

(** A row of the results: the dictionary appended to [results]. *)
Record result_record : Type := mkResult {
  r_tweet_id : option string;
  r_availability : AvailabilityCode;
  r_http_status : option Z;
  r_detail : option string;
  r_checked_at : string;
  r_oembed_status : option Z;
  r_checked_url : option string
}.

(** The row of a URL without identifier. *)
Definition invalid_record (checked_at : string) : result_record :=
  mkResult None invalid_url None (Some "Tweet ID not found in URL") checked_at
    None None.

(** ** The decision tables of the specification (its section 4.4)

    These definitions follow the words of the specification; the
    statements below compare the program with them. *)

Inductive verdict : Type :=
  | Stops (a : AvailabilityCode)
  | Continues.

(** Phase 1: the outcome of the embed probe. *)
Definition spec_phase1 (r : reply) : verdict :=
  match r with
  | RequestException _ => Stops error
  | Response status _ =>
      if (status =? 200)%Z then Continues
      else if (status =? 401)%Z || (status =? 403)%Z then Stops restricted
      else if (status =? 404)%Z then Stops not_found
      else if (status =? 429)%Z then Stops rate_limited
      else Stops unknown
  end.

(** Phase 2: the decisive status codes and their outcomes. *)
Definition spec_decisive (status : Z) : option AvailabilityCode :=
  if (status =? 200)%Z then Some public
  else if (status =? 401)%Z || (status =? 403)%Z then Some restricted
  else if (status =? 410)%Z then Some gone
  else if (status =? 429)%Z then Some rate_limited
  else if (status =? 451)%Z then Some unavailable_legal
  else None.

Definition indecisive (a : string * reply) : Prop :=
  match a.2 with
  | Response status _ => spec_decisive status = None
  | RequestException _ => True
  end.

(** The replies of the network to the candidates fetched in order after
    the requests [past], each with its URL. *)
Fixpoint attempts (net : network) (past : list request) (fetch_urls : list string)
    : list (string * reply) :=
  match fetch_urls with
  | [] => []
  | u :: rest =>
      (u, net past (BotGet u)) :: attempts net (past ++ [BotGet u]) rest
  end.

(** The HTTP responses among the attempts, and the network failures. *)
Definition http_responses (l : list (string * reply)) : list (string * Z) :=
  omap (fun a => match a.2 with
                 | Response status _ => Some (a.1, status)
                 | RequestException _ => None
                 end) l.

Definition network_failures (l : list (string * reply)) : list string :=
  omap (fun a => match a.2 with
                 | RequestException exc => Some exc
                 | Response _ _ => None
                 end) l.

(** The detail of an [error] outcome of phase 2. *)
Definition failure_detail (last_failure : option string) : string :=
  match last_failure with
  | Some exc =>
      if truthy_str exc then "Direct fetch failed: " +:+ exc
      else "Direct fetch failed"
  | None => "Direct fetch failed"
  end.

(** ** Runs used as examples *)

Definition world0 : world := mkWorld [] [].

(** The embed probe answers 200 with a canonical URL, every fetch
    answers 200. *)
Definition net_public : network := fun _ req =>
  match req with
  | OembedGet _ => Response 200 (JsonObject (PyStr "https://x.com/acct/status/123"))
  | BotGet _ => Response 200 JsonOther
  end.

(** The embed probe answers 200 with a body that is no JSON, every
    fetch answers 200. *)
Definition net_bad_json : network := fun _ req =>
  match req with
  | OembedGet _ =>
      Response 200 (JsonValueError "Expecting value: line 1 column 1 (char 0)")
  | BotGet _ => Response 200 JsonOther
  end.

(** The embed probe answers 404. *)
Definition net_embed_404 : network := fun _ req =>
  match req with
  | OembedGet _ => Response 404 JsonOther
  | BotGet _ => Response 200 JsonOther
  end.

(** Every fetch answers 404. *)
Definition net_all_404 : network := fun _ req =>
  match req with
  | OembedGet _ => Response 200 (JsonObject PyNone)
  | BotGet _ => Response 404 JsonOther
  end.

(** A value for the parameter of the parser in these runs: no text
    between square brackets is accepted. *)
Definition no_bracketed_host : string -> bool := fun _ => false.

Section Program.

(** [_check_bracketed_host], which validates the text between square
    brackets with the [ipaddress] module: whether it accepts a host is
    taken as given. *)
Variable check_bracketed_host : string -> bool.

(** [_check_bracketed_netloc]: [true] when it returns, [false] when it
    raises [ValueError]. *)
Definition check_bracketed_netloc (netloc : string) : bool :=
  let hostname_and_port :=
    match rpartition "@" netloc with
    | Some (_, b) => b
    | None => netloc
    end in
  match partition "[" hostname_and_port with
  | Some (before_bracket, bracketed) =>
      if truthy_str before_bracket then false
      else
        let '(hostname, port) := split_once "]" bracketed in
        if truthy_str port && negb (startswith ":" port) then false
        else check_bracketed_host hostname
  | None =>
      check_bracketed_host (fst (split_once ":" hostname_and_port))
  end.

(** The scheme of a URL and the text after its colon (the part of
    [urlsplit] about [url.find(":")]). *)
Definition split_scheme (url : string) : string * string :=
  match partition ":" url with
  | Some (String c0 pre, post) =>
      if is_ascii_alpha c0 && all_chars scheme_char (String c0 pre)
      then (lower (String c0 pre), post)
      else ("", url)
  | _ => ("", url)
  end.

(** The network location behind [//] and the text after it (the part
    of [urlsplit] that may raise [ValueError]). *)
Definition split_authority (url : string) : res (string * string) :=
  if String.eqb (take_str 2 url) "//" then
    let '(netloc, url) := splitnetloc2 url in
    if (contains "[" netloc && negb (contains "]" netloc)) ||
       (contains "]" netloc && negb (contains "[" netloc))
    then Raise ValueError
    else if contains "[" netloc && contains "]" netloc &&
            negb (check_bracketed_netloc netloc)
    then Raise ValueError
    else Ok (netloc, url)
  else Ok ("", url).

(** [urlsplit] after the scheme has been split off. *)
Definition split_hier (scheme url : string) : res SplitResult :=
  nu <- split_authority url ;;
  let '(netloc, url) := nu in
  let '(url, fragment) := split_once "#" url in
  let '(url, query) := split_once "?" url in
  Ok (mkSplit scheme netloc url query fragment).

(** [urlsplit(url)]. [_checknetloc], which raises [ValueError] for a
    network location that is not ASCII and whose NFKC form holds one
    of [/?#@:], does nothing on the characters of this model (their
    NFKC forms hold none of these) and is left out. *)
Definition urlsplit (url : string) : res SplitResult :=
  let url := lstrip_with c0_control_or_space url in
  let url := remove_chars unsafe_url_byte url in
  let '(scheme, url) := split_scheme url in
  split_hier scheme url.

(** [urlparse(url)]. *)
Definition urlparse (url : string) : res ParseResult :=
  sr <- urlsplit url ;;
  let '(url, params) :=
    if str_in (sr_scheme sr) uses_params && contains ";" (sr_path sr)
    then splitparams (sr_path sr)
    else (sr_path sr, "") in
  Ok (mkParse (sr_scheme sr) (sr_netloc sr) url params (sr_query sr) (sr_fragment sr)).

(** ** URL normalisation (check_tweet_links.py, lines 35-63) *)

Definition allowed_hosts : list string :=
  ["twitter.com"; "mobile.twitter.com"; "m.twitter.com"; "x.com"; "mobile.x.com"].

(** [s.lower().startswith(("http://", "https://"))]. *)
Definition has_http_scheme (s : string) : bool :=
  startswith "http://" (lower s) || startswith "https://" (lower s).

Definition normalize_input_url (raw_url : pyval) : res (option string) :=
  match raw_url with
  | PyStr raw_url =>
      let trimmed := strip raw_url in
      if negb (truthy_str trimmed) then Ok None
      else
        let trimmed :=
          if startswith "//" trimmed then "https:" +:+ trimmed else trimmed in
        let trimmed :=
          if negb (has_http_scheme trimmed) then "https://" +:+ trimmed
          else trimmed in
        parsed <- urlparse trimmed ;;
        let host := lower (netloc parsed) in
        let host := if startswith "www." host then drop_str 4 host else host in
        if negb (str_in host allowed_hosts) then Ok None
        else Ok (Some (urlunparse "https" host (path parsed) "" "" ""))
  | _ => Ok None
  end.

(** ** Host rewriting (check_tweet_links.py, lines 66-82) *)

Definition convert_to_x_domain (url : string) (keep_query : bool) : res string :=
  parsed <- urlparse url ;;
  let host := lower (netloc parsed) in
  let host := if startswith "www." host then drop_str 4 host else host in
  let host :=
    if endswith "twitter.com" host then "x.com"
    else if endswith "mobile.twitter.com" host || endswith "m.twitter.com" host
    then "x.com"
    else if endswith ".x.com" host then "x.com"
    else if negb (String.eqb host "x.com") then "x.com"
    else host in
  let query := if keep_query then query parsed else "" in
  Ok (urlunparse "https" host (path parsed) "" query "").

(** ** Candidate generation (check_tweet_links.py, lines 85-135) *)

(** The four templates appended to the seeds. *)
Definition template_seeds (tweet_id : string) : list string :=
  ["https://x.com/i/web/status/" +:+ tweet_id;
   "https://twitter.com/i/web/status/" +:+ tweet_id;
   "https://x.com/i/status/" +:+ tweet_id;
   "https://twitter.com/i/status/" +:+ tweet_id].

Definition seeds_of (tweet_id normalized_url : string) (canonical_url : pyval)
    : list pyval :=
  (if truthy canonical_url then [canonical_url] else []) ++
  (if truthy_str normalized_url then [PyStr normalized_url] else []) ++
  map PyStr (template_seeds tweet_id).

(** [if x not in seen: seen.add(x); candidates.append(x)]. *)
Definition add_candidate (x : string) (st : gset string * list string)
    : gset string * list string :=
  let '(seen, candidates) := st in
  if bool_decide (x ∈ seen) then st
  else ({[x]} ∪ seen, candidates ++ [x]).

(** [s or "https"]. *)
Definition or_https (s : string) : string :=
  if truthy_str s then s else "https".

(** One turn of the loop over the seeds. *)
Definition seed_step (st : gset string * list string) (raw : pyval)
    : res (gset string * list string) :=
  if negb (truthy raw) then Ok st
  else
    match raw with
    | PyStr raw =>
        let raw :=
          if startswith "//" raw then "https:" +:+ raw
          else if negb (has_http_scheme raw)
          then "https://" +:+ lstrip_with is_slash raw
          else raw in
        parsed <- urlparse raw ;;
        let base :=
          urlunparse (or_https (scheme parsed)) (netloc parsed) (path parsed) "" "" "" in
        normalized_base <- normalize_input_url (PyStr base) ;;
        st <-
          (match normalized_base with
           | Some nb =>
               if truthy_str nb then
                 x_url <- convert_to_x_domain nb false ;;
                 Ok (add_candidate x_url st)
               else Ok st
           | None => Ok st
           end) ;;
        if truthy_str (query parsed) then
          let query_url :=
            urlunparse (or_https (scheme parsed)) (netloc parsed) (path parsed)
              "" (query parsed) "" in
          normalized_query <- normalize_input_url (PyStr query_url) ;;
          match normalized_query with
          | Some nq =>
              if truthy_str nq then
                x_query_url <- convert_to_x_domain query_url true ;;
                Ok (add_candidate x_query_url st)
              else Ok st
          | None => Ok st
          end
        else Ok st
    | _ => Raise AttributeError
    end.

Fixpoint seed_loop (seeds : list pyval) (st : gset string * list string)
    : res (gset string * list string) :=
  match seeds with
  | [] => Ok st
  | raw :: rest => st' <- seed_step st raw ;; seed_loop rest st'
  end.

Definition build_fetch_urls (tweet_id normalized_url : string)
    (canonical_url : pyval) : res (list string) :=
  st <- seed_loop (seeds_of tweet_id normalized_url canonical_url) (∅, []) ;;
  Ok (snd st).

(** ** The classifier (check_tweet_links.py, lines 138-301) *)

(** The locals [availability], [detail], [canonical_url] after the 200
    branch of phase 1 (lines 175-181). *)
Definition oembed_200 (json : json_result)
    : res (AvailabilityCode * option string * pyval) :=
  match json with
  | JsonObject url => Ok (public, None, url)
  | JsonValueError exc =>
      Ok (public, Some ("Failed to parse oEmbed payload: " +:+ exc), PyNone)
  | JsonOther => Raise AttributeError
  end.

(** The locals of the loop over the candidates. *)
Record fetch_state : Type := mkFetch {
  last_status : option Z;
  last_detail : option string;
  last_url : option string;
  last_exception : option string
}.

(** The loop of lines 221-284: an outcome when an iteration returns,
    the locals when the candidates are exhausted. *)
Fixpoint fetch_loop (net : network) (oembed_status status_code : Z)
    (fetch_urls : list string) (st : fetch_state) (w : world)
    : (outcome + fetch_state) * world :=
  match fetch_urls with
  | [] => (inr st, w)
  | candidate_url :: rest =>
      let '(r, w) := send net (BotGet candidate_url) w in
      match r with
      | RequestException exc =>
          fetch_loop net oembed_status status_code rest
            (mkFetch (last_status st) (last_detail st) (last_url st) (Some exc)) w
      | Response fetch_status _ =>
          let ret a d :=
            (inl (mkOutcome a (Some fetch_status) d (Some oembed_status)
                    (Some candidate_url)), w) in
          if (fetch_status =? 200)%Z then ret public None
          else if (fetch_status =? 401)%Z || (fetch_status =? 403)%Z
          then ret restricted (Some "Tweet requires authentication or is protected")
          else if (fetch_status =? 410)%Z
          then ret gone (Some "Tweet removed (410)")
          else if (fetch_status =? 429)%Z
          then ret rate_limited (Some "Rate limited while fetching tweet")
          else if (fetch_status =? 451)%Z
          then ret unavailable_legal (Some "Tweet unavailable due to legal demand")
          else if (fetch_status =? 404)%Z
          then
            fetch_loop net oembed_status status_code rest
              (mkFetch (Some fetch_status)
                 (Some (if (status_code =? 200)%Z
                        then "Tweet page returned 404 despite oEmbed success"
                        else "Tweet not found or removed"))
                 (Some candidate_url) (last_exception st)) w
          else
            fetch_loop net oembed_status status_code rest
              (mkFetch (Some fetch_status)
                 (Some ("Unexpected " +:+ str_of_int fetch_status +:+
                        " response while fetching tweet"))
                 (Some candidate_url) (last_exception st)) w
      end
  end.

(** Lines 286-301. *)
Definition after_loop (oembed_status : Z) (st : fetch_state) : outcome :=
  match last_status st with
  | None =>
      mkOutcome error None
        (Some (match last_exception st with
               | Some exc =>
                   if truthy_str exc then "Direct fetch failed: " +:+ exc
                   else "Direct fetch failed"
               | None => "Direct fetch failed"
               end))
        (Some oembed_status) None
  | Some s =>
      mkOutcome (if (s =? 404)%Z then not_found else unknown)
        (Some s) (last_detail st) (Some oembed_status) (last_url st)
  end.

(** Lines 215-301: phase 2, entered with the locals of phase 1. *)
Definition phase2 (net : network) (tweet_id normalized_input : string)
    (oembed_status status_code : Z) (canonical_url : pyval) (w : world)
    : res outcome * world :=
  match build_fetch_urls tweet_id normalized_input canonical_url with
  | Raise e => (Raise e, w)
  | Ok fetch_urls =>
      let '(r, w) :=
        fetch_loop net oembed_status status_code fetch_urls
          (mkFetch None None None None) w in
      match r with
      | inl o => (Ok o, w)
      | inr st => (Ok (after_loop oembed_status st), w)
      end
  end.

Definition check_tweet (net : network) (tweet_id : string) (original_url : pyval)
    (w : world) : res outcome * world :=
  match normalize_input_url original_url with
  | Raise e => (Raise e, w)
  | Ok normalized_input =>
      match normalized_input with
      | Some normalized_input =>
          if negb (truthy_str normalized_input)
          then (Ok (mkOutcome invalid_url None
                      (Some "URL could not be normalized") None None), w)
          else
            let '(r, w) := send net (OembedGet normalized_input) w in
            match r with
            | RequestException exc =>
                (Ok (mkOutcome error None
                       (Some ("oEmbed request failed: " +:+ exc)) None None), w)
            | Response status_code json =>
                let oembed_status := status_code in
                let ret a d :=
                  (Ok (mkOutcome a (Some status_code) (Some d)
                         (Some oembed_status) None), w) in
                if (status_code =? 200)%Z then
                  match oembed_200 json with
                  | Raise e => (Raise e, w)
                  | Ok (_, _, canonical_url) =>
                      phase2 net tweet_id normalized_input oembed_status
                        status_code canonical_url w
                  end
                else if (status_code =? 401)%Z || (status_code =? 403)%Z
                then ret restricted "Tweet requires authentication or is protected"
                else if (status_code =? 404)%Z
                then ret not_found "Tweet not found or removed"
                else if (status_code =? 429)%Z
                then ret rate_limited "Rate limited by Twitter oEmbed endpoint"
                else ret unknown ("Unexpected " +:+ str_of_int status_code +:+
                                  " response from oEmbed")
            end
      | None =>
          (Ok (mkOutcome invalid_url None
                 (Some "URL could not be normalized") None None), w)
      end
  end.

(** ** The batch loop (check_tweet_links.py, lines 367-401; app.py,
    lines 29-65) *)

(** [cache[tweet_id] = check_tweet(...)], entered when [tweet_id] is
    not in the cache; the call is noted in [calls]. *)
Definition fill_cache (net : network) (tweet_id : string) (url : pyval)
    (cache : gmap string outcome) (w : world)
    : res (gmap string outcome) * world :=
  match cache !! tweet_id with
  | Some _ => (Ok cache, w)
  | None =>
      let '(r, w) :=
        check_tweet net tweet_id url
          (mkWorld (requests w) (calls w ++ [tweet_id])) in
      match r with
      | Ok o => (Ok (<[tweet_id := o]> cache), w)
      | Raise e => (Raise e, w)
      end
  end.

(** One turn of the loop of [main]. *)
Definition main_row (net : network) (checked_at : string) (url : pyval)
    (st : gmap string outcome * list result_record) (w : world)
    : res (gmap string outcome * list result_record) * world :=
  let '(cache, results) := st in
  match extract_tweet_id url with
  | Some tweet_id =>
      if negb (truthy_str tweet_id)
      then (Ok (cache, results ++ [invalid_record checked_at]), w)
      else
        let '(r, w) := fill_cache net tweet_id url cache w in
        match r with
        | Raise e => (Raise e, w)
        | Ok cache =>
            match cache !! tweet_id with
            | Some o =>
                (Ok (cache,
                     results ++
                     [mkResult (Some tweet_id) (availability o) (http_status o)
                        (detail o) checked_at (oembed_status o) (checked_url o)]),
                 w)
            | None => (Raise KeyError, w)
            end
        end
  | None => (Ok (cache, results ++ [invalid_record checked_at]), w)
  end.

Fixpoint main_loop (net : network) (checked_at : string) (rows : list pyval)
    (st : gmap string outcome * list result_record) (w : world)
    : res (gmap string outcome * list result_record) * world :=
  match rows with
  | [] => (Ok st, w)
  | url :: rest =>
      let '(r, w) := main_row net checked_at url st w in
      match r with
      | Ok st => main_loop net checked_at rest st w
      | Raise e => (Raise e, w)
      end
  end.

(** The loop of [main]: the cache and the results start empty. *)
Definition main_results (net : network) (checked_at : string) (rows : list pyval)
    (w : world) : res (list result_record) * world :=
  let '(r, w) := main_loop net checked_at rows (∅, []) w in
  (match r with Ok st => Ok (snd st) | Raise e => Raise e end, w).

(** One turn of the loop of [run_checks] in app.py. *)
Definition run_checks_row (net : network) (checked_at : string) (url : pyval)
    (st : gmap string outcome * list result_record) (w : world)
    : res (gmap string outcome * list result_record) * world :=
  let '(cache, results) := st in
  match extract_tweet_id url with
  | Some tweet_id =>
      if negb (truthy_str tweet_id)
      then (Ok (cache, results ++ [invalid_record checked_at]), w)
      else
        let '(r, w) := fill_cache net tweet_id url cache w in
        match r with
        | Raise e => (Raise e, w)
        | Ok cache =>
            match cache !! tweet_id with
            | Some result =>
                (Ok (cache,
                     results ++
                     [mkResult (Some tweet_id) (availability result)
                        (http_status result) (detail result) checked_at
                        (oembed_status result) (checked_url result)]),
                 w)
            | None => (Raise KeyError, w)
            end
        end
  | None => (Ok (cache, results ++ [invalid_record checked_at]), w)
  end.

Fixpoint run_checks_loop (net : network) (checked_at : string) (rows : list pyval)
    (st : gmap string outcome * list result_record) (w : world)
    : res (gmap string outcome * list result_record) * world :=
  match rows with
  | [] => (Ok st, w)
  | url :: rest =>
      let '(r, w) := run_checks_row net checked_at url st w in
      match r with
      | Ok st => run_checks_loop net checked_at rest st w
      | Raise e => (Raise e, w)
      end
  end.

Definition run_checks (net : network) (checked_at : string) (rows : list pyval)
    (w : world) : res (list result_record) * world :=
  let '(r, w) := run_checks_loop net checked_at rows (∅, []) w in
  (match r with Ok st => Ok (snd st) | Raise e => Raise e end, w).

(** ** Predicates of the statements *)

(** The details set by phase 2 start with another letter than the
    text of a parse failure. *)
Definition not_parse_detail (d : option string) : Prop :=
  match d with
  | None => True
  | Some (String c _) => c <> "F"%char
  | Some "" => False
  end.


(** What a match of a pattern is: [denote r s cap s' cap'] when [r]
    matches the text of [s] before [s'], group 1 going from [cap] to
    [cap']. *)
Fixpoint denote (r : regex) (s : string) (cap : option string)
    (s' : string) (cap' : option string) : Prop :=
  match r with
  | Eps => s' = s /\ cap' = cap
  | Atom a => exists c, s = String c s' /\ atom_matches a c = true /\ cap' = cap
  | Cat r1 r2 =>
      exists s1 cap1, denote r1 s cap s1 cap1 /\ denote r2 s1 cap1 s' cap'
  | Alt r1 r2 => denote r1 s cap s' cap' \/ denote r2 s cap s' cap'
  | Opt r1 => denote r1 s cap s' cap' \/ (s' = s /\ cap' = cap)
  | Plus _ a =>
      exists c t,
        s = String c t +:+ s' /\
        all_chars (atom_matches a) (String c t) = true /\ cap' = cap
  | Group r1 =>
      exists t cap1, denote r1 s cap s' cap1 /\ s = t +:+ s' /\ cap' = Some t
  end.

(** A path segment: not empty, without [/] and without a line feed. *)
Definition segment_char (c : ascii) : bool :=
  negb (Ascii.eqb c "/") && negb (Ascii.eqb c "010").

Definition is_segment (u : string) : Prop :=
  u <> "" /\ all_chars segment_char u = true.

(** A run of digits, not empty. *)
Definition is_digits (d : string) : Prop :=
  d <> "" /\ all_chars is_digit d = true.

(** The text does not go on with a digit. *)
Definition no_digit_ahead (s : string) : Prop :=
  match s with
  | "" => True
  | String c _ => is_digit c = false
  end.

(** No scheme, or [http://] or [https://] in any letter case. *)
Definition is_scheme_prefix (sch : string) : Prop :=
  sch = "" \/ lower sch = "http://" \/ lower sch = "https://".

(** No [www.], or [www.] in any letter case. *)
Definition is_www_prefix (www : string) : Prop :=
  www = "" \/ lower www = "www.".

(** [first_match r s cap s' cap']: the first way in which the matcher
    matches [r] at [s] leaves [s'] and [cap'], so that a continuation
    that accepts them decides the result. *)
Definition first_match (r : regex) (s : string) (cap : option string)
    (s' : string) (cap' : option string) : Prop :=
  forall (A : Type) (k : string -> option string -> option A) (x : A),
    k s' cap' = Some x -> rmatch r s cap k = Some x.

(** [r] has no match at [s]. *)
Definition no_match (r : regex) (s : string) (cap : option string) : Prop :=
  forall (A : Type) (k : string -> option string -> option A),
    rmatch r s cap k = None.

(** A character with which no match of [TWEET_URL_RE] starts. *)
Definition not_start_char (c : ascii) : bool :=
  negb (Ascii.eqb c "h") && negb (Ascii.eqb c "w") &&
  negb (Ascii.eqb c "t") && negb (Ascii.eqb c "x").

(** The row of an identifier whose outcome is [o]. *)
Definition record_of (checked_at tweet_id : string) (o : outcome)
    : result_record :=
  mkResult (Some tweet_id) (availability o) (http_status o) (detail o)
    checked_at (oembed_status o) (checked_url o).


(** The number of embed requests in a trace. *)
Definition is_oembed (r : request) : bool :=
  match r with OembedGet _ => true | BotGet _ => false end.

Definition embed_requests (l : list request) : nat :=
  length (List.filter is_oembed l).

(** The text is empty or starts with a character in [p]. *)
Definition head_is (p : ascii -> bool) (s : string) : bool :=
  match s with
  | "" => true
  | String c _ => p c
  end.

(** The characters of a parsed path: no [?], no [#], none of the
    bytes that [urlsplit] removes. *)
Definition path_char (c : ascii) : bool :=
  negb (Ascii.eqb c "?") && negb (Ascii.eqb c "#") && negb (unsafe_url_byte c).

(** No [;] behind the last [/]: [_splitparams] finds no parameters. *)
Definition params_free (s : string) : bool :=
  match rpartition "/" s with
  | Some (_, last) => negb (contains ";" last)
  | None => negb (contains ";" s)
  end.

(** A path as [urlparse] returns it for an [http] or [https] URL with
    a network location. *)
Definition is_path (p : string) : Prop :=
  head_is is_slash p = true /\ all_chars path_char p = true /\
  params_free p = true.

(** The characters of a network location without square brackets. *)
Definition host_char (c : ascii) : bool :=
  negb (netloc_delim c) && negb (unsafe_url_byte c) &&
  negb (Ascii.eqb c "[") && negb (Ascii.eqb c "]").

(** The characters of a query as [urlsplit] returns it. *)
Definition query_char (c : ascii) : bool :=
  negb (Ascii.eqb c "#") && negb (unsafe_url_byte c).

Definition not_bracket (c : ascii) : bool :=
  negb (Ascii.eqb c "[") && negb (Ascii.eqb c "]").

(** The parts that [urlsplit] returns for [scheme://r], when it
    returns. *)
Definition hier_parts (sch r : string) : SplitResult :=
  let '(netloc, rest) := break_at netloc_delim r in
  let '(url, fragment) := split_once "#" rest in
  let '(url, query) := split_once "?" url in
  mkSplit sch netloc url query fragment.

(** The parts that [urlparse] returns for it. *)
Definition parse_parts (sch r : string) : ParseResult :=
  let sr := hier_parts sch r in
  let '(url, params) :=
    if str_in sch uses_params && contains ";" (sr_path sr)
    then splitparams (sr_path sr)
    else (sr_path sr, "") in
  mkParse sch (sr_netloc sr) url params (sr_query sr) (sr_fragment sr).


(** The seen set and the candidate list go together. *)
Definition candidates_inv (st : gset string * list string) : Prop :=
  NoDup st.2 /\ forall x, x ∈ st.1 <-> x ∈ st.2.

(** A URL on the canonical domain: [https://x.com] and then nothing,
    a path or a query. *)
Definition path_or_query_start (c : ascii) : bool :=
  Ascii.eqb c "/" || Ascii.eqb c "?".

Definition on_x_domain (c : string) : Prop :=
  exists rest,
    c = "https://x.com" +:+ rest /\ head_is path_or_query_start rest = true.


(** ASCII text: every character is a code point below 128, on which
    [str] and this model agree without any proviso. *)
Definition is_ascii (c : ascii) : bool := (code c <? 128)%N.

Definition ascii_text (s : string) : Prop := all_chars is_ascii s = true.

(** An input that is no string, or a string of ASCII text. *)
Definition ascii_input (v : pyval) : Prop :=
  match v with
  | PyStr s => ascii_text s
  | _ => True
  end.




(** ** The names of the files in app.py *)

(** [name.lower().endswith(".csv")]: the uploaded file is read as CSV,
    else as an Excel workbook (app.py, lines 13-15). *)
Definition read_as_csv (name : string) : bool :=
  endswith ".csv" (lower name).

(** [s.rsplit(c, 1)[0]]: the text before the last [c], or all of [s]
    when [c] does not occur. *)
Definition rsplit_head (c : ascii) (s : string) : string :=
  match rpartition c s with
  | Some (a, _) => a
  | None => s
  end.

(** The name of a download: [f"{uploaded.name.rsplit('.', 1)[0]}_checked.xlsx"]
    and the same with [.csv] (app.py, lines 124 and 132). *)
Definition download_name (uploaded_name extension : string) : string :=
  rsplit_head "." uploaded_name +:+ "_checked" +:+ extension.

(** ** Further predicates of the statements *)

(** [lazy_first r s cap s' cap']: the lazy [.*?] followed by [r], run
    on [s], ends with the first match of [r] that leaves [s'] and
    [cap']. *)
Definition lazy_first (r : regex) (s : string) (cap : option string)
    (s' : string) (cap' : option string) : Prop :=
  forall (A : Type) (k : string -> option string -> option A) (x : A),
    k s' cap' = Some x ->
    star_lazy Dot s (fun s1 => rmatch r s1 cap k) = Some x.

(** An input that holds no URL: no string, or a string of white space
    only. *)
Definition blank (v : pyval) : Prop :=
  match v with
  | PyStr s => all_chars isspace s = true
  | _ => True
  end.

(** The start of a query or of a fragment. *)
Definition tail_start (c : ascii) : bool :=
  Ascii.eqb c "?" || Ascii.eqb c "#".

(** The ways in which the scheme of a URL is written that the
    normaliser takes for [https]: none, [//], or [http://] or
    [https://] in any letter case. *)
Definition is_http_prefix (sch : string) : Prop :=
  sch = "" \/ sch = "//" \/ lower sch = "http://" \/ lower sch = "https://".

(** The characters of a network location as it stands in a trimmed
    URL: none of [/?#] and no white space. *)
Definition netloc_char (c : ascii) : bool :=
  negb (netloc_delim c) && negb (isspace c).

(** A network location with a square bracket of one kind only. *)
Definition unmatched_bracket (n : string) : Prop :=
  contains "[" n <> contains "]" n.

(** What the loop over the candidates makes of the status of a fetch
    after a 200 of the embed probe: the availability and the detail
    (lines 232-284 and 296). *)
Definition fetch_verdict (status : Z) : AvailabilityCode * option string :=
  if (status =? 200)%Z then (public, None)
  else if (status =? 401)%Z || (status =? 403)%Z
  then (restricted, Some "Tweet requires authentication or is protected")
  else if (status =? 410)%Z then (gone, Some "Tweet removed (410)")
  else if (status =? 429)%Z
  then (rate_limited, Some "Rate limited while fetching tweet")
  else if (status =? 451)%Z
  then (unavailable_legal, Some "Tweet unavailable due to legal demand")
  else if (status =? 404)%Z
  then (not_found, Some "Tweet page returned 404 despite oEmbed success")
  else (unknown,
        Some ("Unexpected " +:+ str_of_int status +:+
              " response while fetching tweet")).

(** What phase 1 makes of a status of the embed probe other than 200
    (lines 182-213). *)
Definition probe_verdict (status : Z) : AvailabilityCode * string :=
  if (status =? 401)%Z || (status =? 403)%Z
  then (restricted, "Tweet requires authentication or is protected")
  else if (status =? 404)%Z then (not_found, "Tweet not found or removed")
  else if (status =? 429)%Z
  then (rate_limited, "Rate limited by Twitter oEmbed endpoint")
  else (unknown,
        "Unexpected " +:+ str_of_int status +:+ " response from oEmbed").

(** The locals of the loop over the candidates go together: the last
    status is one that does not end the loop, the detail is the one of
    that status, and the URL is the one among [fetched] whose fetch
    gave it. *)
Definition fetch_inv (net : network) (fetched : list string)
    (st : fetch_state) : Prop :=
  match last_status st with
  | None => last_url st = None
  | Some s =>
      spec_decisive s = None /\ last_detail st = (fetch_verdict s).2 /\
      exists u past j,
        last_url st = Some u /\ u ∈ fetched /\
        net past (BotGet u) = Response s j
  end.

(** The outcome of phase 2 for a candidate [u] whose fetch gave the
    status [s]. *)
Definition fetched_outcome (s : Z) (u : string) : outcome :=
  mkOutcome (fetch_verdict s).1 (Some s) (fetch_verdict s).2 (Some 200%Z)
    (Some u).

(** The loop over the candidates [fetch_urls], started after the
    requests [past], reaches the candidate [u]: the candidates [pre]
    before it are fetched first, in their order, and none of them gets
    a decisive status; the fetch of [u], made after them, is answered
    with the status [s]. *)
Definition fetch_reached (net : network) (past : list request)
    (fetch_urls pre : list string) (u : string) (s : Z) : Prop :=
  exists rest j,
    fetch_urls = pre ++ u :: rest /\
    Forall indecisive (attempts net past pre) /\
    net (past ++ map BotGet pre) (BotGet u) = Response s j.

(** The requests that one classification, started after the requests
    [past], may add to the trace: none, when the normaliser gives no
    URL; or the embed request for the normalised URL alone; or, when
    the embed request is answered 200 with a body that gives the
    canonical URL (or none), that request and then fetches of the
    first candidates of the list built from that reply, in their
    order, all on [x.com]. *)
Definition classification_requests (net : network) (past : list request)
    (tweet_id : string) (original_url : pyval) (new : list request) : Prop :=
  (new = [] /\
   (normalize_input_url original_url = Ok None \/
    exists e, normalize_input_url original_url = Raise e)) \/
  exists n,
    normalize_input_url original_url = Ok (Some n) /\
    (new = [OembedGet n] \/
     exists json a0 d0 canonical_url fetched rest,
       net past (OembedGet n) = Response 200 json /\
       oembed_200 json = Ok (a0, d0, canonical_url) /\
       build_fetch_urls tweet_id n canonical_url = Ok (fetched ++ rest) /\
       new = OembedGet n :: map BotGet fetched /\
       Forall on_x_domain fetched).

(** [o] is an outcome that the classifier returns for the identifier
    [tweet_id] and the URL of one of the rows that carry it. *)
Definition classified (net : network) (rows : list pyval) (tweet_id : string)
    (o : outcome) : Prop :=
  exists url w w',
    url ∈ rows /\ extract_tweet_id url = Some tweet_id /\
    check_tweet net tweet_id url w = (Ok o, w').

(** The record of a row: the fixed record when the URL has no
    identifier, else the record of an outcome of the classifier for
    its identifier. *)
Definition row_record (net : network) (checked_at : string) (rows : list pyval)
    (url : pyval) (rec : result_record) : Prop :=
  match extract_tweet_id url with
  | None => rec = invalid_record checked_at
  | Some tweet_id =>
      exists o, classified net rows tweet_id o /\
                rec = record_of checked_at tweet_id o
  end.

(** ** Further runs used as examples *)

(** The embed probe answers 200 with an object whose [url] is a
    number. *)
Definition net_embed_number : network := fun _ req =>
  match req with
  | OembedGet _ => Response 200 (JsonObject (PyOther true))
  | BotGet _ => Response 200 JsonOther
  end.

(** The embed probe answers 200 without a URL; the first fetch fails,
    the later ones answer 404 and then 503. *)
Definition net_flaky : network := fun past req =>
  match req with
  | OembedGet _ => Response 200 (JsonObject PyNone)
  | BotGet _ =>
      match past with
      | [_] => RequestException "timed out"
      | [_; _] => Response 404 JsonOther
      | _ => Response 503 JsonOther
      end
  end.

(** ** The batch loops with their pauses and progress reports
    (check_tweet_links.py, lines 371-404; app.py, lines 33-70) *)

(** What the loops do besides the requests: [time.sleep(...)], which
    is taken to return (its argument is a duration of zero or more
    seconds), [print(msg)], [status_text.text(msg)] and
    [progress_bar.progress(index / total_rows)]. *)
Inductive effect : Type :=
  | Slept
  | Printed (msg : string)
  | StatusText (msg : string)
  | ProgressBar (index total_rows : nat).

(** [f"Checked {index}/{total_rows} rows..."] *)
Definition progress_message (index total_rows : nat) : string :=
  "Checked " +:+ str_of_int (Z.of_nat index) +:+ "/" +:+
  str_of_int (Z.of_nat total_rows) +:+ " rows...".

(** [progress_every and index % progress_every == 0] *)
Definition progress_due (progress_every : Z) (index : nat) : bool :=
  negb (progress_every =? 0)%Z &&
  (Z.of_nat index mod progress_every =? 0)%Z.

(** One turn of the loop of [main] with its effects: the pause follows
    the classification of an identifier that was not in the cache
    (line 389), the report follows the record of a row with an
    identifier (lines 403-404); a row without identifier continues
    at line 385. *)
Definition main_row_io (net : network) (progress_every : Z)
    (total_rows index : nat) (checked_at : string) (url : pyval)
    (st : gmap string outcome * list result_record) (w : world)
    (log : list effect)
    : res (gmap string outcome * list result_record) * world * list effect :=
  let '(cache, results) := st in
  match extract_tweet_id url with
  | Some tweet_id =>
      if negb (truthy_str tweet_id)
      then (Ok (cache, results ++ [invalid_record checked_at]), w, log)
      else
        let '(r, w) := fill_cache net tweet_id url cache w in
        match r with
        | Raise e => (Raise e, w, log)
        | Ok cache' =>
            let log :=
              match cache !! tweet_id with
              | None => log ++ [Slept]
              | Some _ => log
              end in
            match cache' !! tweet_id with
            | Some o =>
                (Ok (cache',
                     results ++
                     [mkResult (Some tweet_id) (availability o) (http_status o)
                        (detail o) checked_at (oembed_status o) (checked_url o)]),
                 w,
                 if progress_due progress_every index
                 then log ++ [Printed (progress_message index total_rows)]
                 else log)
            | None => (Raise KeyError, w, log)
            end
        end
  | None => (Ok (cache, results ++ [invalid_record checked_at]), w, log)
  end.

Fixpoint main_loop_io (net : network) (progress_every : Z)
    (total_rows index : nat) (checked_at : string) (rows : list pyval)
    (st : gmap string outcome * list result_record) (w : world)
    (log : list effect)
    : res (gmap string outcome * list result_record) * world * list effect :=
  match rows with
  | [] => (Ok st, w, log)
  | url :: rest =>
      let '(r, w, log) :=
        main_row_io net progress_every total_rows index checked_at url st w log in
      match r with
      | Ok st =>
          main_loop_io net progress_every total_rows (S index) checked_at rest
            st w log
      | Raise e => (Raise e, w, log)
      end
  end.

(** One turn of the loop of [run_checks] with its effects: the pause
    is made only for a delay that counts as true (lines 51-52), and
    the report and the progress bar follow every row (lines 67-70). *)
Definition run_checks_row_io (net : network) (sleep : bool)
    (progress_every : Z) (total_rows index : nat) (checked_at : string)
    (url : pyval) (st : gmap string outcome * list result_record) (w : world)
    (log : list effect)
    : res (gmap string outcome * list result_record) * world * list effect :=
  let '(cache, results) := st in
  let '(r, w, log) :=
    match extract_tweet_id url with
    | Some tweet_id =>
        if negb (truthy_str tweet_id)
        then (Ok (cache, results ++ [invalid_record checked_at]), w, log)
        else
          let '(r, w) := fill_cache net tweet_id url cache w in
          match r with
          | Raise e => (Raise e, w, log)
          | Ok cache' =>
              let log :=
                match cache !! tweet_id with
                | None => if sleep then log ++ [Slept] else log
                | Some _ => log
                end in
              match cache' !! tweet_id with
              | Some result =>
                  (Ok (cache',
                       results ++
                       [mkResult (Some tweet_id) (availability result)
                          (http_status result) (detail result) checked_at
                          (oembed_status result) (checked_url result)]),
                   w, log)
              | None => (Raise KeyError, w, log)
              end
          end
    | None => (Ok (cache, results ++ [invalid_record checked_at]), w, log)
    end in
  match r with
  | Raise e => (Raise e, w, log)
  | Ok st =>
      (Ok st, w,
       (if progress_due progress_every index
        then log ++ [StatusText (progress_message index total_rows)]
        else log) ++ [ProgressBar index total_rows])
  end.

Fixpoint run_checks_loop_io (net : network) (sleep : bool)
    (progress_every : Z) (total_rows index : nat) (checked_at : string)
    (rows : list pyval) (st : gmap string outcome * list result_record)
    (w : world) (log : list effect)
    : res (gmap string outcome * list result_record) * world * list effect :=
  match rows with
  | [] => (Ok st, w, log)
  | url :: rest =>
      let '(r, w, log) :=
        run_checks_row_io net sleep progress_every total_rows index checked_at
          url st w log in
      match r with
      | Ok st =>
          run_checks_loop_io net sleep progress_every total_rows (S index)
            checked_at rest st w log
      | Raise e => (Raise e, w, log)
      end
  end.

(** The messages printed, the status texts, and the number of pauses
    in a log. *)
Definition printed (log : list effect) : list string :=
  omap (fun e => match e with Printed msg => Some msg | _ => None end) log.

Definition status_texts (log : list effect) : list string :=
  omap (fun e => match e with StatusText msg => Some msg | _ => None end) log.

Definition is_slept (e : effect) : bool :=
  match e with Slept => true | _ => false end.

Definition pauses (log : list effect) : nat :=
  length (List.filter is_slept log).

(** [if not tweet_id] does not hold for the URL. *)
Definition has_identifier (url : pyval) : bool :=
  match extract_tweet_id url with
  | Some tweet_id => truthy_str tweet_id
  | None => false
  end.

(** The progress messages of the rows, counted from [index], at which
    [due] holds. *)
Fixpoint reports (due : nat -> pyval -> bool) (total_rows index : nat)
    (rows : list pyval) : list string :=
  match rows with
  | [] => []
  | url :: rest =>
      (if due index url then [progress_message index total_rows] else []) ++
      reports due total_rows (S index) rest
  end.
(** * Properties *)

(** ** Small facts on strings *)

Lemma append_assoc (a b c : string) : (a +:+ b) +:+ c = a +:+ (b +:+ c).
Proof. induction a as [|x a IH]; simpl; [done | by rewrite IH]. Qed.

Lemma append_nil_r (a : string) : a +:+ "" = a.
Proof. induction a as [|x a IH]; simpl; [done | by rewrite IH]. Qed.

Lemma urlunparse_https host p :
  urlunparse "https" host p "" "" "" =
  "https:" +:+
    (if truthy_str host || negb (String.eqb (take_str 2 p) "//")
     then "//" +:+ host +:+
          (if truthy_str p && negb (String.eqb (take_str 1 p) "/")
           then "/" +:+ p else p)
     else p).
Proof.
  unfold urlunparse, urlunsplit. simpl truthy_str. cbn [andb].
  replace (str_in "https" uses_netloc) with true by done.
  cbn [andb]. by destruct (truthy_str host || negb _).
Qed.

Lemma normalize_truthy v n :
  normalize_input_url v = Ok (Some n) -> truthy_str n = true.
Proof.
  unfold normalize_input_url. destruct v as [|raw|]; try done.
  destruct (negb (truthy_str (strip raw))); [done|].
  destruct (urlparse _) as [parsed|]; [|done]. cbn [res_bind].
  destruct (negb (str_in _ allowed_hosts)); [done|].
  intros [= <-]. by rewrite urlunparse_https.
Qed.

(** ** The classifier *)

Lemma check_tweet_invalid net tweet_id original_url w :
  normalize_input_url original_url = Ok None ->
  check_tweet net tweet_id original_url w =
    (Ok (mkOutcome invalid_url None (Some "URL could not be normalized")
           None None), w).
Proof. intros H. unfold check_tweet. by rewrite H. Qed.

Lemma check_tweet_probe net tweet_id original_url w n :
  normalize_input_url original_url = Ok (Some n) ->
  check_tweet net tweet_id original_url w =
    let w1 := mkWorld (requests w ++ [OembedGet n]) (calls w) in
    match net (requests w) (OembedGet n) with
    | RequestException exc =>
        (Ok (mkOutcome error None (Some ("oEmbed request failed: " +:+ exc))
               None None), w1)
    | Response status_code json =>
        if (status_code =? 200)%Z then
          match oembed_200 json with
          | Raise e => (Raise e, w1)
          | Ok (_, _, canonical_url) =>
              phase2 net tweet_id n status_code status_code canonical_url w1
          end
        else
          (Ok (mkOutcome
                 (if (status_code =? 401)%Z || (status_code =? 403)%Z
                  then restricted
                  else if (status_code =? 404)%Z then not_found
                  else if (status_code =? 429)%Z then rate_limited
                  else unknown)
                 (Some status_code)
                 (Some
                    (if (status_code =? 401)%Z || (status_code =? 403)%Z
                     then "Tweet requires authentication or is protected"
                     else if (status_code =? 404)%Z
                     then "Tweet not found or removed"
                     else if (status_code =? 429)%Z
                     then "Rate limited by Twitter oEmbed endpoint"
                     else "Unexpected " +:+ str_of_int status_code +:+
                          " response from oEmbed"))
                 (Some status_code) None), w1)
    end.
Proof.
  intros H. unfold check_tweet. rewrite H, (normalize_truthy _ _ H).
  cbn [negb]. unfold send. cbv zeta.
  destruct (net (requests w) (OembedGet n)) as [exc|sc json]; [done|].
  destruct (sc =? 200)%Z; [done|].
  destruct ((sc =? 401)%Z || (sc =? 403)%Z); [done|].
  destruct (sc =? 404)%Z; [done|]. by destruct (sc =? 429)%Z.
Qed.

(** C1. When the normaliser returns no URL the classifier answers
    [invalid_url] and makes no request. When the normaliser raises,
    which it does when [urlparse] rejects the URL, the classifier
    raises the same exception, returns no outcome and makes no request.
    When the normaliser returns a URL the classifier makes the embed
    request, and the reply decides as in the table of the
    specification: a network failure gives [error], 401 and 403 give
    [restricted], 404 gives [not_found], 429 gives [rate_limited], any
    other code but 200 gives [unknown], each after this one request and
    without a fetch of a candidate; on 200, and only then, the run goes
    on with phase 2. *)
Theorem C1_phase1_table net tweet_id original_url w :
  (normalize_input_url original_url = Ok None ->
   exists o,
     check_tweet net tweet_id original_url w = (Ok o, w) /\
     availability o = invalid_url) /\
  (forall e,
     normalize_input_url original_url = Raise e ->
     check_tweet net tweet_id original_url w = (Raise e, w)) /\
  (forall n,
     normalize_input_url original_url = Ok (Some n) ->
     let w1 := mkWorld (requests w ++ [OembedGet n]) (calls w) in
     match spec_phase1 (net (requests w) (OembedGet n)) with
     | Stops a =>
         exists o,
           check_tweet net tweet_id original_url w = (Ok o, w1) /\
           availability o = a /\ checked_url o = None
     | Continues =>
         exists json,
           net (requests w) (OembedGet n) = Response 200 json /\
           check_tweet net tweet_id original_url w =
             match oembed_200 json with
             | Raise e => (Raise e, w1)
             | Ok (_, _, canonical_url) =>
                 phase2 net tweet_id n 200 200 canonical_url w1
             end
     end).
Proof.
  split; [|split].
  - intros H. rewrite (check_tweet_invalid _ _ _ _ H). by eexists.
  - intros e H. unfold check_tweet. by rewrite H.
  - intros n H. rewrite (check_tweet_probe _ _ _ _ _ H). cbv zeta.
    destruct (net (requests w) (OembedGet n)) as [exc|sc json]; simpl.
    + by eexists.
    + destruct (sc =? 200)%Z eqn:E200.
      * apply Z.eqb_eq in E200 as ->. by exists json.
      * destruct ((sc =? 401)%Z || (sc =? 403)%Z); [by eexists|].
        destruct (sc =? 404)%Z; [by eexists|].
        destruct (sc =? 429)%Z; by eexists.
Qed.

(** *** Phase 2 *)

Lemma spec_decisive_None s :
  spec_decisive s = None ->
  (s =? 200)%Z = false /\ ((s =? 401)%Z || (s =? 403)%Z) = false /\
  (s =? 410)%Z = false /\ (s =? 429)%Z = false /\ (s =? 451)%Z = false.
Proof.
  unfold spec_decisive.
  destruct (s =? 200)%Z; [done|].
  destruct ((s =? 401)%Z || (s =? 403)%Z); [done|].
  destruct (s =? 410)%Z; [done|]. destruct (s =? 429)%Z; [done|].
  by destruct (s =? 451)%Z.
Qed.

(** A decisive status stops the loop at once, with the outcome of the
    table, the status and the candidate. *)
Lemma fetch_loop_decisive net os sc u rest st w s j a :
  net (requests w) (BotGet u) = Response s j ->
  spec_decisive s = Some a ->
  exists d,
    fetch_loop net os sc (u :: rest) st w =
      (inl (mkOutcome a (Some s) d (Some os) (Some u)),
       mkWorld (requests w ++ [BotGet u]) (calls w)).
Proof.
  intros Hnet Hdec. cbn [fetch_loop]. unfold send. rewrite Hnet.
  unfold spec_decisive in Hdec.
  destruct (s =? 200)%Z; [injection Hdec as <-; by eexists|].
  destruct ((s =? 401)%Z || (s =? 403)%Z); [injection Hdec as <-; by eexists|].
  destruct (s =? 410)%Z; [injection Hdec as <-; by eexists|].
  destruct (s =? 429)%Z; [injection Hdec as <-; by eexists|].
  destruct (s =? 451)%Z; [injection Hdec as <-; by eexists|done].
Qed.

Ltac case_last :=
  repeat match goal with
         | |- context [last ?l] => destruct (last l)
         end; done.

(** Without a decisive status the loop runs through all candidates and
    keeps the status and URL of the last response and the text of the
    last failure. *)
Lemma fetch_loop_exhausted net os sc fetch_urls :
  forall st w,
    Forall indecisive (attempts net (requests w) fetch_urls) ->
    exists st',
      fetch_loop net os sc fetch_urls st w =
        (inr st', mkWorld (requests w ++ map BotGet fetch_urls) (calls w)) /\
      last_status st' =
        match last (http_responses (attempts net (requests w) fetch_urls)) with
        | Some a => Some a.2
        | None => last_status st
        end /\
      last_url st' =
        match last (http_responses (attempts net (requests w) fetch_urls)) with
        | Some a => Some a.1
        | None => last_url st
        end /\
      last_exception st' =
        match last (network_failures (attempts net (requests w) fetch_urls)) with
        | Some exc => Some exc
        | None => last_exception st
        end.
Proof.
  induction fetch_urls as [|u rest IH]; intros st w Hall.
  - exists st. cbn. rewrite app_nil_r. by destruct w.
  - cbn [attempts] in *. apply Forall_cons in Hall as [Hu Hrest].
    cbn [fetch_loop]. unfold send.
    set (w1 := mkWorld (requests w ++ [BotGet u]) (calls w)).
    change (requests w ++ [BotGet u]) with (requests w1) in Hrest |- *.
    assert (Hreq : requests w ++ map BotGet (u :: rest) =
                   requests w1 ++ map BotGet rest).
    { cbn. by rewrite <- app_assoc. }
    rewrite Hreq. change (calls w) with (calls w1).
    unfold http_responses, network_failures. cbn [omap list_omap].
    unfold indecisive in Hu. cbn [snd fst] in *.
    destruct (net (requests w) (BotGet u)) as [exc|s j].
    + destruct (IH (mkFetch (last_status st) (last_detail st) (last_url st)
                      (Some exc)) w1 Hrest) as (st' & Hrun & H1 & H2 & H3).
      exists st'. split; [exact Hrun|]. cbn [last_status last_url last_exception] in *.
      split; [exact H1|]. split; [exact H2|]. rewrite H3, last_cons.
      unfold network_failures. case_last.
    + apply spec_decisive_None in Hu as (-> & -> & -> & -> & ->).
      destruct (s =? 404)%Z.
      * match goal with
        | |- context [fetch_loop _ _ _ _ ?st0 w1] =>
            destruct (IH st0 w1 Hrest) as (st' & Hrun & H1 & H2 & H3)
        end.
        exists st'. split; [exact Hrun|]. cbn [last_status last_url last_exception] in *.
        rewrite H1, H2, H3, !last_cons. unfold http_responses, network_failures.
        repeat split; case_last.
      * match goal with
        | |- context [fetch_loop _ _ _ _ ?st0 w1] =>
            destruct (IH st0 w1 Hrest) as (st' & Hrun & H1 & H2 & H3)
        end.
        exists st'. split; [exact Hrun|]. cbn [last_status last_url last_exception] in *.
        rewrite H1, H2, H3, !last_cons. unfold http_responses, network_failures.
        repeat split; case_last.
Qed.

(** The decisive codes of the table. *)
Lemma phase2_decisive_codes s :
  is_Some (spec_decisive s) <-> s ∈ [200; 401; 403; 410; 429; 451]%Z.
Proof.
  unfold spec_decisive. rewrite !elem_of_cons, elem_of_nil.
  destruct (s =? 200)%Z eqn:E1;
    [apply Z.eqb_eq in E1; split; [lia | by eexists]|].
  destruct (s =? 401)%Z eqn:E2;
    [apply Z.eqb_eq in E2; split; [lia | by eexists]|].
  destruct (s =? 403)%Z eqn:E3;
    [apply Z.eqb_eq in E3; split; [lia | by eexists]|].
  destruct (s =? 410)%Z eqn:E4;
    [apply Z.eqb_eq in E4; split; [lia | by eexists]|].
  destruct (s =? 429)%Z eqn:E5;
    [apply Z.eqb_eq in E5; split; [lia | by eexists]|].
  destruct (s =? 451)%Z eqn:E6;
    [apply Z.eqb_eq in E6; split; [lia | by eexists]|].
  apply Z.eqb_neq in E1, E2, E3, E4, E5, E6. cbn [orb].
  split; [intros [? H]; discriminate H | lia].
Qed.

Lemma attempts_app net pre rest :
  forall past,
    attempts net past (pre ++ rest) =
    attempts net past pre ++ attempts net (past ++ map BotGet pre) rest.
Proof.
  induction pre as [|u pre IH]; intros past; cbn [app attempts map].
  - by rewrite app_nil_r.
  - rewrite IH. by rewrite <- app_assoc.
Qed.

(** The loop over a list in two pieces. *)
Lemma fetch_loop_app net os sc pre rest :
  forall st w,
    fetch_loop net os sc (pre ++ rest) st w =
      match fetch_loop net os sc pre st w with
      | (inl o, w1) => (inl o, w1)
      | (inr st1, w1) => fetch_loop net os sc rest st1 w1
      end.
Proof.
  induction pre as [|u pre IH]; intros st w; [done|].
  cbn [app fetch_loop]. unfold send.
  destruct (net (requests w) (BotGet u)) as [exc|s j]; [apply IH|].
  destruct (s =? 200)%Z; [done|].
  destruct ((s =? 401)%Z || (s =? 403)%Z); [done|].
  destruct (s =? 410)%Z; [done|]. destruct (s =? 429)%Z; [done|].
  destruct (s =? 451)%Z; [done|]. destruct (s =? 404)%Z; apply IH.
Qed.

(** The first decisive status stops the loop at its candidate. *)
Lemma fetch_loop_stops net os sc pre u rest st w s j a :
  Forall indecisive (attempts net (requests w) pre) ->
  net (requests w ++ map BotGet pre) (BotGet u) = Response s j ->
  spec_decisive s = Some a ->
  exists d,
    fetch_loop net os sc (pre ++ u :: rest) st w =
      (inl (mkOutcome a (Some s) d (Some os) (Some u)),
       mkWorld (requests w ++ map BotGet (pre ++ [u])) (calls w)).
Proof.
  intros Hall Hnet Hdec. rewrite fetch_loop_app.
  destruct (fetch_loop_exhausted net os sc pre st w Hall) as (st1 & -> & _).
  destruct (fetch_loop_decisive net os sc u rest st1
              (mkWorld (requests w ++ map BotGet pre) (calls w)) s j a Hnet Hdec)
    as [d ->].
  exists d. cbn [requests calls]. by rewrite map_app, app_assoc.
Qed.

(** C2. Phase 2 of a classification, entered after a 200 of the embed
    probe with the candidates built from its reply. The first candidate
    whose fetch gets one of the status codes 200, 401, 403, 410, 429
    and 451 stops the loop: the classifier returns at once with that
    status and that candidate. When no candidate gets one of them the
    classifier fetches every candidate and then returns: without any
    HTTP response the outcome is [error] with the text of the last
    network failure; with one, it is [not_found] when the last status
    received is 404 and [unknown] otherwise, with that status and the
    URL that gave it. *)
Theorem C2_phase2_exhausted net tweet_id original_url w n json a0 d0
    canonical_url fetch_urls :
  normalize_input_url original_url = Ok (Some n) ->
  net (requests w) (OembedGet n) = Response 200 json ->
  oembed_200 json = Ok (a0, d0, canonical_url) ->
  build_fetch_urls tweet_id n canonical_url = Ok fetch_urls ->
  let w1 := mkWorld (requests w ++ [OembedGet n]) (calls w) in
  let tries := attempts net (requests w1) fetch_urls in
  check_tweet net tweet_id original_url w =
    phase2 net tweet_id n 200 200 canonical_url w1 /\
  (forall pre u rest s j,
     fetch_urls = pre ++ u :: rest ->
     Forall indecisive (attempts net (requests w1) pre) ->
     net (requests w1 ++ map BotGet pre) (BotGet u) = Response s j ->
     s ∈ [200; 401; 403; 410; 429; 451]%Z ->
     exists a d,
       spec_decisive s = Some a /\
       check_tweet net tweet_id original_url w =
         (Ok (mkOutcome a (Some s) d (Some 200%Z) (Some u)),
          mkWorld (requests w1 ++ map BotGet (pre ++ [u])) (calls w))) /\
  (Forall indecisive tries ->
   exists o,
     check_tweet net tweet_id original_url w =
       (Ok o, mkWorld (requests w1 ++ map BotGet fetch_urls) (calls w)) /\
     oembed_status o = Some 200%Z /\
     match last (http_responses tries) with
     | None =>
         availability o = error /\ http_status o = None /\
         checked_url o = None /\
         detail o = Some (failure_detail (last (network_failures tries)))
     | Some (url, status) =>
         availability o = (if (status =? 404)%Z then not_found else unknown) /\
         http_status o = Some status /\ checked_url o = Some url
     end).
Proof.
  intros Hn Hnet Hjson Hb w1 tries.
  assert (Hrun : check_tweet net tweet_id original_url w =
                 phase2 net tweet_id n 200 200 canonical_url w1).
  { rewrite (check_tweet_probe _ _ _ _ _ Hn). cbv zeta.
    by rewrite Hnet, Hjson. }
  split; [exact Hrun|]. rewrite Hrun. unfold phase2. rewrite Hb. split.
  - intros pre u rest s j -> Hpre Hu Hs.
    apply phase2_decisive_codes in Hs as [a Ha].
    destruct (fetch_loop_stops net 200 200 pre u rest
                (mkFetch None None None None) w1 s j a Hpre Hu Ha) as [d ->].
    by exists a, d.
  - intros Hall.
    destruct (fetch_loop_exhausted net 200 200 fetch_urls
                (mkFetch None None None None) w1 Hall)
      as (st & -> & H1 & H2 & H3).
    exists (after_loop 200 st). split; [done|]. unfold after_loop.
    fold tries in H1, H2, H3.
    cbn [last_status last_url last_exception] in *.
    destruct (last (http_responses tries)) as [[url status]|];
      cbn [fst snd] in *.
    + rewrite H1, H2. by cbn.
    + rewrite H1, H3. cbn. split; [done|]. repeat split.
      unfold failure_detail. by destruct (last (network_failures tries)).
Qed.

(** *** The parse failure of the embed body *)

Lemma fetch_loop_detail net os sc fetch_urls :
  forall st w r w',
    not_parse_detail (last_detail st) ->
    fetch_loop net os sc fetch_urls st w = (r, w') ->
    match r with
    | inl o => not_parse_detail (detail o)
    | inr st' => not_parse_detail (last_detail st')
    end.
Proof.
  induction fetch_urls as [|u rest IH]; intros st w r w' Hst Hrun.
  - injection Hrun as <- <-. done.
  - cbn [fetch_loop] in Hrun. unfold send in Hrun.
    destruct (net (requests w) (BotGet u)) as [exc|s j].
    + by eapply IH; [|exact Hrun].
    + destruct (s =? 200)%Z; [by injection Hrun as <- <-|].
      destruct ((s =? 401)%Z || (s =? 403)%Z); [by injection Hrun as <- <-|].
      destruct (s =? 410)%Z; [by injection Hrun as <- <-|].
      destruct (s =? 429)%Z; [by injection Hrun as <- <-|].
      destruct (s =? 451)%Z; [by injection Hrun as <- <-|].
      destruct (s =? 404)%Z; (eapply IH; [|exact Hrun]); cbn;
        [by destruct (sc =? 200)%Z | done].
Qed.

Lemma phase2_detail net tweet_id n os sc canonical_url w o w' :
  phase2 net tweet_id n os sc canonical_url w = (Ok o, w') ->
  not_parse_detail (detail o).
Proof.
  unfold phase2. destruct (build_fetch_urls _ _ _) as [fetch_urls|]; [|done].
  destruct (fetch_loop _ _ _ _ _ _) as [r w1] eqn:Hloop.
  apply fetch_loop_detail in Hloop; [|done].
  destruct r as [o1|st]; intros [= <- <-]; [done|].
  unfold after_loop. destruct (last_status st); [done|]. cbn.
  destruct (last_exception st) as [exc|]; [|done]. by destruct (truthy_str exc).
Qed.

(** C6. After a 200 of the embed probe whose body does not parse the
    run goes on with phase 2 and the candidates built without a
    canonical URL; the outcome it returns never carries the text of
    the parse failure in [detail]. *)
Theorem C6_parse_failure_dropped net tweet_id original_url w n exc :
  normalize_input_url original_url = Ok (Some n) ->
  net (requests w) (OembedGet n) = Response 200 (JsonValueError exc) ->
  check_tweet net tweet_id original_url w =
    phase2 net tweet_id n 200 200 PyNone
      (mkWorld (requests w ++ [OembedGet n]) (calls w)) /\
  forall o w',
    check_tweet net tweet_id original_url w = (Ok o, w') ->
    detail o <> Some ("Failed to parse oEmbed payload: " +:+ exc).
Proof.
  intros Hn Hnet.
  assert (Hrun : check_tweet net tweet_id original_url w =
                 phase2 net tweet_id n 200 200 PyNone
                   (mkWorld (requests w ++ [OembedGet n]) (calls w))).
  { rewrite (check_tweet_probe _ _ _ _ _ Hn). cbv zeta. by rewrite Hnet. }
  split; [exact Hrun|]. intros o w' Ho. rewrite Hrun in Ho.
  apply phase2_detail in Ho. intros Hd. rewrite Hd in Ho. by cbn in Ho.
Qed.

(** ** The matcher *)

Lemma length_append (a b : string) :
  String.length (a +:+ b) = String.length a + String.length b.
Proof. induction a as [|x a IH]; simpl; [done | by rewrite IH]. Qed.

Lemma take_str_append (a b : string) :
  take_str (String.length (a +:+ b) - String.length b) (a +:+ b) = a.
Proof.
  rewrite length_append. replace (_ + _ - _) with (String.length a) by lia.
  induction a as [|x a IH]; simpl; [by destruct b | by rewrite IH].
Qed.

Lemma append_cancel_r (s : string) : forall a b, a +:+ s = b +:+ s -> a = b.
Proof.
  induction a as [|x a IH]; intros [|y b] H; cbn in H.
  - done.
  - apply (f_equal String.length) in H. cbn in H. rewrite length_append in H. lia.
  - apply (f_equal String.length) in H. cbn in H. rewrite length_append in H. lia.
  - injection H as -> H. by rewrite (IH _ H).
Qed.

Lemma all_chars_append p (a b : string) :
  all_chars p (a +:+ b) = all_chars p a && all_chars p b.
Proof.
  induction a as [|x a IH]; simpl; [done|]. rewrite IH. by destruct (p x).
Qed.

(** The text matched is a suffix split: [s = t ++ s']. *)
Lemma denote_suffix r : forall s cap s' cap',
  denote r s cap s' cap' -> exists t, s = t +:+ s'.
Proof.
  induction r as [|a|r1 IH1 r2 IH2|r1 IH1 r2 IH2|r1 IH1|g a|r1 IH1];
    intros s cap s' cap'; cbn [denote].
  - intros [-> _]. by exists "".
  - intros (c & -> & _). by exists (String c "").
  - intros (s1 & cap1 & H1 & H2).
    destruct (IH1 _ _ _ _ H1) as [t1 ->]. destruct (IH2 _ _ _ _ H2) as [t2 ->].
    exists (t1 +:+ t2). by rewrite append_assoc.
  - intros [H|H]; [by eapply IH1 | by eapply IH2].
  - intros [H|[-> _]]; [by eapply IH1 | by exists ""].
  - intros (c & t & -> & _). by exists (String c t).
  - intros (t & cap1 & _ & -> & _). by exists t.
Qed.

Section Sound.
Context {A : Type}.

Lemma star_greedy_sound a : forall s (k : string -> option A) x,
  star_greedy a s k = Some x ->
  exists t s', s = t +:+ s' /\ all_chars (atom_matches a) t = true /\
               k s' = Some x.
Proof.
  induction s as [|c r IH]; intros k x; cbn [star_greedy].
  - intros H. by exists "", "".
  - destruct (atom_matches a c) eqn:Hc.
    + destruct (star_greedy a r k) as [y|] eqn:Hr.
      * intros [= ->]. destruct (IH _ _ Hr) as (t & s' & -> & Ht & Hk).
        exists (String c t), s'. cbn. by rewrite Hc, Ht.
      * intros H. by exists "", (String c r).
    + intros H. by exists "", (String c r).
Qed.

Lemma star_lazy_sound a : forall s (k : string -> option A) x,
  star_lazy a s k = Some x ->
  exists t s', s = t +:+ s' /\ all_chars (atom_matches a) t = true /\
               k s' = Some x.
Proof.
  induction s as [|c r IH]; intros k x; cbn [star_lazy].
  - destruct (k "") eqn:Hk; [|done]. intros [= ->]. by exists "", "".
  - destruct (k (String c r)) eqn:Hk.
    + intros [= ->]. by exists "", (String c r).
    + destruct (atom_matches a c) eqn:Hc; [|done]. intros Hr.
      destruct (IH _ _ Hr) as (t & s' & -> & Ht & Hk').
      exists (String c t), s'. cbn. by rewrite Hc, Ht.
Qed.

Lemma rmatch_sound r : forall s cap (k : string -> option string -> option A) x,
  rmatch r s cap k = Some x ->
  exists s' cap', denote r s cap s' cap' /\ k s' cap' = Some x.
Proof.
  induction r as [|a|r1 IH1 r2 IH2|r1 IH1 r2 IH2|r1 IH1|g a|r1 IH1];
    intros s cap k x; cbn [rmatch denote].
  - intros H. by exists s, cap.
  - destruct s as [|c s']; [done|].
    destruct (atom_matches a c) eqn:Hc; [|done].
    intros H. exists s', cap. split; [by exists c | done].
  - intros H. destruct (IH1 _ _ _ _ H) as (s1 & cap1 & H1 & H').
    destruct (IH2 _ _ _ _ H') as (s2 & cap2 & H2 & Hk).
    exists s2, cap2. split; [by exists s1, cap1 | done].
  - destruct (rmatch r1 s cap k) as [y|] eqn:H1.
    + intros [= ->]. destruct (IH1 _ _ _ _ H1) as (s1 & cap1 & ? & ?).
      exists s1, cap1. auto.
    + intros H. destruct (IH2 _ _ _ _ H) as (s1 & cap1 & ? & ?).
      exists s1, cap1. auto.
  - destruct (rmatch r1 s cap k) as [y|] eqn:H1.
    + intros [= ->]. destruct (IH1 _ _ _ _ H1) as (s1 & cap1 & ? & ?).
      exists s1, cap1. auto.
    + intros H. exists s, cap. auto.
  - unfold plus. destruct s as [|c r]; [done|].
    destruct (atom_matches a c) eqn:Hc; [|done]. intros H.
    assert (exists t s', r = t +:+ s' /\
              all_chars (atom_matches a) t = true /\ k s' cap = Some x)
      as (t & s' & -> & Ht & Hk).
    { destruct g; [by apply star_greedy_sound in H
                  | by apply star_lazy_sound in H]. }
    exists s', cap. split; [|done]. exists c, t. cbn. by rewrite Hc, Ht.
  - intros H. destruct (IH1 _ _ _ _ H) as (s1 & cap1 & H1 & Hk).
    destruct (denote_suffix _ _ _ _ _ H1) as [t ->].
    rewrite take_str_append in Hk.
    exists s1, (Some t). split; [by exists t, cap1 | done].
Qed.
End Sound.

Lemma search_sound r : forall s m,
  search r s = Some m -> exists pre t, s = pre +:+ t /\ match_at r t = Some m.
Proof.
  induction s as [|c s IH]; intros m; cbn [search].
  - destruct (match_at r "") eqn:H; [|done]. intros [= ->]. by exists "", "".
  - destruct (match_at r (String c s)) eqn:H.
    + intros [= ->]. by exists "", (String c s).
    + intros Hs. destruct (IH _ Hs) as (pre & t & -> & Ht).
      by exists (String c pre), t.
Qed.

Lemma search_skip r c s :
  match_at r (String c s) = None -> search r (String c s) = search r s.
Proof. intros H. cbn [search]. by rewrite H. Qed.

Lemma search_here r s m : match_at r s = Some m -> search r s = Some m.
Proof. intros H. destruct s; cbn [search]; by rewrite H. Qed.

Lemma denote_lits p : forall s cap s' cap',
  denote (lits p) s cap s' cap' -> s = p +:+ s' /\ cap' = cap.
Proof.
  induction p as [|c p IH]; intros s cap s' cap'; cbn [lits denote].
  - by intros [-> ->].
  - intros (s1 & cap1 & (c' & -> & Hc & ->) & H2).
    apply Ascii.eqb_eq in Hc as ->. destruct (IH _ _ _ _ H2) as [-> ->]. done.
Qed.

Lemma denote_opt_lits p s cap s' cap' :
  denote (Opt (lits p)) s cap s' cap' ->
  exists o, (o = p \/ o = "") /\ s = o +:+ s' /\ cap' = cap.
Proof.
  cbn [denote]. intros [H|[-> ->]].
  - apply denote_lits in H as [-> ->]. exists p. auto.
  - exists "". auto.
Qed.

(** ** Identifier extraction *)

Lemma status_id_shape s cap s' cap' :
  denote STATUS_ID_RE s cap s' cap' ->
  exists es d,
    (es = "es" \/ es = "") /\ is_digits d /\ cap' = Some d /\
    s = "/status" +:+ es +:+ "/" +:+ d +:+ s'.
Proof.
  unfold STATUS_ID_RE. cbn [denote].
  intros (s1 & cap1 & H1 & s2 & cap2 & H2 & s3 & cap3 & H3 & d & cap4 & H4
          & Hd & ->).
  apply denote_lits in H1 as [-> ->].
  apply denote_opt_lits in H2 as (es & Hes & -> & ->).
  apply denote_lits in H3 as [-> ->].
  destruct H4 as (c & t & H4 & Hall & _).
  assert (d = String c t) as ->.
  { apply (append_cancel_r s'). by rewrite <- Hd, H4. }
  exists es, (String c t). repeat split; [done..|].
  by rewrite H4.
Qed.

(** What a match of the pattern looks like: an optional scheme, an
    optional [www.], one of the two domains, [.com/], some text without
    line feed, [/status/] or [/statuses/], and the digits of group 1. *)
Lemma tweet_url_shape s m :
  match_at TWEET_URL_RE s = Some m ->
  exists sch www dom u es d rest,
    m = Some d /\ is_digits d /\
    s = sch +:+ www +:+ dom +:+ ".com/" +:+ u +:+ "/status" +:+ es +:+ "/"
        +:+ d +:+ rest /\
    (sch = "http://" \/ sch = "https://" \/ sch = "") /\
    (www = "www." \/ www = "") /\ (dom = "twitter" \/ dom = "x") /\
    (es = "es" \/ es = "") /\
    u <> "" /\ all_chars (atom_matches Dot) u = true.
Proof.
  unfold match_at. intros H.
  apply rmatch_sound in H as (rest & cap' & H & [= <-]).
  unfold TWEET_URL_RE, HOST_PATH_RE in H. cbn [denote] in H.
  destruct H as (s1 & cap1 & Hsch & s2 & cap2 & Hwww & s3 & cap3 & Hdom
                 & s4 & cap4 & Hcom & s5 & cap5 & Hu & Hid).
  assert (exists sch, (sch = "http://" \/ sch = "https://" \/ sch = "") /\
                      s = sch +:+ s1) as (sch & Hsch' & ->).
  { destruct Hsch as [(t1 & c1 & H1 & t2 & c2 & H2 & H3)|[-> _]].
    - apply denote_lits in H1 as [-> _].
      apply denote_opt_lits in H2 as (o & Ho & -> & _).
      apply denote_lits in H3 as [-> _].
      destruct Ho as [-> | ->]; [exists "https://" | exists "http://"]; auto.
    - exists "". auto. }
  apply denote_opt_lits in Hwww as (www & Hwww & -> & _).
  assert (exists dom, (dom = "twitter" \/ dom = "x") /\ s2 = dom +:+ s3)
    as (dom & Hdom' & ->).
  { destruct Hdom as [Hd1|Hd1]; apply denote_lits in Hd1 as [-> _];
      [exists "twitter" | exists "x"]; auto. }
  apply denote_lits in Hcom as [-> _].
  destruct Hu as (c & u & -> & Hall & _).
  apply status_id_shape in Hid as (es & d & Hes & Hd & -> & ->).
  exists sch, www, dom, (String c u), es, d, rest.
  split; [done|]. split; [exact Hd|]. repeat split; done.
Qed.

Lemma extract_tweet_id_digits url d :
  extract_tweet_id url = Some d -> is_digits d.
Proof.
  destruct url as [|s|]; try done. cbn [extract_tweet_id].
  destruct (search TWEET_URL_RE s) as [m|] eqn:Hs; [|done]. intros ->.
  apply search_sound in Hs as (pre & t & _ & Ht).
  apply tweet_url_shape in Ht as (? & ? & ? & ? & ? & d' & ? & [= <-] & Hd & _).
  done.
Qed.

Lemma extract_tweet_id_truthy url d :
  extract_tweet_id url = Some d -> truthy_str d = true.
Proof.
  intros H. apply extract_tweet_id_digits in H as [Hne _]. by destruct d.
Qed.

(** *** First matches *)

Lemma first_match_lits p s cap : first_match (lits p) (p +:+ s) cap s cap.
Proof.
  intros A k x Hk. induction p as [|c p IH]; cbn; [done|].
  by rewrite Ascii.eqb_refl.
Qed.

Lemma no_match_lits a p b s cap :
  Ascii.eqb b a = false -> no_match (lits (String a p)) (String b s) cap.
Proof. intros H A k. cbn. by rewrite H. Qed.

Lemma first_match_cat r1 r2 s cap s1 cap1 s2 cap2 :
  first_match r1 s cap s1 cap1 -> first_match r2 s1 cap1 s2 cap2 ->
  first_match (Cat r1 r2) s cap s2 cap2.
Proof. intros H1 H2 A k x Hk. cbn [rmatch]. apply H1. by apply H2. Qed.

Lemma no_match_cat r1 r2 s cap : no_match r1 s cap -> no_match (Cat r1 r2) s cap.
Proof. intros H A k. cbn [rmatch]. apply H. Qed.

Lemma first_match_opt r s cap s' cap' :
  first_match r s cap s' cap' -> first_match (Opt r) s cap s' cap'.
Proof. intros H A k x Hk. cbn [rmatch]. by rewrite (H A k x Hk). Qed.

Lemma first_match_opt_skip r s cap :
  no_match r s cap -> first_match (Opt r) s cap s cap.
Proof. intros H A k x Hk. cbn [rmatch]. by rewrite H. Qed.

Lemma first_match_alt_l r1 r2 s cap s' cap' :
  first_match r1 s cap s' cap' -> first_match (Alt r1 r2) s cap s' cap'.
Proof. intros H A k x Hk. cbn [rmatch]. by rewrite (H A k x Hk). Qed.

Lemma first_match_alt_r r1 r2 s cap s' cap' :
  no_match r1 s cap -> first_match r2 s cap s' cap' ->
  first_match (Alt r1 r2) s cap s' cap'.
Proof. intros H1 H2 A k x Hk. cbn [rmatch]. rewrite H1. by apply H2. Qed.

Lemma star_greedy_digits {A} (k : string -> option A) x rest :
  no_digit_ahead rest -> k rest = Some x ->
  forall d, all_chars is_digit d = true ->
            star_greedy Digit (d +:+ rest) k = Some x.
Proof.
  intros Hrest Hk. induction d as [|c d IH]; cbn [all_chars String.append].
  - intros _. destruct rest as [|c r]; cbn; [done|].
    cbn in Hrest. by rewrite Hrest.
  - intros [Hc Hd]%andb_prop. cbn. by rewrite Hc, (IH Hd).
Qed.

Lemma first_match_digits d rest cap :
  is_digits d -> no_digit_ahead rest ->
  first_match (Group (Plus true Digit)) (d +:+ rest) cap rest (Some d).
Proof.
  intros [Hne Hd] Hrest A k x Hk. cbn [rmatch]. unfold plus.
  destruct d as [|c d]; [done|]. cbn [String.append].
  cbn [all_chars] in Hd. apply andb_prop in Hd as [Hc Hd].
  cbn [atom_matches]. rewrite Hc.
  apply star_greedy_digits; [done| |done].
  change (String c (d +:+ rest)) with (String c d +:+ rest).
  by rewrite take_str_append.
Qed.

Lemma star_lazy_segment {A} (k : string -> option A) t :
  (forall c r, Ascii.eqb c "/" = false -> k (String c r) = None) ->
  forall u, all_chars segment_char u = true ->
            star_lazy Dot (u +:+ t) k = star_lazy Dot t k.
Proof.
  intros Hk. induction u as [|c u IH]; [done|].
  cbn [all_chars String.append]. unfold segment_char at 1.
  intros [[Hs Hn]%andb_prop Hu]%andb_prop.
  apply negb_true_iff in Hs, Hn.
  cbn [star_lazy]. rewrite (Hk _ _ Hs). cbn [atom_matches]. rewrite Hn.
  cbn [negb]. by apply IH.
Qed.

(** A segment followed by text at which [r] has its first match, [r]
    starting with [/]: the lazy [.+?] stops at the end of the
    segment. *)
Lemma first_match_lazy_segment r u t cap s' cap' :
  is_segment u ->
  (forall c s, Ascii.eqb c "/" = false -> no_match r (String c s) cap) ->
  first_match r t cap s' cap' ->
  first_match (Cat (Plus false Dot) r) (u +:+ t) cap s' cap'.
Proof.
  intros [Hne Hu] Hfail Hr A k x Hk. cbn [rmatch]. unfold plus.
  destruct u as [|c u]; [done|]. cbn [String.append].
  cbn [all_chars] in Hu. apply andb_prop in Hu as [Hc Hu].
  unfold segment_char in Hc. apply andb_prop in Hc as [_ Hn].
  cbn [atom_matches]. rewrite Hn.
  rewrite star_lazy_segment; [|by intros; apply Hfail|done].
  destruct t; cbn [star_lazy]; by rewrite (Hr A k x Hk).
Qed.

Lemma first_match_status_id es d rest cap :
  es = "es" \/ es = "" -> is_digits d -> no_digit_ahead rest ->
  first_match STATUS_ID_RE ("/status" +:+ es +:+ "/" +:+ d +:+ rest) cap
    rest (Some d).
Proof.
  intros Hes Hd Hrest. unfold STATUS_ID_RE.
  eapply first_match_cat; [apply first_match_lits|].
  eapply first_match_cat.
  - destruct Hes as [-> | ->].
    + apply first_match_opt, first_match_lits.
    + apply first_match_opt_skip. by apply no_match_lits.
  - eapply first_match_cat; [apply first_match_lits|].
    by apply first_match_digits.
Qed.

Lemma no_match_status_id c s cap :
  Ascii.eqb c "/" = false -> no_match STATUS_ID_RE (String c s) cap.
Proof. intros H. by apply no_match_cat, no_match_lits. Qed.

Lemma first_match_host_path www dom u es d rest :
  www = "www." \/ www = "" -> dom = "twitter" \/ dom = "x" ->
  is_segment u -> es = "es" \/ es = "" -> is_digits d -> no_digit_ahead rest ->
  first_match HOST_PATH_RE
    (www +:+ dom +:+ ".com/" +:+ u +:+ "/status" +:+ es +:+ "/" +:+ d +:+ rest)
    None rest (Some d).
Proof.
  intros Hwww Hdom Hu Hes Hd Hrest. unfold HOST_PATH_RE.
  eapply first_match_cat.
  { destruct Hwww as [-> | ->].
    - apply first_match_opt, first_match_lits.
    - apply first_match_opt_skip.
      destruct Hdom as [-> | ->]; by apply no_match_lits. }
  eapply first_match_cat.
  { destruct Hdom as [-> | ->].
    - apply first_match_alt_l, first_match_lits.
    - apply first_match_alt_r; [by apply no_match_lits|].
      apply first_match_lits. }
  eapply first_match_cat; [apply first_match_lits|].
  apply first_match_lazy_segment; [done| |].
  - intros c s Hc. by apply no_match_status_id.
  - by apply first_match_status_id.
Qed.

Lemma ascii_lower_inv c c' :
  ascii_lower c' = c ->
  c' = c \/
  (c' = ascii_of_N (code c - 32) /\
   in_range 97 122 c || in_range 224 254 c = true).
Proof.
  intros <-. destruct c' as [[] [] [] [] [] [] [] []]; vm_compute; auto.
Qed.

Lemma lower_cons_inv s c r :
  lower s = String c r ->
  exists c' s', s = String c' s' /\ ascii_lower c' = c /\ lower s' = r.
Proof. destruct s as [|c' s']; [done|]. cbn. intros [= <- <-]. eauto. Qed.

Lemma lower_nil_inv s : lower s = "" -> s = "".
Proof. by destruct s. Qed.

(** A match of the whole pattern at the start of the text. *)
Lemma match_at_tweet_url sch www dom u es d rest :
  sch = "http://" \/ sch = "https://" \/ sch = "" ->
  www = "www." \/ www = "" -> dom = "twitter" \/ dom = "x" ->
  is_segment u -> es = "es" \/ es = "" -> is_digits d -> no_digit_ahead rest ->
  match_at TWEET_URL_RE
    (sch +:+ www +:+ dom +:+ ".com/" +:+ u +:+ "/status" +:+ es +:+ "/"
     +:+ d +:+ rest) = Some (Some d).
Proof.
  intros Hsch Hwww Hdom Hu Hes Hd Hrest. unfold match_at.
  assert (Hfm : first_match TWEET_URL_RE
            (sch +:+ www +:+ dom +:+ ".com/" +:+ u +:+ "/status" +:+ es
             +:+ "/" +:+ d +:+ rest) None rest (Some d));
    [|by apply Hfm].
  unfold TWEET_URL_RE. eapply first_match_cat;
    [|by apply first_match_host_path].
  destruct Hsch as [-> | [-> | ->]].
  - apply first_match_opt.
    eapply first_match_cat; [apply (first_match_lits "http")|].
    eapply first_match_cat; [|apply (first_match_lits "://")].
    apply first_match_opt_skip. by apply no_match_lits.
  - apply first_match_opt.
    eapply first_match_cat; [apply (first_match_lits "http")|].
    eapply first_match_cat; [|apply (first_match_lits "://")].
    apply first_match_opt. apply (first_match_lits "s").
  - apply first_match_opt_skip. apply no_match_cat.
    destruct Hwww as [-> | ->]; [by apply no_match_lits|].
    destruct Hdom as [-> | ->]; by apply no_match_lits.
Qed.

Ltac lower_cases H :=
  repeat match type of H with
         | lower _ = String _ _ =>
             let c := fresh "c" in
             let Hc := fresh "Hc" in
             apply lower_cons_inv in H as (c & ? & -> & Hc & H);
             apply ascii_lower_inv in Hc as [-> | [-> Hc]];
             [|first [discriminate Hc | clear Hc]]
         | lower _ = "" => apply lower_nil_inv in H as ->
         end.

(** The search finds the identifier behind a scheme in any letter
    case. *)
Lemma search_tweet_url sch www dom u es d rest :
  is_scheme_prefix sch ->
  www = "www." \/ www = "" -> dom = "twitter" \/ dom = "x" ->
  is_segment u -> es = "es" \/ es = "" -> is_digits d -> no_digit_ahead rest ->
  search TWEET_URL_RE
    (sch +:+ www +:+ dom +:+ ".com/" +:+ u +:+ "/status" +:+ es +:+ "/"
     +:+ d +:+ rest) = Some (Some d).
Proof.
  intros Hsch Hwww Hdom Hu Hes Hd Hrest.
  pose proof (match_at_tweet_url "" www dom u es d rest) as H0.
  pose proof (match_at_tweet_url "http://" www dom u es d rest) as H1.
  pose proof (match_at_tweet_url "https://" www dom u es d rest) as H2.
  specialize (H0 ltac:(auto) Hwww Hdom Hu Hes Hd Hrest).
  specialize (H1 ltac:(auto) Hwww Hdom Hu Hes Hd Hrest).
  specialize (H2 ltac:(auto) Hwww Hdom Hu Hes Hd Hrest).
  apply search_here in H0, H1, H2.
  revert H0 H1 H2.
  generalize (www +:+ dom +:+ ".com/" +:+ u +:+ "/status" +:+ es +:+ "/"
              +:+ d +:+ rest).
  intros core H0 H1 H2.
  destruct Hsch as [-> | [H | H]]; [exact H0| |].
  - lower_cases H; cbn [String.append ascii_of_N code N_of_ascii];
      first [ exact H1
            | repeat (rewrite search_skip by reflexivity); exact H0 ].
  - lower_cases H; cbn [String.append];
      first [ exact H2
            | repeat (rewrite search_skip by reflexivity); exact H0 ].
Qed.

(** The search returns the match at the leftmost position that has
    one: at or before any position with a match. *)
Lemma search_leftmost r : forall pre t m,
  match_at r t = Some m ->
  exists pre1 t1 m1,
    pre +:+ t = pre1 +:+ t1 /\ String.length pre1 <= String.length pre /\
    match_at r t1 = Some m1 /\ search r (pre +:+ t) = Some m1.
Proof.
  induction pre as [|c pre IH]; intros t m H.
  - exists "", t, m. cbn. repeat split; [lia|done|by apply search_here].
  - cbn [String.append].
    destruct (match_at r (String c (pre +:+ t))) as [m1|] eqn:Hm.
    + exists "", (String c (pre +:+ t)), m1. cbn [String.append String.length].
      repeat split; [lia|done|by apply search_here].
    + destruct (IH t m H) as (pre1 & t1 & m1 & Heq & Hlen & Hm1 & Hs).
      exists (String c pre1), t1, m1. cbn [String.append String.length].
      rewrite Heq in Hm, Hs |- *. rewrite (search_skip _ _ _ Hm), Hs.
      repeat split; [lia|done].
Qed.

Lemma match_at_not_start c s :
  not_start_char c = true -> match_at TWEET_URL_RE (String c s) = None.
Proof.
  unfold not_start_char.
  intros [[[Hh Hw]%andb_prop Ht]%andb_prop Hx]%andb_prop.
  apply negb_true_iff in Hh, Hw, Ht, Hx.
  unfold match_at, TWEET_URL_RE, HOST_PATH_RE. cbn. by rewrite Hh, Hw, Ht, Hx.
Qed.

Lemma search_not_start : forall pre t,
  all_chars not_start_char pre = true ->
  search TWEET_URL_RE (pre +:+ t) = search TWEET_URL_RE t.
Proof.
  induction pre as [|c pre IH]; intros t; [done|].
  cbn [all_chars String.append]. intros [Hc Hpre]%andb_prop.
  rewrite search_skip by by apply match_at_not_start. by apply IH.
Qed.

(** The search finds the identifier behind a scheme and a [www.] in
    any letter case: a prefix that is not in lower case is skipped. *)
Lemma search_any_case sch www dom u es d rest :
  is_scheme_prefix sch -> is_www_prefix www -> dom = "twitter" \/ dom = "x" ->
  is_segment u -> es = "es" \/ es = "" -> is_digits d -> no_digit_ahead rest ->
  search TWEET_URL_RE
    (sch +:+ www +:+ dom +:+ ".com/" +:+ u +:+ "/status" +:+ es +:+ "/"
     +:+ d +:+ rest) = Some (Some d).
Proof.
  intros Hsch [-> | Hw] Hdom Hu Hes Hd Hrest.
  { by apply search_tweet_url; auto. }
  pose proof (search_tweet_url "" "" dom u es d rest) as H0.
  pose proof (search_tweet_url "" "www." dom u es d rest) as H0w.
  pose proof (search_tweet_url "http://" "www." dom u es d rest) as H1.
  pose proof (search_tweet_url "https://" "www." dom u es d rest) as H2.
  specialize (H0 ltac:(by left) ltac:(by right) Hdom Hu Hes Hd Hrest).
  specialize (H0w ltac:(by left) ltac:(by left) Hdom Hu Hes Hd Hrest).
  specialize (H1 ltac:(by right; left) ltac:(by left) Hdom Hu Hes Hd Hrest).
  specialize (H2 ltac:(by right; right) ltac:(by left) Hdom Hu Hes Hd Hrest).
  revert H0 H0w H1 H2.
  generalize (dom +:+ ".com/" +:+ u +:+ "/status" +:+ es +:+ "/" +:+ d
              +:+ rest).
  intros core H0 H0w H1 H2. cbn [String.append] in H0, H0w, H1, H2.
  assert (Hwv : search TWEET_URL_RE (www +:+ core) = Some (Some d)).
  { lower_cases Hw; cbn [String.append ascii_of_N code N_of_ascii];
      first [ exact H0w
            | repeat (rewrite search_skip by reflexivity); exact H0 ]. }
  destruct Hsch as [-> | [H | H]]; [exact Hwv| |].
  - lower_cases H; cbn [String.append ascii_of_N code N_of_ascii];
      first [ repeat (rewrite search_skip by reflexivity); exact Hwv
            | lower_cases Hw; cbn [String.append ascii_of_N code N_of_ascii];
              first [ exact H1
                    | repeat (rewrite search_skip by reflexivity); exact H0 ] ].
  - lower_cases H; cbn [String.append ascii_of_N code N_of_ascii];
      first [ repeat (rewrite search_skip by reflexivity); exact Hwv
            | lower_cases Hw; cbn [String.append ascii_of_N code N_of_ascii];
              first [ exact H2
                    | repeat (rewrite search_skip by reflexivity); exact H0 ] ].
Qed.

(** C5. The extractor returns the digits behind [/status/] or
    [/statuses/] for the post URLs of both domains, with or without
    [www.], with or without a scheme, the scheme and the [www.] in any
    letter case, whatever ASCII text follows the digits (a query
    string or nothing). The domain name is matched in lower case only: a text
    gives an identifier only when [twitter.com/] or [x.com/], written
    so, stands in it before the [/status/] or [/statuses/] and the
    digits. An object that is no string, and a string without a match,
    give [None]; nothing is raised. The identifier of an input of ASCII
    text is a run of the digits [0] to [9]. *)
Theorem C5_extractor_shapes :
  (forall sch www dom u es d rest,
     is_scheme_prefix sch -> is_www_prefix www ->
     dom = "twitter" \/ dom = "x" ->
     is_segment u -> es = "es" \/ es = "" -> is_digits d ->
     ascii_text rest -> no_digit_ahead rest ->
     extract_tweet_id
       (PyStr (sch +:+ www +:+ dom +:+ ".com/" +:+ u +:+ "/status" +:+ es
               +:+ "/" +:+ d +:+ rest)) = Some d) /\
  (forall s d,
     extract_tweet_id (PyStr s) = Some d ->
     exists pre dom u es rest,
       (dom = "twitter" \/ dom = "x") /\ (es = "es" \/ es = "") /\ u <> "" /\
       s = pre +:+ dom +:+ ".com/" +:+ u +:+ "/status" +:+ es +:+ "/" +:+ d
           +:+ rest) /\
  extract_tweet_id PyNone = None /\
  (forall b, extract_tweet_id (PyOther b) = None) /\
  (forall s,
     (forall pre t, s = pre +:+ t -> match_at TWEET_URL_RE t = None) ->
     extract_tweet_id (PyStr s) = None) /\
  (forall url d,
     ascii_input url -> extract_tweet_id url = Some d -> is_digits d).
Proof.
  split; [|split; [|split; [done|split; [done|split]]]].
  - intros sch www dom u es d rest Hsch Hwww Hdom Hu Hes Hd _ Hrest.
    cbn [extract_tweet_id]. by rewrite search_any_case.
  - intros s d. cbn [extract_tweet_id].
    destruct (search TWEET_URL_RE s) as [m|] eqn:Hs; [|done]. intros ->.
    apply search_sound in Hs as (pre & t & -> & Ht).
    apply tweet_url_shape in Ht
      as (sch & www & dom & u & es & d' & rest & [= <-] & _ & -> & _ & _ & Hdom
          & Hes & Hu & _).
    exists (pre +:+ sch +:+ www), dom, u, es, rest.
    split; [done|]. split; [done|]. split; [done|].
    by rewrite !append_assoc.
  - intros s Hnone. cbn [extract_tweet_id].
    destruct (search TWEET_URL_RE s) as [m|] eqn:Hs; [|done].
    apply search_sound in Hs as (pre & t & Heq & Ht).
    by rewrite (Hnone _ _ Heq) in Ht.
  - intros url d _. apply extract_tweet_id_digits.
Qed.

(** C10. The search is not anchored: a text that holds a match of the
    pattern anywhere yields the digits of its leftmost match, also
    behind a host prefix or other text in which no match can start;
    and there is a URL with an identifier that the normaliser
    rejects. *)
Theorem C10_unanchored_search :
  (forall pre t m,
     match_at TWEET_URL_RE t = Some m ->
     exists pre1 t1 d,
       pre +:+ t = pre1 +:+ t1 /\ String.length pre1 <= String.length pre /\
       match_at TWEET_URL_RE t1 = Some (Some d) /\ is_digits d /\
       extract_tweet_id (PyStr (pre +:+ t)) = Some d) /\
  (forall pre sch www dom u es d rest,
     all_chars not_start_char pre = true ->
     is_scheme_prefix sch ->
     www = "www." \/ www = "" -> dom = "twitter" \/ dom = "x" ->
     is_segment u -> es = "es" \/ es = "" -> is_digits d ->
     no_digit_ahead rest ->
     extract_tweet_id
       (PyStr (pre +:+ sch +:+ www +:+ dom +:+ ".com/" +:+ u +:+ "/status"
               +:+ es +:+ "/" +:+ d +:+ rest)) = Some d) /\
  (extract_tweet_id (PyStr "https://sub.twitter.com/acct/status/123") =
     Some "123" /\
   normalize_input_url (PyStr "https://sub.twitter.com/acct/status/123") =
     Ok None).
Proof.
  split; [|split; [|done]].
  - intros pre t m Hm.
    destruct (search_leftmost TWEET_URL_RE pre t m Hm)
      as (pre1 & t1 & m1 & Heq & Hlen & Hm1 & Hs).
    destruct (tweet_url_shape _ _ Hm1)
      as (? & ? & ? & ? & ? & d & ? & -> & Hd & _).
    exists pre1, t1, d. cbn [extract_tweet_id]. by rewrite Hs.
  - intros pre sch www dom u es d rest Hpre Hsch Hwww Hdom Hu Hes Hd Hrest.
    cbn [extract_tweet_id]. rewrite search_not_start by done.
    by rewrite search_tweet_url.
Qed.

(** ** The batch loop *)

Lemma embed_requests_app l k :
  embed_requests (l ++ k) = embed_requests l + embed_requests k.
Proof. unfold embed_requests. by rewrite List.filter_app, length_app. Qed.

Lemma fetch_loop_world net os sc fetch_urls :
  forall st w r w',
    fetch_loop net os sc fetch_urls st w = (r, w') ->
    calls w' = calls w /\ embed_requests (requests w') = embed_requests (requests w).
Proof.
  induction fetch_urls as [|u rest IH]; intros st w r w' Hrun.
  - by injection Hrun as <- <-.
  - cbn [fetch_loop] in Hrun. unfold send in Hrun.
    assert (Hw1 : forall st1 r1 w1,
              fetch_loop net os sc rest st1
                (mkWorld (requests w ++ [BotGet u]) (calls w)) = (r1, w1) ->
              calls w1 = calls w /\
              embed_requests (requests w1) = embed_requests (requests w)).
    { intros st1 r1 w1 H1. destruct (IH _ _ _ _ H1) as [-> ->].
      cbn [requests calls]. rewrite embed_requests_app. cbn. split; [done | lia]. }
    assert (Hret : forall o w1,
              (inl o, mkWorld (requests w ++ [BotGet u]) (calls w)) =
                (r, w1) ->
              calls w1 = calls w /\
              embed_requests (requests w1) = embed_requests (requests w)).
    { intros o w1 [= <- <-]. cbn [requests calls].
      rewrite embed_requests_app. cbn. split; [done | lia]. }
    destruct (net (requests w) (BotGet u)) as [exc|s j]; [by eapply Hw1|].
    destruct (s =? 200)%Z; [by eapply Hret|].
    destruct ((s =? 401)%Z || (s =? 403)%Z); [by eapply Hret|].
    destruct (s =? 410)%Z; [by eapply Hret|].
    destruct (s =? 429)%Z; [by eapply Hret|].
    destruct (s =? 451)%Z; [by eapply Hret|].
    destruct (s =? 404)%Z; by eapply Hw1.
Qed.

Lemma phase2_world net tweet_id n os sc canonical_url w r w' :
  phase2 net tweet_id n os sc canonical_url w = (r, w') ->
  calls w' = calls w /\ embed_requests (requests w') = embed_requests (requests w).
Proof.
  unfold phase2. destruct (build_fetch_urls _ _ _) as [fetch_urls|];
    [|by intros [= <- <-]].
  destruct (fetch_loop _ _ _ _ _ _) as [r1 w1] eqn:Hloop.
  apply fetch_loop_world in Hloop. by destruct r1; intros [= <- <-].
Qed.

(** The classifier leaves [calls] alone and makes at most one embed
    request. *)
Lemma check_tweet_world net tweet_id original_url w r w' :
  check_tweet net tweet_id original_url w = (r, w') ->
  calls w' = calls w /\
  embed_requests (requests w') <= embed_requests (requests w) + 1.
Proof.
  destruct (normalize_input_url original_url) as [[n|]|e] eqn:Hn.
  - rewrite (check_tweet_probe _ _ _ _ _ Hn). cbv zeta.
    set (w1 := mkWorld (requests w ++ [OembedGet n]) (calls w)).
    assert (Hw1 : calls w1 = calls w /\
                  embed_requests (requests w1) = embed_requests (requests w) + 1).
    { unfold w1. cbn [requests calls]. by rewrite embed_requests_app. }
    destruct Hw1 as [Hc He].
    destruct (net (requests w) (OembedGet n)) as [exc|sc json].
    { intros [= <- <-]. split; [done | lia]. }
    destruct (sc =? 200)%Z.
    + destruct (oembed_200 json) as [[[a d] canonical_url]|].
      * intros H. apply phase2_world in H as [-> ->]. split; [done | lia].
      * intros [= <- <-]. split; [done | lia].
    + intros [= <- <-]. split; [done | lia].
  - rewrite (check_tweet_invalid _ _ _ _ Hn). intros [= <- <-]. split; [done | lia].
  - unfold check_tweet. rewrite Hn. intros [= <- <-]. split; [done | lia].
Qed.

Lemma run_checks_row_eq net checked_at url st w :
  run_checks_row net checked_at url st w = main_row net checked_at url st w.
Proof. done. Qed.

Lemma run_checks_loop_eq net checked_at rows :
  forall st w,
    run_checks_loop net checked_at rows st w = main_loop net checked_at rows st w.
Proof.
  induction rows as [|url rest IH]; intros st w; [done|].
  cbn [run_checks_loop main_loop]. rewrite run_checks_row_eq.
  destruct (main_row _ _ _ _ _) as [[st1|e] w1]; [apply IH | done].
Qed.




Lemma main_row_provenance net checked_at all url cache results w cache' results'
    w' :
  url ∈ all ->
  (forall tweet_id o, cache !! tweet_id = Some o -> classified net all tweet_id o) ->
  main_row net checked_at url (cache, results) w = (Ok (cache', results'), w') ->
  (forall tweet_id o,
     cache' !! tweet_id = Some o -> classified net all tweet_id o) /\
  exists rec,
    results' = results ++ [rec] /\ row_record net checked_at all url rec.
Proof.
  intros Hurl Hinv. unfold main_row, row_record.
  destruct (extract_tweet_id url) as [tweet_id|] eqn:Hid.
  2: { intros [= <- <- <-]. split; [done|]. by eexists. }
  rewrite (extract_tweet_id_truthy _ _ Hid). cbn [negb]. unfold fill_cache.
  destruct (cache !! tweet_id) as [o|] eqn:Hc.
  - rewrite Hc. intros [= <- <- <-]. split; [done|].
    eexists. split; [done|]. exists o. split; [by apply Hinv | done].
  - destruct (check_tweet _ _ _ _) as [[o|e] w1] eqn:Hcheck; [|done].
    rewrite lookup_insert_eq. intros [= <- <- <-].
    assert (Ho : classified net all tweet_id o).
    { by exists url, (mkWorld (requests w) (calls w ++ [tweet_id])), w1. }
    split.
    + intros id o'. destruct (decide (id = tweet_id)) as [->|Hne].
      * rewrite lookup_insert_eq. by intros [= <-].
      * rewrite lookup_insert_ne by done. apply Hinv.
    + eexists. split; [done|]. by exists o.
Qed.



(** ** Strings and their characters *)

Lemma all_chars_impl (p q : ascii -> bool) s :
  (forall c, p c = true -> q c = true) ->
  all_chars p s = true -> all_chars q s = true.
Proof.
  intros Hpq. induction s as [|c s IH]; cbn; [done|].
  intros [Hc Hs]%andb_prop. by rewrite (Hpq _ Hc), IH.
Qed.

Lemma contains_all c s :
  contains c s = negb (all_chars (fun d => negb (Ascii.eqb d c)) s).
Proof.
  induction s as [|d s IH]; cbn; [done|]. rewrite IH.
  by destruct (Ascii.eqb d c), (all_chars _ s).
Qed.

Lemma contains_false c s :
  all_chars (fun d => negb (Ascii.eqb d c)) s = true -> contains c s = false.
Proof. intros H. by rewrite contains_all, H. Qed.

Lemma contains_append c a b :
  contains c (a +:+ b) = contains c a || contains c b.
Proof.
  induction a as [|d a IH]; cbn; [done|]. rewrite IH. by destruct (Ascii.eqb d c).
Qed.

Lemma partition_None c s : contains c s = false -> partition c s = None.
Proof.
  induction s as [|d s IH]; cbn; [done|].
  destruct (Ascii.eqb d c); [done|]. cbn. intros H. by rewrite IH.
Qed.

Lemma partition_Some c s a b :
  partition c s = Some (a, b) ->
  s = a +:+ String c b /\ contains c a = false.
Proof.
  revert a b. induction s as [|d s IH]; intros a b; cbn; [done|].
  destruct (Ascii.eqb_spec d c) as [->|Hne].
  - by intros [= <- <-].
  - destruct (partition c s) as [[a' b']|]; [|done]. intros [= <- <-].
    destruct (IH _ _ eq_refl) as [-> Ha]. cbn.
    split; [done|]. rewrite Ha. by apply Ascii.eqb_neq in Hne as ->.
Qed.

Lemma partition_append c a b :
  contains c a = false -> partition c (a +:+ String c b) = Some (a, b).
Proof.
  induction a as [|d a IH]; cbn.
  - by rewrite Ascii.eqb_refl.
  - destruct (Ascii.eqb d c); [done|]. cbn. intros H. by rewrite IH.
Qed.

Lemma split_once_all q c s :
  all_chars q s = true ->
  all_chars q (split_once c s).1 = true /\ all_chars q (split_once c s).2 = true.
Proof.
  unfold split_once. destruct (partition c s) as [[a b]|] eqn:Hp; [|done].
  apply partition_Some in Hp as [-> _]. rewrite all_chars_append. cbn.
  intros [Ha [_ Hb]%andb_prop]%andb_prop. done.
Qed.

Lemma split_once_fst c s :
  exists t, s = (split_once c s).1 +:+ t /\ contains c (split_once c s).1 = false.
Proof.
  unfold split_once. destruct (partition c s) as [[a b]|] eqn:Hp.
  - apply partition_Some in Hp as [-> Ha]. by exists (String c b).
  - exists "". rewrite append_nil_r. split; [done|].
    destruct (contains c s) eqn:Hc; [|done]. exfalso.
    clear -Hp Hc. induction s as [|d s IH]; cbn in *; [done|].
    destruct (Ascii.eqb d c); [done|]. destruct (partition c s) as [[? ?]|]; [done|].
    by apply IH.
Qed.

Lemma split_once_id c s : contains c s = false -> split_once c s = (s, "").
Proof. intros H. unfold split_once. by rewrite partition_None. Qed.

Lemma break_at_spec p s :
  s = (break_at p s).1 +:+ (break_at p s).2 /\
  all_chars (fun c => negb (p c)) (break_at p s).1 = true /\
  head_is p (break_at p s).2 = true.
Proof.
  induction s as [|c s IH]; cbn; [done|].
  destruct (p c) eqn:Hc; cbn; [by rewrite Hc|].
  destruct (break_at p s) as [a b]. cbn in *. rewrite Hc.
  destruct IH as (-> & Ha & Hb). done.
Qed.

Lemma break_at_append p a b :
  all_chars (fun c => negb (p c)) a = true -> head_is p b = true ->
  break_at p (a +:+ b) = (a, b).
Proof.
  intros Ha Hb. induction a as [|c a IH]; cbn in *.
  - destruct b as [|c b]; cbn in *; [done|]. by rewrite Hb.
  - apply andb_prop in Ha as [Hc Ha]. apply negb_true_iff in Hc.
    by rewrite Hc, (IH Ha).
Qed.

Lemma remove_chars_id p s :
  all_chars (fun c => negb (p c)) s = true -> remove_chars p s = s.
Proof.
  induction s as [|c s IH]; cbn; [done|].
  intros [Hc Hs]%andb_prop. apply negb_true_iff in Hc. by rewrite Hc, IH.
Qed.

Lemma remove_chars_clean p s :
  all_chars (fun c => negb (p c)) (remove_chars p s) = true.
Proof.
  induction s as [|c s IH]; cbn; [done|].
  destruct (p c) eqn:Hc; [done|]. cbn. by rewrite Hc.
Qed.

Lemma remove_chars_all q p s :
  all_chars q s = true -> all_chars q (remove_chars p s) = true.
Proof.
  induction s as [|c s IH]; cbn; [done|].
  intros [Hc Hs]%andb_prop. destruct (p c); cbn; [auto|]. by rewrite Hc, IH.
Qed.


(** [rstrip] cuts off a run of stripped characters. *)
Lemma rstrip_split p s :
  exists ws, s = rstrip_with p s +:+ ws /\ all_chars p ws = true.
Proof.
  induction s as [|c s (ws & Hs & Hws)]; cbn; [by exists ""|].
  destruct (rstrip_with p s) as [|d r] eqn:Hr.
  - destruct (p c) eqn:Hc.
    + exists (String c s). cbn in Hs. subst ws. cbn. by rewrite Hc.
    + exists ws. cbn. by rewrite Hs at 1.
  - exists ws. cbn. by rewrite Hs at 1.
Qed.

Lemma rstrip_all q p s :
  all_chars q s = true -> all_chars q (rstrip_with p s) = true.
Proof.
  destruct (rstrip_split p s) as (ws & Hs & _). rewrite Hs at 1.
  rewrite all_chars_append. by intros [? _]%andb_prop.
Qed.

Lemma rstrip_append_keep p a b :
  rstrip_with p b <> "" -> rstrip_with p (a +:+ b) = a +:+ rstrip_with p b.
Proof.
  intros Hb. induction a as [|c a IH]; cbn; [done|]. rewrite IH.
  destruct (a +:+ rstrip_with p b) eqn:E; [|done].
  destruct a; cbn in E; [done | discriminate E].
Qed.

Lemma rstrip_head p c s :
  p c = false -> exists r, rstrip_with p (String c s) = String c r.
Proof.
  intros Hc. cbn. destruct (rstrip_with p s); [|by eexists].
  rewrite Hc. by eexists.
Qed.

Lemma rstrip_idem p s : rstrip_with p (rstrip_with p s) = rstrip_with p s.
Proof.
  induction s as [|c s IH]; cbn; [done|].
  destruct (rstrip_with p s) as [|d r] eqn:Hr.
  - destruct (p c) eqn:Hc; cbn; [done|]. by rewrite Hc.
  - cbn [rstrip_with]. cbn [rstrip_with] in IH. rewrite IH. done.
Qed.

Lemma rpartition_Some c s : forall a b,
  rpartition c s = Some (a, b) ->
  s = a +:+ String c b /\ contains c b = false.
Proof.
  induction s as [|d s IH]; intros a b; cbn; [done|].
  destruct (rpartition c s) as [[a' b']|] eqn:Hr.
  - intros [= <- <-]. destruct (IH _ _ eq_refl) as [-> Hb]. done.
  - destruct (Ascii.eqb_spec d c) as [->|_]; [|done]. intros [= <- <-].
    split; [done|]. clear IH. induction s as [|e s IH]; cbn in *; [done|].
    destruct (rpartition c s) as [[? ?]|]; [done|].
    destruct (Ascii.eqb e c); [done|]. by apply IH.
Qed.

Lemma rpartition_None c s : contains c s = false -> rpartition c s = None.
Proof.
  induction s as [|d s IH]; cbn; [done|].
  intros [Hd Hs]%orb_false_elim. by rewrite (IH Hs), Hd.
Qed.

Lemma rpartition_append c a b :
  contains c b = false -> rpartition c (a +:+ String c b) = Some (a, b).
Proof.
  intros Hb. induction a as [|d a IH]; cbn.
  - by rewrite (rpartition_None _ _ Hb), Ascii.eqb_refl.
  - by rewrite IH.
Qed.

(** ** urllib.parse on [http] and [https] URLs *)

Lemma startswith_lower_inv q : forall t,
  startswith q (lower t) = true -> exists p r, t = p +:+ r /\ lower p = q.
Proof.
  induction q as [|a q IH]; intros t; cbn.
  - intros _. by exists "", t.
  - destruct t as [|c t]; cbn; [done|].
    intros [Ha Hq]%andb_prop. apply Ascii.eqb_eq in Ha as ->.
    destruct (IH _ Hq) as (p & r & -> & <-). by exists (String c p), r.
Qed.

Lemma has_http_scheme_inv t :
  has_http_scheme t = true ->
  exists sch p r,
    (sch = "http" \/ sch = "https") /\ t = p +:+ r /\ lower p = sch +:+ "://".
Proof.
  unfold has_http_scheme. intros [H|H]%orb_prop;
    apply startswith_lower_inv in H as (p & r & -> & Hp).
  - exists "http", p, r. auto.
  - exists "https", p, r. auto.
Qed.

Lemma urlsplit_http p r sch :
  sch = "http" \/ sch = "https" -> lower p = sch +:+ "://" ->
  urlsplit (p +:+ r) =
    split_hier sch ("//" +:+ remove_chars unsafe_url_byte r).
Proof.
  intros [-> | ->] H; cbn [String.append] in H; lower_cases H; reflexivity.
Qed.

Lemma split_hier_cases sch r :
  split_hier sch ("//" +:+ r) = Ok (hier_parts sch r) \/
  split_hier sch ("//" +:+ r) = Raise ValueError.
Proof.
  unfold split_hier, split_authority, hier_parts, splitnetloc2.
  cbn [String.append take_str drop_str String.eqb Ascii.eqb Bool.eqb].
  destruct (break_at netloc_delim r) as [n rest]. cbn [res_bind].
  destruct (_ || _); [by right|]. destruct (_ && _ && _); [by right|].
  cbn [res_bind]. left.
  destruct (split_once "#" rest) as [u f]. by destruct (split_once "?" u).
Qed.

Lemma split_hier_ok sch r :
  all_chars not_bracket (break_at netloc_delim r).1 = true ->
  split_hier sch ("//" +:+ r) = Ok (hier_parts sch r).
Proof.
  intros Hn.
  assert (Hl : contains "[" (break_at netloc_delim r).1 = false).
  { apply contains_false. revert Hn. apply all_chars_impl.
    unfold not_bracket. by intros c [? ?]%andb_prop. }
  assert (Hr : contains "]" (break_at netloc_delim r).1 = false).
  { apply contains_false. revert Hn. apply all_chars_impl.
    unfold not_bracket. by intros c [? ?]%andb_prop. }
  unfold split_hier, split_authority, hier_parts, splitnetloc2.
  cbn [String.append take_str drop_str String.eqb Ascii.eqb Bool.eqb].
  destruct (break_at netloc_delim r) as [n rest]. cbn [fst] in Hl, Hr.
  rewrite Hl, Hr. cbn [andb orb negb res_bind].
  destruct (split_once "#" rest) as [u f]. by destruct (split_once "?" u).
Qed.

Lemma hier_parts_scheme sch r : sr_scheme (hier_parts sch r) = sch.
Proof.
  unfold hier_parts. destruct (break_at netloc_delim r) as [n rest].
  destruct (split_once "#" rest) as [u f]. by destruct (split_once "?" u).
Qed.

Lemma urlparse_http_cases t :
  has_http_scheme t = true ->
  exists sch p r,
    (sch = "http" \/ sch = "https") /\ t = p +:+ r /\ lower p = sch +:+ "://" /\
    (urlparse t = Ok (parse_parts sch (remove_chars unsafe_url_byte r)) \/
     urlparse t = Raise ValueError) /\
    (all_chars not_bracket r = true ->
     urlparse t = Ok (parse_parts sch (remove_chars unsafe_url_byte r))).
Proof.
  intros H. apply has_http_scheme_inv in H as (sch & p & r & Hsch & -> & Hp).
  exists sch, p, r. split; [done|]. split; [done|]. split; [done|].
  unfold urlparse. rewrite (urlsplit_http _ _ _ Hsch Hp). split.
  - destruct (split_hier_cases sch (remove_chars unsafe_url_byte r)) as [-> | ->];
      [left | by right].
    cbn [res_bind]. unfold parse_parts. rewrite hier_parts_scheme.
      destruct (str_in sch uses_params && contains ";" _);
        [by destruct (splitparams _) | done].
  - intros Hr. rewrite split_hier_ok.
    + cbn [res_bind]. unfold parse_parts. rewrite hier_parts_scheme.
      destruct (str_in sch uses_params && contains ";" _);
        [by destruct (splitparams _) | done].
    + pose proof (break_at_spec netloc_delim (remove_chars unsafe_url_byte r))
        as (Heq & _ & _).
      apply (remove_chars_all _ unsafe_url_byte) in Hr.
      rewrite Heq, all_chars_append in Hr. by apply andb_prop in Hr as [? _].
Qed.

Lemma hier_parts_eq sch r :
  hier_parts sch r =
    mkSplit sch (break_at netloc_delim r).1
      (split_once "?" (split_once "#" (break_at netloc_delim r).2).1).1
      (split_once "?" (split_once "#" (break_at netloc_delim r).2).1).2
      (split_once "#" (break_at netloc_delim r).2).2.
Proof.
  unfold hier_parts. destruct (break_at netloc_delim r) as [n rest].
  cbn [fst snd]. destruct (split_once "#" rest) as [u f]. cbn [fst snd].
  by destruct (split_once "?" u).
Qed.

Lemma partition_None_inv c s : partition c s = None -> contains c s = false.
Proof.
  induction s as [|d s IH]; cbn; [done|].
  destruct (Ascii.eqb d c); [done|].
  destruct (partition c s) as [[? ?]|]; [done|]. cbn. auto.
Qed.

Lemma rpartition_None_inv c s : rpartition c s = None -> contains c s = false.
Proof.
  induction s as [|d s IH]; cbn; [done|].
  destruct (rpartition c s) as [[? ?]|]; [done|].
  destruct (Ascii.eqb d c); [done|]. cbn. auto.
Qed.

Lemma params_free_append dir a :
  contains "/" a = false -> contains ";" a = false ->
  params_free (dir +:+ String "/" a) = true.
Proof.
  intros H1 H2. unfold params_free. by rewrite rpartition_append, H2.
Qed.

Lemma params_free_no_semi p : contains ";" p = false -> params_free p = true.
Proof.
  intros H. unfold params_free.
  destruct (rpartition "/" p) as [[dir last]|] eqn:Hr; [|by rewrite H].
  apply rpartition_Some in Hr as [-> _]. rewrite contains_append in H.
  cbn in H. apply orb_false_elim in H as [_ H]. by rewrite H.
Qed.

(** The path that [urlparse] keeps once the parameters are cut off. *)
Lemma splitparams_path p0 :
  head_is is_slash p0 = true -> all_chars path_char p0 = true ->
  is_path (if contains ";" p0 then (splitparams p0).1 else p0).
Proof.
  intros Hhead Hall. destruct (contains ";" p0) eqn:Hsemi.
  - unfold splitparams.
    destruct (rpartition "/" p0) as [[dir last]|] eqn:Hr.
    + pose proof Hr as Hr'. apply rpartition_Some in Hr' as [-> Hlast].
      destruct (partition ";" last) as [[a b]|] eqn:Hp; cbn [fst].
      * apply partition_Some in Hp as [-> Ha].
        rewrite contains_append in Hlast. apply orb_false_elim in Hlast as [Hla _].
        change (dir +:+ "/" +:+ a) with (dir +:+ String "/" a).
        split; [|split; [|by apply params_free_append]].
        -- destruct dir; [done | exact Hhead].
        -- rewrite all_chars_append in Hall |- *. cbn [all_chars] in Hall |- *.
           rewrite all_chars_append in Hall.
           apply andb_prop in Hall as [Hd [Hs [Ha' _]%andb_prop]%andb_prop].
           by rewrite Hd, Hs, Ha'.
      * split; [done|]. split; [done|]. unfold params_free. rewrite Hr.
        by rewrite (partition_None_inv _ _ Hp).
    + apply rpartition_None_inv in Hr. destruct p0 as [|c p0]; [done|].
      cbn in Hhead, Hr. unfold is_slash in Hhead. by rewrite Hhead in Hr.
  - split; [done|]. split; [done|]. by apply params_free_no_semi.
Qed.

Lemma splitparams_free p : params_free p = true -> splitparams p = (p, "") \/ contains ";" p = false.
Proof.
  unfold params_free, splitparams.
  destruct (rpartition "/" p) as [[dir last]|].
  - intros H%negb_true_iff. left. by rewrite partition_None.
  - intros H%negb_true_iff. by right.
Qed.

(** What [urlparse] returns on an [http] or [https] URL, when it
    returns. *)
Lemma parse_parts_shape sch r :
  sch = "http" \/ sch = "https" ->
  all_chars (fun c => negb (unsafe_url_byte c)) r = true ->
  scheme (parse_parts sch r) = sch /\
  netloc (parse_parts sch r) = (break_at netloc_delim r).1 /\
  all_chars (fun c => negb (netloc_delim c)) (netloc (parse_parts sch r)) = true /\
  all_chars (fun c => negb (unsafe_url_byte c)) (netloc (parse_parts sch r)) = true /\
  is_path (path (parse_parts sch r)) /\
  all_chars query_char (query (parse_parts sch r)) = true.
Proof.
  intros Hsch Hr. unfold parse_parts. rewrite hier_parts_eq. cbn [sr_path sr_netloc
    sr_query sr_fragment].
  replace (str_in sch uses_params) with true by by destruct Hsch as [-> | ->].
  cbn [andb].
  pose proof (break_at_spec netloc_delim r) as (Heq & Hn & Hrest).
  set (n := (break_at netloc_delim r).1) in *.
  set (rest := (break_at netloc_delim r).2) in *.
  rewrite Heq, all_chars_append in Hr. apply andb_prop in Hr as [Hnu Hru].
  destruct (split_once_fst "#" rest) as (t1 & Hu & Hhash).
  destruct (split_once_all _ "#" rest Hru) as [Huu _].
  set (u := (split_once "#" rest).1) in *.
  destruct (split_once_fst "?" u) as (t2 & Hp & Hq).
  destruct (split_once_all _ "?" u Huu) as [Hpu Hqu].
  set (p0 := (split_once "?" u).1) in *.
  assert (Hhashp : contains "#" p0 = false).
  { rewrite Hp, contains_append in Hhash. by apply orb_false_elim in Hhash as [? _]. }
  assert (Hp0 : head_is is_slash p0 = true /\ all_chars path_char p0 = true).
  { split.
    - destruct p0 as [|c p0]; [done|]. rewrite Hu, Hp in Hrest.
      cbn in Hrest, Hq, Hhashp |- *. unfold netloc_delim in Hrest.
      apply orb_false_elim in Hq as [Hq _].
      apply orb_false_elim in Hhashp as [Hh _].
      rewrite Hq, Hh in Hrest. unfold is_slash.
      by destruct (Ascii.eqb c "/").
    - rewrite contains_all in Hq, Hhashp. apply negb_false_iff in Hq, Hhashp.
      clear -Hq Hhashp Hpu. induction p0 as [|c p0 IH]; cbn in *; [done|].
      apply andb_prop in Hq as [Hq1 Hq2], Hhashp as [Hh1 Hh2], Hpu as [Hu1 Hu2].
      unfold path_char at 1. by rewrite Hq1, Hh1, Hu1, IH. }
  destruct Hp0 as [Hhead Hall].
  pose proof (splitparams_path p0 Hhead Hall) as Hpath.
  assert (Hquery : all_chars query_char (split_once "?" u).2 = true).
  { assert (Hnh : all_chars (fun c => negb (Ascii.eqb c "#")) u = true).
    { rewrite contains_all in Hhash. by apply negb_false_iff in Hhash. }
    destruct (split_once_all _ "?" u Hnh) as [_ Hq2].
    clear -Hq2 Hqu. induction ((split_once "?" u).2) as [|c q IH]; cbn in *; [done|].
    apply andb_prop in Hq2 as [H1 H2], Hqu as [H3 H4].
    unfold query_char at 1. by rewrite H1, H3, IH. }
  destruct (contains ";" p0); [destruct (splitparams p0) as [p1 pr]|]; done.
Qed.

Lemma host_char_facts host :
  all_chars host_char host = true ->
  all_chars (fun c => negb (netloc_delim c)) host = true /\
  all_chars (fun c => negb (unsafe_url_byte c)) host = true /\
  all_chars not_bracket host = true.
Proof.
  intros H. repeat split; revert H; apply all_chars_impl; intros c;
    unfold host_char, not_bracket;
    intros [[[H1 H2]%andb_prop H3]%andb_prop H4]%andb_prop; by rewrite ?H1, ?H2, ?H3, ?H4.
Qed.

Lemma path_char_facts p :
  all_chars path_char p = true ->
  contains "?" p = false /\ contains "#" p = false /\
  all_chars (fun c => negb (unsafe_url_byte c)) p = true.
Proof.
  intros H. repeat split; [apply contains_false|apply contains_false|];
    revert H; apply all_chars_impl; intros c; unfold path_char;
    by intros [[H1 H2]%andb_prop H3]%andb_prop.
Qed.

Lemma query_char_facts q :
  all_chars query_char q = true ->
  contains "#" q = false /\
  all_chars (fun c => negb (unsafe_url_byte c)) q = true.
Proof.
  intros H. split; [apply contains_false|];
    revert H; apply all_chars_impl; intros c; unfold query_char;
    by intros [H1 H2]%andb_prop.
Qed.

(** Parsing a URL put together from a scheme, a network location
    without brackets, a path and a query gives these parts back. *)
Lemma urlparse_built sch host p q :
  sch = "http" \/ sch = "https" ->
  all_chars host_char host = true -> is_path p ->
  all_chars query_char q = true ->
  urlparse (sch +:+ "://" +:+ host +:+ p +:+
            (if truthy_str q then "?" +:+ q else "")) =
    Ok (mkParse sch host p "" q "").
Proof.
  intros Hsch Hhost (Hhead & Hp & Hfree) Hq.
  destruct (host_char_facts _ Hhost) as (Hhd & Hhu & Hhb).
  destruct (path_char_facts _ Hp) as (Hpq & Hph & Hpu).
  destruct (query_char_facts _ Hq) as (Hqh & Hqu).
  set (qpart := if truthy_str q then "?" +:+ q else "").
  assert (Hqpu : all_chars (fun c => negb (unsafe_url_byte c)) qpart = true).
  { unfold qpart. by destruct (truthy_str q). }
  assert (Hqph : contains "#" qpart = false).
  { unfold qpart. by destruct (truthy_str q). }
  assert (Hrest : head_is netloc_delim (p +:+ qpart) = true).
  { destruct p as [|c p]; cbn.
    - unfold qpart. by destruct (truthy_str q).
    - cbn in Hhead. unfold is_slash in Hhead. unfold netloc_delim. by rewrite Hhead. }
  assert (Hsplit : split_once "?" (p +:+ qpart) = (p, q)).
  { unfold qpart. destruct q as [|c q]; cbn [truthy_str].
    - rewrite append_nil_r. by apply split_once_id.
    - unfold split_once.
      change (p +:+ "?" +:+ String c q) with (p +:+ String "?" (String c q)).
      by rewrite partition_append. }
  unfold urlparse.
  replace (sch +:+ "://" +:+ host +:+ p +:+ qpart)
    with ((sch +:+ "://") +:+ (host +:+ p +:+ qpart))
    by by destruct Hsch as [-> | ->].
  rewrite (urlsplit_http _ _ sch Hsch) by by destruct Hsch as [-> | ->].
  rewrite remove_chars_id by by rewrite !all_chars_append, Hhu, Hpu, Hqpu.
  rewrite split_hier_ok by by rewrite break_at_append.
  cbn [res_bind]. rewrite hier_parts_eq, break_at_append by done.
  cbn [fst snd sr_scheme sr_path sr_netloc sr_query sr_fragment].
  rewrite (split_once_id "#") by by rewrite contains_append, Hph, Hqph.
  cbn [fst snd]. rewrite Hsplit. cbn [fst snd].
  replace (str_in sch uses_params) with true by by destruct Hsch as [-> | ->].
  cbn [andb]. destruct (splitparams_free _ Hfree) as [-> | ->]; [|done].
  by destruct (contains ";" p).
Qed.

(** *** The normaliser *)

Lemma allowed_hosts_inv host :
  str_in host allowed_hosts = true ->
  host = "twitter.com" \/ host = "mobile.twitter.com" \/ host = "m.twitter.com" \/
  host = "x.com" \/ host = "mobile.x.com".
Proof.
  unfold str_in, allowed_hosts. cbn [existsb]. intros H.
  repeat (apply orb_prop in H as [H|H]; [apply String.eqb_eq in H; auto 10|]).
  done.
Qed.

Lemma has_http_scheme_https t : has_http_scheme ("https://" +:+ t) = true.
Proof. reflexivity. Qed.

Lemma urlunparse_host_path host p :
  truthy_str host = true -> head_is is_slash p = true ->
  urlunparse "https" host p "" "" "" = "https://" +:+ host +:+ p.
Proof.
  intros Hh Hp. rewrite urlunparse_https, Hh. cbn [orb].
  destruct p as [|c p]; [done|]. cbn in Hp. unfold is_slash in Hp.
  apply Ascii.eqb_eq in Hp as ->. done.
Qed.

(** A result of the normaliser is [https://], an allowed host and a
    path. *)
Lemma normalize_shape v out :
  normalize_input_url v = Ok (Some out) ->
  exists host p,
    str_in host allowed_hosts = true /\ is_path p /\
    out = "https://" +:+ host +:+ p.
Proof.
  unfold normalize_input_url. destruct v as [|raw|]; try done.
  destruct (negb (truthy_str (strip raw))); [done|].
  set (t1 := if startswith "//" (strip raw) then _ else _).
  set (t2 := if negb (has_http_scheme t1) then _ else _).
  assert (Hhttp : has_http_scheme t2 = true).
  { unfold t2. destruct (has_http_scheme t1) eqn:H; [done|].
    apply has_http_scheme_https. }
  destruct (urlparse_http_cases _ Hhttp)
    as (sch & p & r & Hsch & _ & _ & [Hparse | Hparse] & _);
    rewrite Hparse; [|done].
  cbn [res_bind].
  destruct (parse_parts_shape sch _ Hsch (remove_chars_clean _ r))
    as (_ & _ & _ & _ & Hpath & _).
  set (host := if startswith "www." _ then _ else _).
  destruct (str_in host allowed_hosts) eqn:Hhost; [|done]. cbn [negb].
  intros [= <-]. exists host, (path (parse_parts sch (remove_chars unsafe_url_byte r))).
  split; [done|]. split; [done|].
  apply urlunparse_host_path; [|by destruct Hpath].
  by destruct (allowed_hosts_inv _ Hhost) as [-> | [-> | [-> | [-> | ->]]]].
Qed.

Lemma allowed_host_chars host :
  str_in host allowed_hosts = true ->
  all_chars host_char host = true /\ lower host = host /\
  startswith "www." host = false /\ truthy_str host = true /\
  rstrip_with isspace ("https://" +:+ host) = "https://" +:+ host.
Proof.
  intros H. by destruct (allowed_hosts_inv _ H) as [-> | [-> | [-> | [-> | ->]]]].
Qed.

Lemma strip_https host p :
  str_in host allowed_hosts = true -> head_is is_slash p = true ->
  strip ("https://" +:+ host +:+ p) =
    "https://" +:+ host +:+ rstrip_with isspace p.
Proof.
  intros Hhost Hp. destruct (allowed_host_chars _ Hhost) as (_ & _ & _ & _ & Hr).
  unfold strip.
  change (lstrip_with isspace ("https://" +:+ host +:+ p))
    with ("https://" +:+ host +:+ p).
  destruct p as [|c p].
  - cbn [rstrip_with]. rewrite append_nil_r. exact Hr.
  - cbn in Hp. unfold is_slash in Hp. apply Ascii.eqb_eq in Hp as ->.
    destruct (rstrip_head isspace "/" p eq_refl) as [r Hrs].
    replace ("https://" +:+ host +:+ String "/" p)
      with (("https://" +:+ host) +:+ String "/" p) by by rewrite append_assoc.
    rewrite rstrip_append_keep by by rewrite Hrs.
    by rewrite append_assoc.
Qed.

Lemma rpartition_append_clean c a b :
  contains c b = false ->
  rpartition c (a +:+ b) =
    match rpartition c a with
    | Some (x, y) => Some (x, y +:+ b)
    | None => None
    end.
Proof.
  intros Hb. induction a as [|d a IH]; cbn.
  - by apply rpartition_None.
  - rewrite IH. destruct (rpartition c a) as [[x y]|]; [done|].
    by destruct (Ascii.eqb d c).
Qed.

Lemma is_path_rstrip p : is_path p -> is_path (rstrip_with isspace p).
Proof.
  intros (Hhead & Hall & Hfree). split; [|split].
  - destruct p as [|c p]; [done|]. cbn in Hhead. unfold is_slash in Hhead.
    apply Ascii.eqb_eq in Hhead as ->.
    by destruct (rstrip_head isspace "/" p eq_refl) as [r ->].
  - by apply rstrip_all.
  - destruct (rstrip_split isspace p) as (ws & Hp & Hws).
    assert (Hslash : contains "/" ws = false).
    { apply contains_false. revert Hws. apply all_chars_impl.
      intros c. by destruct c as [[] [] [] [] [] [] [] []]. }
    assert (Hsemi : contains ";" ws = false).
    { apply contains_false. revert Hws. apply all_chars_impl.
      intros c. by destruct c as [[] [] [] [] [] [] [] []]. }
    unfold params_free in *. rewrite Hp in Hfree at 1.
    rewrite rpartition_append_clean in Hfree by done.
    destruct (rpartition "/" (rstrip_with isspace p)) as [[x y]|].
    + rewrite contains_append, Hsemi, orb_false_r in Hfree. done.
    + rewrite Hp, contains_append, Hsemi, orb_false_r in Hfree. done.
Qed.

(** The normaliser returns a normalised URL that does not end with
    white space as it is. *)
Lemma normalize_fixed host p :
  str_in host allowed_hosts = true -> is_path p ->
  rstrip_with isspace p = p ->
  normalize_input_url (PyStr ("https://" +:+ host +:+ p)) =
    Ok (Some ("https://" +:+ host +:+ p)).
Proof.
  intros Hhost Hpath Hclean.
  destruct (allowed_host_chars _ Hhost) as (Hchars & Hlow & Hwww & Htruthy & _).
  unfold normalize_input_url.
  rewrite strip_https, Hclean by by destruct Hpath.
  change (truthy_str ("https://" +:+ host +:+ p)) with true.
  change (startswith "//" ("https://" +:+ host +:+ p)) with false.
  cbn [negb]. rewrite has_http_scheme_https. cbn [negb].
  pose proof (urlparse_built "https" host p "" (or_intror eq_refl) Hchars Hpath
                eq_refl) as Hparse.
  cbn [truthy_str] in Hparse. rewrite append_nil_r in Hparse.
  change ("https" +:+ "://" +:+ host +:+ p) with ("https://" +:+ host +:+ p)
    in Hparse.
  rewrite Hparse. cbn [res_bind netloc path]. rewrite Hlow, Hwww, Hhost.
  cbn [negb]. rewrite urlunparse_host_path; [done..|by destruct Hpath].
Qed.

(** ** Candidate generation *)

Lemma add_candidate_inv x st :
  candidates_inv st ->
  candidates_inv (add_candidate x st) /\ x ∈ (add_candidate x st).2 /\
  (forall y, y ∈ st.2 -> y ∈ (add_candidate x st).2) /\
  (forall y, y ∈ (add_candidate x st).2 -> y ∈ st.2 \/ y = x).
Proof.
  destruct st as [seen candidates]. unfold candidates_inv.
  intros [Hnd Hseen]. cbn [fst snd] in *.
  unfold add_candidate. destruct (bool_decide (x ∈ seen)) eqn:Hx.
  - apply bool_decide_eq_true in Hx. cbn [snd].
    split; [done|]. split; [by apply Hseen|]. split; auto.
  - apply bool_decide_eq_false in Hx. cbn [fst snd]. split; [split|].
    + apply NoDup_app. split; [done|]. split; [|apply NoDup_singleton].
      intros y Hy ->%list_elem_of_singleton. apply Hx. by apply Hseen.
    + intros y. rewrite elem_of_union, elem_of_singleton, elem_of_app,
        list_elem_of_singleton, Hseen. tauto.
    + split; [apply elem_of_app; right; by apply list_elem_of_singleton|].
      split; [intros y Hy; apply elem_of_app; by left|].
      intros y [Hy| ->%list_elem_of_singleton]%elem_of_app; auto.
Qed.

Lemma x_domain_host host :
  (if endswith "twitter.com" host then "x.com"
   else if endswith "mobile.twitter.com" host || endswith "m.twitter.com" host
   then "x.com"
   else if endswith ".x.com" host then "x.com"
   else if negb (String.eqb host "x.com") then "x.com"
   else host) = "x.com".
Proof.
  destruct (endswith "twitter.com" host); [done|].
  destruct (_ || _); [done|]. destruct (endswith ".x.com" host); [done|].
  destruct (String.eqb_spec host "x.com") as [->|]; done.
Qed.

Lemma urlunparse_x p q :
  urlunparse "https" "x.com" p "" q "" =
    "https://x.com" +:+
    (if truthy_str p && negb (String.eqb (take_str 1 p) "/") then "/" +:+ p else p)
    +:+ (if truthy_str q then "?" +:+ q else "").
Proof.
  unfold urlunparse, urlunsplit. cbn [truthy_str orb].
  destruct (truthy_str q); [|by rewrite append_nil_r].
  cbn [String.append]. by rewrite !append_assoc.
Qed.

Lemma convert_to_x_domain_eq url keep_query :
  convert_to_x_domain url keep_query =
    (parsed <- urlparse url ;;
     Ok (urlunparse "https" "x.com" (path parsed) ""
           (if keep_query then query parsed else "") "")).
Proof.
  unfold convert_to_x_domain. destruct (urlparse url) as [parsed|]; [|done].
  cbn [res_bind]. by rewrite x_domain_host.
Qed.

(** The host rewrite gives [https://x.com] whatever the URL was. *)
Lemma convert_on_x_domain url keep_query c :
  convert_to_x_domain url keep_query = Ok c -> on_x_domain c.
Proof.
  rewrite convert_to_x_domain_eq. destruct (urlparse url) as [parsed|]; [|done].
  cbn [res_bind]. intros [= <-]. rewrite urlunparse_x.
  eexists. split; [done|].
  destruct (path parsed) as [|c p]; cbn [truthy_str andb String.append].
  - by destruct (truthy_str _).
  - cbn [take_str]. destruct (String.eqb_spec (String c "") "/") as [[= ->]|]; done.
Qed.


Lemma guarded_add st (o : option string) (f : string -> res string) st1 :
  (forall n c, f n = Ok c -> on_x_domain c) ->
  match o with
  | Some n =>
      if truthy_str n
      then res_bind (f n) (fun x => Ok (add_candidate x st))
      else Ok st
  | None => Ok st
  end = Ok st1 ->
  candidates_inv st ->
  candidates_inv st1 /\
  (forall y, y ∈ st.2 -> y ∈ st1.2) /\
  (forall y, y ∈ st1.2 -> y ∈ st.2 \/ on_x_domain y).
Proof.
  intros Hf Hrun Hinv.
  destruct o as [n|]; [|injection Hrun as <-; auto].
  destruct (truthy_str n); [|injection Hrun as <-; auto].
  destruct (f n) as [x|] eqn:Hx; [|done]. injection Hrun as <-.
  destruct (add_candidate_inv x st Hinv) as (H1 & _ & H3 & H4).
  split; [done|]. split; [done|]. intros y Hy.
  destruct (H4 y Hy) as [?| ->]; [auto|]. right. by eapply Hf.
Qed.

(** A turn of the loop keeps the candidates met so far and adds only
    URLs on the canonical domain. *)
Lemma seed_step_inv st raw st' :
  seed_step st raw = Ok st' ->
  candidates_inv st ->
  candidates_inv st' /\
  (forall y, y ∈ st.2 -> y ∈ st'.2) /\
  (forall y, y ∈ st'.2 -> y ∈ st.2 \/ on_x_domain y).
Proof.
  unfold seed_step. intros Hrun Hinv.
  destruct (negb (truthy raw)); [injection Hrun as <-; auto|].
  destruct raw as [|raw|]; try done.
  destruct (urlparse _) as [parsed|]; [|done]. cbn [res_bind] in Hrun.
  destruct (normalize_input_url _) as [normalized_base|]; [|done].
  cbn [res_bind] in Hrun.
  destruct (match normalized_base with Some _ => _ | None => _ end)
    as [st1|] eqn:H1; [|done].
  cbn [res_bind] in Hrun.
  apply (guarded_add st normalized_base (fun nb => convert_to_x_domain nb false))
    in H1 as (Hinv1 & Hmono1 & Horig1);
    [|by intros n c; apply convert_on_x_domain|done].
  destruct (truthy_str (query parsed)); [|injection Hrun as <-; auto].
  destruct (normalize_input_url _) as [normalized_query|]; [|done].
  cbn [res_bind] in Hrun.
  apply (guarded_add st1 normalized_query
           (fun _ => convert_to_x_domain _ true))
    in Hrun as (Hinv2 & Hmono2 & Horig2);
    [|by intros n c; apply convert_on_x_domain|done].
  split; [done|]. split; [auto|]. intros y Hy.
  destruct (Horig2 y Hy) as [Hy1|?]; auto.
Qed.

Lemma seed_loop_inv seeds : forall st st',
  seed_loop seeds st = Ok st' ->
  candidates_inv st ->
  candidates_inv st' /\
  (forall y, y ∈ st.2 -> y ∈ st'.2) /\
  (forall y, y ∈ st'.2 -> y ∈ st.2 \/ on_x_domain y).
Proof.
  induction seeds as [|raw rest IH]; intros st st'; cbn [seed_loop].
  - intros [= <-]. auto.
  - destruct (seed_step st raw) as [st1|] eqn:H1; [|done]. cbn [res_bind].
    intros Hrest Hinv.
    destruct (seed_step_inv _ _ _ H1 Hinv) as (Hinv1 & Hmono1 & Horig1).
    destruct (IH _ _ Hrest Hinv1) as (Hinv2 & Hmono2 & Horig2).
    split; [done|]. split; [auto|]. intros y Hy.
    destruct (Horig2 y Hy) as [Hy1|?]; auto.
Qed.


Lemma candidates_inv_empty : candidates_inv (∅, []).
Proof.
  split; [apply NoDup_nil_2|]. intros x. cbn.
  split; [by intros ?%elem_of_empty | by intros ?%elem_of_nil].
Qed.

(** *** Network locations in any letter case *)

Lemma all_chars_lower q s :
  (forall c, q (ascii_lower c) = q c) ->
  all_chars q (lower s) = all_chars q s.
Proof. intros Hq. induction s as [|c s IH]; cbn; [done|]. by rewrite Hq, IH. Qed.

Lemma host_char_lower c : host_char (ascii_lower c) = host_char c.
Proof. by destruct c as [[] [] [] [] [] [] [] []]. Qed.

Lemma isspace_lower c : isspace (ascii_lower c) = isspace c.
Proof. by destruct c as [[] [] [] [] [] [] [] []]. Qed.

Lemma startswith_drop p : forall s,
  startswith p s = true -> s = p +:+ drop_str (String.length p) s.
Proof.
  induction p as [|a p IH]; intros s; cbn; [done|].
  destruct s as [|b s]; [done|]. intros [->%Ascii.eqb_eq H]%andb_prop.
  by rewrite <- IH.
Qed.

Lemma rstrip_id p s :
  all_chars (fun c => negb (p c)) s = true -> rstrip_with p s = s.
Proof.
  induction s as [|c s IH]; cbn; [done|].
  intros [Hc Hs]%andb_prop. apply negb_true_iff in Hc. rewrite (IH Hs), Hc.
  by destruct s.
Qed.

(** A network location that the normaliser accepts. *)
Lemma accepted_netloc n :
  str_in (if startswith "www." (lower n) then drop_str 4 (lower n) else lower n)
    allowed_hosts = true ->
  all_chars host_char n = true /\
  all_chars (fun c => negb (isspace c)) n = true /\ n <> "".
Proof.
  intros H.
  assert (Hl : all_chars host_char (lower n) = true /\
               all_chars (fun c => negb (isspace c)) (lower n) = true /\
               lower n <> "").
  { destruct (startswith "www." (lower n)) eqn:Hw.
    - apply startswith_drop in Hw. cbn [String.length] in Hw. rewrite Hw.
      by destruct (allowed_hosts_inv _ H) as [-> | [-> | [-> | [-> | ->]]]].
    - by destruct (allowed_hosts_inv _ H) as [-> | [-> | [-> | [-> | ->]]]]. }
  destruct Hl as (H1 & H2 & H3).
  rewrite all_chars_lower in H1 by apply host_char_lower.
  rewrite all_chars_lower in H2
    by (intros c; by rewrite isspace_lower).
  split; [done|]. split; [done|]. by destruct n.
Qed.


Lemma remove_chars_append p a b :
  remove_chars p (a +:+ b) = remove_chars p a +:+ remove_chars p b.
Proof.
  induction a as [|c a IH]; cbn; [done|]. rewrite IH. by destruct (p c).
Qed.

Lemma head_is_delim_remove rest :
  head_is netloc_delim rest = true ->
  head_is netloc_delim (remove_chars unsafe_url_byte rest) = true.
Proof.
  destruct rest as [|c rest]; [done|]. cbn. intros Hc.
  replace (unsafe_url_byte c) with false; [done|].
  unfold netloc_delim in Hc.
  apply orb_prop in Hc as [[->%Ascii.eqb_eq | ->%Ascii.eqb_eq]%orb_prop
                          | ->%Ascii.eqb_eq]; done.
Qed.



(** *** Seeds that are normalised URLs *)

Lemma path_no_insert p :
  head_is is_slash p = true ->
  (if truthy_str p && negb (String.eqb (take_str 1 p) "/") then "/" +:+ p else p)
  = p.
Proof.
  destruct p as [|c p]; [done|]. cbn [head_is]. unfold is_slash.
  by intros ->%Ascii.eqb_eq.
Qed.

Lemma convert_built sch host p q keep_query :
  sch = "http" \/ sch = "https" ->
  all_chars host_char host = true -> is_path p ->
  all_chars query_char q = true ->
  convert_to_x_domain
    (sch +:+ "://" +:+ host +:+ p +:+ (if truthy_str q then "?" +:+ q else ""))
    keep_query =
    Ok ("https://x.com" +:+ p +:+
        (if keep_query then (if truthy_str q then "?" +:+ q else "") else "")).
Proof.
  intros Hsch Hhost Hpath Hq. rewrite convert_to_x_domain_eq.
  rewrite urlparse_built by done. cbn [res_bind path query].
  rewrite urlunparse_x, path_no_insert by by destruct Hpath.
  by destruct keep_query.
Qed.

(** A seed that is a normalised URL without query adds its form on
    the canonical domain. *)
Lemma seed_step_clean st host p :
  str_in host allowed_hosts = true -> is_path p ->
  rstrip_with isspace p = p ->
  seed_step st (PyStr ("https://" +:+ host +:+ p)) =
    Ok (add_candidate ("https://x.com" +:+ p) st).
Proof.
  intros Hhost Hpath Hclean.
  destruct (allowed_host_chars _ Hhost) as (Hchars & _ & _ & Htruthy & _).
  pose proof (urlparse_built "https" host p "" (or_intror eq_refl) Hchars Hpath
                eq_refl) as Hparse.
  pose proof (convert_built "https" host p "" false (or_intror eq_refl) Hchars
                Hpath eq_refl) as Hconv.
  cbn [truthy_str] in Hparse, Hconv. rewrite append_nil_r in Hparse, Hconv.
  change ("https" +:+ "://" +:+ host +:+ p) with ("https://" +:+ host +:+ p)
    in Hparse, Hconv.
  unfold seed_step.
  change (truthy (PyStr ("https://" +:+ host +:+ p))) with true.
  change (startswith "//" ("https://" +:+ host +:+ p)) with false.
  cbn [negb]. rewrite has_http_scheme_https. cbn [negb]. rewrite Hparse.
  cbn [res_bind scheme netloc path query or_https truthy_str].
  rewrite urlunparse_host_path; [|done|by destruct Hpath].
  rewrite normalize_fixed by done. cbn [res_bind].
  change (truthy_str ("https://" +:+ host +:+ p)) with true. cbn iota.
  by rewrite Hconv.
Qed.

Lemma digit_chars c :
  is_digit c = true ->
  path_char c = true /\ isspace c = false /\ Ascii.eqb c ";" = false.
Proof. by destruct c as [[] [] [] [] [] [] [] []]. Qed.

Lemma template_path pre tweet_id :
  head_is is_slash pre = true -> pre <> "" ->
  all_chars path_char pre = true -> contains ";" pre = false ->
  all_chars (fun c => negb (isspace c)) pre = true ->
  all_chars is_digit tweet_id = true ->
  is_path (pre +:+ tweet_id) /\
  rstrip_with isspace (pre +:+ tweet_id) = pre +:+ tweet_id.
Proof.
  intros Hhead Hne Hchars Hsemi Hspace Hd.
  assert (H1 : all_chars path_char tweet_id = true).
  { revert Hd. apply all_chars_impl. intros c Hc. by apply digit_chars. }
  assert (H2 : all_chars (fun c => negb (isspace c)) tweet_id = true).
  { revert Hd. apply all_chars_impl. intros c Hc.
    by destruct (digit_chars c Hc) as (_ & -> & _). }
  assert (H3 : contains ";" tweet_id = false).
  { apply contains_false. revert Hd. apply all_chars_impl. intros c Hc.
    by destruct (digit_chars c Hc) as (_ & _ & ->). }
  split; [split; [|split]|].
  - by destruct pre.
  - by rewrite all_chars_append, Hchars, H1.
  - apply params_free_no_semi. by rewrite contains_append, Hsemi, H3.
  - apply rstrip_id. by rewrite all_chars_append, Hspace, H2.
Qed.

(** The four templates leave the two URLs on the canonical domain in
    the list. *)
Lemma template_seeds_loop tweet_id st :
  all_chars is_digit tweet_id = true ->
  seed_loop (map PyStr (template_seeds tweet_id)) st =
    Ok (add_candidate ("https://x.com/i/status/" +:+ tweet_id)
         (add_candidate ("https://x.com/i/status/" +:+ tweet_id)
           (add_candidate ("https://x.com/i/web/status/" +:+ tweet_id)
             (add_candidate ("https://x.com/i/web/status/" +:+ tweet_id) st)))).
Proof.
  intros Hd.
  destruct (template_path "/i/web/status/" tweet_id) as [Hw1 Hw2]; try done.
  destruct (template_path "/i/status/" tweet_id) as [Hs1 Hs2]; try done.
  pose proof (fun st => seed_step_clean st "x.com" _ eq_refl Hw1 Hw2) as E1.
  pose proof (fun st => seed_step_clean st "twitter.com" _ eq_refl Hw1 Hw2) as E2.
  pose proof (fun st => seed_step_clean st "x.com" _ eq_refl Hs1 Hs2) as E3.
  pose proof (fun st => seed_step_clean st "twitter.com" _ eq_refl Hs1 Hs2) as E4.
  cbn [String.append] in E1, E2, E3, E4.
  unfold template_seeds. cbn [map seed_loop String.append].
  rewrite E1. cbn [res_bind]. rewrite E2. cbn [res_bind].
  rewrite E3. cbn [res_bind]. rewrite E4. done.
Qed.


(** *** Seeds without square brackets: no exception *)











(** *** A seed whose base does not normalise adds nothing *)

Lemma urlunparse_query sch n p q :
  truthy_str q = true ->
  urlunparse sch n p "" q "" = urlunparse sch n p "" "" "" +:+ "?" +:+ q.
Proof. intros Hq. unfold urlunparse, urlunsplit. by rewrite Hq. Qed.







(** *** The generator *)




Lemma build_fetch_urls_on_x_domain tweet_id normalized_url canonical_url
    fetch_urls c :
  build_fetch_urls tweet_id normalized_url canonical_url = Ok fetch_urls ->
  c ∈ fetch_urls -> on_x_domain c.
Proof.
  unfold build_fetch_urls.
  destruct (seed_loop _ (∅, [])) as [st1|] eqn:H1; [|done].
  cbn [res_bind]. intros [= <-] Hc.
  destruct (seed_loop_inv _ _ _ H1 candidates_inv_empty) as (_ & _ & Horig).
  destruct (Horig _ Hc) as [Hin|?]; [|done]. by apply elem_of_nil in Hin.
Qed.


(** * Further properties *)

(** ** The identifier and the text around it *)

Lemma lstrip_split p s :
  exists a, s = a +:+ lstrip_with p s /\ all_chars p a = true /\
            head_is (fun c => negb (p c)) (lstrip_with p s) = true.
Proof.
  induction s as [|c s IH]; [by exists ""|]. cbn [lstrip_with].
  destruct (p c) eqn:Hc.
  - destruct IH as (a & Heq & Ha & Hh). exists (String c a). cbn.
    rewrite Hc, Ha. by rewrite <- Heq.
  - exists "". cbn. by rewrite Hc.
Qed.

(** A greedy repetition before a continuation that accepts everything
    takes every character it can. *)
Lemma star_greedy_total {A} a (k : string -> option A) :
  (forall t, is_Some (k t)) ->
  forall s, star_greedy a s k = k (lstrip_with (atom_matches a) s).
Proof.
  intros Hk. induction s as [|c r IH]; cbn [star_greedy lstrip_with]; [done|].
  destruct (atom_matches a c); [|done]. rewrite IH.
  by destruct (Hk (lstrip_with (atom_matches a) r)) as [x ->].
Qed.

Lemma rmatch_cat_sound {A} r1 r2 s cap
    (k : string -> option string -> option A) x :
  rmatch (Cat r1 r2) s cap k = Some x ->
  exists s1 cap1, denote r1 s cap s1 cap1 /\ rmatch r2 s1 cap1 k = Some x.
Proof. cbn [rmatch]. apply rmatch_sound. Qed.

(** Group 1 at the end of the pattern is the whole run of digits. *)
Lemma group_digits_max s cap m :
  rmatch (Group (Plus true Digit)) s cap (fun _ cap' => Some cap') = Some m ->
  exists d rest,
    s = d +:+ rest /\ is_digits d /\ no_digit_ahead rest /\ m = Some d.
Proof.
  cbn [rmatch]. unfold plus. destruct s as [|c r]; [done|].
  destruct (atom_matches Digit c) eqn:Hc; [|done].
  rewrite star_greedy_total by (intros t; by eexists).
  destruct (lstrip_split (atom_matches Digit) r) as (a & Heq & Ha & Hh).
  intros [= <-]. exists (String c a), (lstrip_with (atom_matches Digit) r).
  assert (Hs : String c r = String c a +:+ lstrip_with (atom_matches Digit) r).
  { cbn [String.append]. by rewrite <- Heq. }
  split; [exact Hs|]. split.
  { split; [done|]. cbn [all_chars].
    apply andb_true_intro. split; [exact Hc | exact Ha]. }
  split.
  { destruct (lstrip_with (atom_matches Digit) r) as [|c' r']; [done|].
    cbn in Hh |- *. by apply negb_true_iff in Hh. }
  change (S (String.length r)) with (String.length (String c r)).
  rewrite Hs. by rewrite take_str_append.
Qed.

(** X1. For an input of ASCII text, an identifier is returned only
    for a string that holds, from some position on, an optional
    [http://] or [https://], an optional [www.], [twitter.com/] or
    [x.com/], some text without line feed, [/status/] or [/statuses/]
    and digits [0] to [9]; the identifier is the whole run of digits:
    the text goes on with no further digit. *)
Theorem X1_identifier_is_whole_digit_run url d :
  ascii_input url ->
  extract_tweet_id url = Some d ->
  exists pre sch www dom u es rest,
    url = PyStr (pre +:+ sch +:+ www +:+ dom +:+ ".com/" +:+ u +:+ "/status"
                 +:+ es +:+ "/" +:+ d +:+ rest) /\
    (sch = "http://" \/ sch = "https://" \/ sch = "") /\
    (www = "www." \/ www = "") /\ (dom = "twitter" \/ dom = "x") /\
    (es = "es" \/ es = "") /\
    u <> "" /\ all_chars (atom_matches Dot) u = true /\
    is_digits d /\ no_digit_ahead rest.
Proof.
  intros _. destruct url as [|s|]; try done. cbn [extract_tweet_id].
  destruct (search TWEET_URL_RE s) as [m|] eqn:Hs; [|done]. intros ->.
  apply search_sound in Hs as (pre & t & -> & Ht).
  unfold match_at, TWEET_URL_RE, HOST_PATH_RE, STATUS_ID_RE in Ht.
  apply rmatch_cat_sound in Ht as (s1 & cap1 & Hsch & Ht).
  apply rmatch_cat_sound in Ht as (s2 & cap2 & Hwww & Ht).
  apply rmatch_cat_sound in Ht as (s3 & cap3 & Hdom & Ht).
  apply rmatch_cat_sound in Ht as (s4 & cap4 & Hcom & Ht).
  apply rmatch_cat_sound in Ht as (s5 & cap5 & Hu & Ht).
  apply rmatch_cat_sound in Ht as (s6 & cap6 & Hst & Ht).
  apply rmatch_cat_sound in Ht as (s7 & cap7 & Hes & Ht).
  apply rmatch_cat_sound in Ht as (s8 & cap8 & Hsl & Ht).
  apply group_digits_max in Ht as (d' & rest & -> & Hd & Hrest & [= <-]).
  assert (exists sch, (sch = "http://" \/ sch = "https://" \/ sch = "") /\
                      t = sch +:+ s1) as (sch & Hsch' & ->).
  { destruct Hsch as [(t1 & c1 & H1 & t2 & c2 & H2 & H3)|[-> _]].
    - apply denote_lits in H1 as [-> _].
      apply denote_opt_lits in H2 as (o & Ho & -> & _).
      apply denote_lits in H3 as [-> _].
      destruct Ho as [-> | ->]; [exists "https://" | exists "http://"]; auto.
    - exists "". auto. }
  apply denote_opt_lits in Hwww as (www & Hwww & -> & _).
  assert (exists dom, (dom = "twitter" \/ dom = "x") /\ s2 = dom +:+ s3)
    as (dom & Hdom' & ->).
  { destruct Hdom as [Hd1|Hd1]; apply denote_lits in Hd1 as [-> _];
      [exists "twitter" | exists "x"]; auto. }
  apply denote_lits in Hcom as [-> _].
  destruct Hu as (c & u & -> & Hall & _).
  apply denote_lits in Hst as [-> _].
  apply denote_opt_lits in Hes as (es & Hes & -> & _).
  apply denote_lits in Hsl as [-> _].
  exists pre, sch, www, dom, (String c u), es, rest.
  split; [done|]. do 4 (split; [done|]). split; [done|].
  split; [exact Hall|]. split; [exact Hd | exact Hrest].
Qed.

(** *** The lazy part of the pattern across several path segments *)

Lemma lazy_first_here r s cap s' cap' :
  first_match r s cap s' cap' -> lazy_first r s cap s' cap'.
Proof. intros H A k x Hk. destruct s; cbn [star_lazy]; by rewrite (H A k x Hk). Qed.

Lemma lazy_first_skip r c s cap s' cap' :
  no_match r (String c s) cap -> atom_matches Dot c = true ->
  lazy_first r s cap s' cap' -> lazy_first r (String c s) cap s' cap'.
Proof.
  intros Hno Hc H A k x Hk. cbn [star_lazy]. rewrite Hno, Hc. by apply H.
Qed.

Lemma first_match_lazy r c s cap s' cap' :
  atom_matches Dot c = true -> lazy_first r s cap s' cap' ->
  first_match (Cat (Plus false Dot) r) (String c s) cap s' cap'.
Proof. intros Hc H A k x Hk. cbn [rmatch]. unfold plus. rewrite Hc. by apply H. Qed.

Lemma first_match_status_end d cap :
  is_digits d -> first_match STATUS_ID_RE ("/status/" +:+ d) cap "" (Some d).
Proof.
  intros Hd.
  pose proof (first_match_status_id "" d "" cap (or_intror eq_refl) Hd I) as H.
  by rewrite append_nil_r in H.
Qed.

(** The tail [i/web/status/<digits>] or [i/status/<digits>] of a
    fallback URL behind the host. *)
Lemma first_match_fallback_tail web d :
  web = "/web" \/ web = "" -> is_digits d ->
  first_match (Cat (Plus false Dot) STATUS_ID_RE)
    ("i" +:+ web +:+ "/status/" +:+ d) None "" (Some d).
Proof.
  intros Hweb Hd. apply first_match_lazy; [done|].
  destruct Hweb as [-> | ->].
  - apply lazy_first_skip; [by intros A k|done|].
    do 3 (apply lazy_first_skip; [by apply no_match_status_id|done|]).
    by apply lazy_first_here, first_match_status_end.
  - by apply lazy_first_here, first_match_status_end.
Qed.

Lemma match_at_fallback sch dom web d :
  sch = "https://" \/ sch = "http://" \/ sch = "" ->
  dom = "twitter" \/ dom = "x" -> web = "/web" \/ web = "" -> is_digits d ->
  match_at TWEET_URL_RE
    (sch +:+ dom +:+ ".com/i" +:+ web +:+ "/status/" +:+ d) = Some (Some d).
Proof.
  intros Hsch Hdom Hweb Hd. unfold match_at.
  assert (Hfm : first_match TWEET_URL_RE
            (sch +:+ dom +:+ ".com/i" +:+ web +:+ "/status/" +:+ d) None ""
            (Some d)); [|by apply Hfm].
  unfold TWEET_URL_RE. eapply first_match_cat.
  { destruct Hsch as [-> | [-> | ->]].
    - apply first_match_opt.
      eapply first_match_cat; [apply (first_match_lits "http")|].
      eapply first_match_cat; [|apply (first_match_lits "://")].
      apply first_match_opt. apply (first_match_lits "s").
    - apply first_match_opt.
      eapply first_match_cat; [apply (first_match_lits "http")|].
      eapply first_match_cat; [|apply (first_match_lits "://")].
      apply first_match_opt_skip. by apply no_match_lits.
    - apply first_match_opt_skip. apply no_match_cat.
      destruct Hdom as [-> | ->]; by apply no_match_lits. }
  unfold HOST_PATH_RE. eapply first_match_cat.
  { apply first_match_opt_skip.
    destruct Hdom as [-> | ->]; by apply no_match_lits. }
  eapply first_match_cat.
  { destruct Hdom as [-> | ->].
    - apply first_match_alt_l, first_match_lits.
    - apply first_match_alt_r; [by apply no_match_lits|].
      apply first_match_lits. }
  eapply first_match_cat; [apply (first_match_lits ".com/")|].
  by apply first_match_fallback_tail.
Qed.

(** X2. The identifier is read back from each of the four fallback
    URLs that the generator builds from it, and so from the two
    fallback candidates on [x.com]. *)
Theorem X2_fallback_urls_give_identifier tweet_id :
  is_digits tweet_id ->
  Forall (fun u => extract_tweet_id (PyStr u) = Some tweet_id)
    (template_seeds tweet_id).
Proof.
  intros Hd. unfold template_seeds.
  pose proof (match_at_fallback "https://" "x" "/web" tweet_id) as H1.
  pose proof (match_at_fallback "https://" "twitter" "/web" tweet_id) as H2.
  pose proof (match_at_fallback "https://" "x" "" tweet_id) as H3.
  pose proof (match_at_fallback "https://" "twitter" "" tweet_id) as H4.
  apply search_here in H1, H2, H3, H4; auto.
  change (search TWEET_URL_RE ("https://x.com/i/web/status/" +:+ tweet_id)
          = Some (Some tweet_id)) in H1.
  change (search TWEET_URL_RE ("https://twitter.com/i/web/status/" +:+ tweet_id)
          = Some (Some tweet_id)) in H2.
  change (search TWEET_URL_RE ("https://x.com/i/status/" +:+ tweet_id)
          = Some (Some tweet_id)) in H3.
  change (search TWEET_URL_RE ("https://twitter.com/i/status/" +:+ tweet_id)
          = Some (Some tweet_id)) in H4.
  repeat constructor; cbn [extract_tweet_id].
  - by rewrite H1.
  - by rewrite H2.
  - by rewrite H3.
  - by rewrite H4.
Qed.

(** ** The normaliser: what it rejects and what it returns *)

Lemma lstrip_blank p s : all_chars p s = true -> lstrip_with p s = "".
Proof.
  induction s as [|c s IH]; cbn; [done|].
  intros [Hc Hs]%andb_prop. rewrite Hc. by apply IH.
Qed.

Lemma lstrip_nil_inv p s : lstrip_with p s = "" -> all_chars p s = true.
Proof.
  induction s as [|c s IH]; cbn; [done|].
  destruct (p c); [by intros ?%IH | done].
Qed.

Lemma lstrip_pad p ws s :
  all_chars p ws = true -> lstrip_with p (ws +:+ s) = lstrip_with p s.
Proof.
  induction ws as [|c ws IH]; cbn; [done|].
  intros [Hc Hws]%andb_prop. rewrite Hc. by apply IH.
Qed.

Lemma lstrip_append_keep p s t :
  lstrip_with p s <> "" -> lstrip_with p (s +:+ t) = lstrip_with p s +:+ t.
Proof.
  induction s as [|c s IH]; cbn; [done|]. destruct (p c); [apply IH | done].
Qed.

Lemma rstrip_blank p s : all_chars p s = true -> rstrip_with p s = "".
Proof.
  induction s as [|c s IH]; cbn; [done|].
  intros [Hc Hs]%andb_prop. by rewrite (IH Hs), Hc.
Qed.

Lemma rstrip_pad p s ws :
  all_chars p ws = true -> rstrip_with p (s +:+ ws) = rstrip_with p s.
Proof.
  intros Hws. induction s as [|c s IH]; cbn.
  - by apply rstrip_blank.
  - by rewrite IH.
Qed.

Lemma strip_pad ws1 s ws2 :
  all_chars isspace ws1 = true -> all_chars isspace ws2 = true ->
  strip (ws1 +:+ s +:+ ws2) = strip s.
Proof.
  intros H1 H2. unfold strip. rewrite lstrip_pad by done.
  destruct (lstrip_with isspace s) as [|c r] eqn:Hs.
  - apply lstrip_nil_inv in Hs.
    rewrite lstrip_blank; [done|]. by rewrite all_chars_append, Hs, H2.
  - rewrite lstrip_append_keep by by rewrite Hs.
    rewrite Hs. by apply rstrip_pad.
Qed.

(** X3. An input that is no string, or a string that is empty or holds
    white space only, is not normalised; the classifier then answers
    [invalid_url] with its fixed text and makes no request. *)
Theorem X3_blank_input_is_invalid v net tweet_id w :
  blank v ->
  normalize_input_url v = Ok None /\
  check_tweet net tweet_id v w =
    (Ok (mkOutcome invalid_url None (Some "URL could not be normalized")
           None None), w).
Proof.
  intros Hv.
  assert (Hn : normalize_input_url v = Ok None).
  { destruct v as [|s|]; try done. cbn in Hv. unfold normalize_input_url, strip.
    by rewrite (lstrip_blank _ _ Hv). }
  split; [exact Hn|]. by apply check_tweet_invalid.
Qed.

(** X4. A normalised URL is [https://], one of the five hosts of the
    allow-set and the parsed path, which is empty or starts with [/];
    it holds neither [?] nor [#]: query and fragment are dropped. *)
Theorem X4_normalized_url_shape v out :
  normalize_input_url v = Ok (Some out) ->
  exists host p,
    out = "https://" +:+ host +:+ p /\
    host ∈ allowed_hosts /\ head_is is_slash p = true /\
    contains "?" out = false /\ contains "#" out = false.
Proof.
  intros H. destruct (normalize_shape _ _ H) as (host & p & Hhost & Hpath & ->).
  exists host, p. split; [done|].
  destruct Hpath as (Hhead & Hchars & _).
  destruct (path_char_facts _ Hchars) as (Hq & Hf & _).
  split.
  { unfold allowed_hosts. rewrite !elem_of_cons.
    destruct (allowed_hosts_inv _ Hhost) as [-> | [-> | [-> | [-> | ->]]]];
      auto 10. }
  split; [done|].
  rewrite !contains_append, Hq, Hf.
  by destruct (allowed_hosts_inv _ Hhost) as [-> | [-> | [-> | [-> | ->]]]].
Qed.

(** *** URLs that are written differently and normalise alike *)

Lemma lower_append a b : lower (a +:+ b) = lower a +:+ lower b.
Proof. induction a as [|c a IH]; cbn; [done | by rewrite IH]. Qed.

Lemma startswith_append p s : startswith p (p +:+ s) = true.
Proof. induction p as [|c p IH]; cbn; [done | by rewrite Ascii.eqb_refl]. Qed.

Lemma partition_append_clean c a b :
  contains c a = false ->
  partition c (a +:+ b) =
    match partition c b with
    | Some (x, y) => Some (a +:+ x, y)
    | None => None
    end.
Proof.
  intros Ha. induction a as [|d a IH]; cbn.
  - by destruct (partition c b) as [[x y]|].
  - cbn in Ha. apply orb_false_elim in Ha as [Hd Ha]. rewrite Hd, (IH Ha).
    by destruct (partition c b) as [[x y]|].
Qed.

Lemma split_once_append c a b :
  contains c a = false ->
  split_once c (a +:+ b) = (a +:+ (split_once c b).1, (split_once c b).2).
Proof.
  intros Ha. unfold split_once. rewrite partition_append_clean by done.
  by destruct (partition c b) as [[x y]|].
Qed.

Lemma split_once_head c s : split_once c (String c s) = ("", s).
Proof. unfold split_once. cbn. by rewrite Ascii.eqb_refl. Qed.

(** The text before the fragment of a tail is empty or a query. *)
Lemma tail_before_fragment tail :
  head_is tail_start tail = true ->
  (split_once "#" tail).1 = "" \/
  exists t, (split_once "#" tail).1 = String "?" t.
Proof.
  destruct tail as [|c t]; [by left|]. cbn [head_is]. unfold tail_start.
  intros [Hc|Hc]%orb_prop; apply Ascii.eqb_eq in Hc as ->.
  - right. unfold split_once. cbn.
    destruct (partition "#" t) as [[x y]|]; by eexists.
  - left. by rewrite split_once_head.
Qed.

Lemma head_is_tail_remove tail :
  head_is tail_start tail = true ->
  head_is tail_start (remove_chars unsafe_url_byte tail) = true.
Proof.
  destruct tail as [|c t]; [done|]. cbn [head_is]. intros Hc.
  assert (Hu : unsafe_url_byte c = false).
  { revert Hc. by destruct c as [[] [] [] [] [] [] [] []]. }
  cbn [remove_chars]. by rewrite Hu.
Qed.

Lemma tail_start_delim tail :
  head_is tail_start tail = true -> head_is netloc_delim tail = true.
Proof.
  destruct tail as [|c t]; [done|]. cbn. unfold tail_start, netloc_delim.
  intros [-> | ->]%orb_prop; [by rewrite orb_true_r | by rewrite !orb_true_r].
Qed.

(** Parsing a URL with a scheme in any letter case, a network location
    without brackets, a path, and a query or a fragment behind it. *)
Lemma urlparse_tail sch P n p tail :
  sch = "http" \/ sch = "https" -> lower P = sch +:+ "://" ->
  all_chars host_char n = true -> is_path p ->
  head_is tail_start tail = true ->
  exists q f, urlparse (P +:+ n +:+ p +:+ tail) = Ok (mkParse sch n p "" q f).
Proof.
  intros Hsch HP Hn (Hhead & Hp & Hfree) Htail.
  destruct (host_char_facts _ Hn) as (Hnd & Hnu & Hnb).
  destruct (path_char_facts _ Hp) as (Hpq & Hph & Hpu).
  unfold urlparse. rewrite (urlsplit_http _ _ sch Hsch HP).
  rewrite !remove_chars_append, (remove_chars_id _ n), (remove_chars_id _ p)
    by done.
  apply head_is_tail_remove in Htail.
  set (tail' := remove_chars unsafe_url_byte tail) in *.
  assert (Hrest : head_is netloc_delim (p +:+ tail') = true).
  { destruct p as [|c p]; [by apply tail_start_delim|].
    cbn in Hhead |- *. unfold is_slash in Hhead. unfold netloc_delim.
    by rewrite Hhead. }
  rewrite split_hier_ok by by rewrite break_at_append.
  cbn [res_bind]. rewrite hier_parts_eq, break_at_append by done.
  cbn [fst snd sr_scheme sr_path sr_netloc sr_query sr_fragment].
  rewrite (split_once_append "#") by done. cbn [fst snd].
  assert (Hsplit : (split_once "?" (p +:+ (split_once "#" tail').1)).1 = p).
  { destruct (tail_before_fragment _ Htail) as [-> | [t ->]].
    - rewrite append_nil_r. by rewrite split_once_id.
    - unfold split_once. by rewrite partition_append. }
  rewrite Hsplit.
  replace (str_in sch uses_params) with true by by destruct Hsch as [-> | ->].
  cbn [andb]. destruct (splitparams_free _ Hfree) as [-> | ->];
    [destruct (contains ";" p)|]; by eexists _, _.
Qed.

(** No allowed host, with or without [www.], looks like a scheme. *)
Lemma allowed_host_no_scheme n host rest :
  str_in host allowed_hosts = true ->
  lower n = host \/ lower n = "www." +:+ host ->
  startswith "//" (n +:+ rest) = false /\ has_http_scheme (n +:+ rest) = false.
Proof.
  intros Hhost Hn. split.
  - destruct n as [|c n].
    { destruct Hn as [<- | Hn]; [|by cbn in Hn]. vm_compute in Hhost.
      discriminate. }
    cbn [String.append startswith].
    destruct (Ascii.eqb "/" c) eqn:E; [|done]. apply Ascii.eqb_eq in E as <-.
    destruct Hn as [<- | Hn]; [|cbn in Hn; by injection Hn as Hn _].
    vm_compute in Hhost. discriminate.
  - unfold has_http_scheme. rewrite lower_append.
    destruct (allowed_hosts_inv _ Hhost) as [-> | [-> | [-> | [-> | ->]]]];
      by destruct Hn as [-> | ->].
Qed.

Lemma accepted_netloc_of n host :
  str_in host allowed_hosts = true ->
  lower n = host \/ lower n = "www." +:+ host ->
  (if startswith "www." (lower n) then drop_str 4 (lower n) else lower n) = host.
Proof.
  intros Hhost Hn.
  destruct (allowed_host_chars _ Hhost) as (_ & _ & Hwww & _).
  destruct Hn as [-> | ->]; [by rewrite Hwww|].
  by rewrite startswith_append.
Qed.

(** The text with its scheme written out, as the normaliser parses
    it. *)
Lemma normalize_adds_scheme sch n host rest :
  is_http_prefix sch -> str_in host allowed_hosts = true ->
  lower n = host \/ lower n = "www." +:+ host ->
  exists s P,
    (s = "http" \/ s = "https") /\ lower P = s +:+ "://" /\
    (let t := sch +:+ n +:+ rest in
     let t1 := if startswith "//" t then "https:" +:+ t else t in
     if negb (has_http_scheme t1) then "https://" +:+ t1 else t1)
    = P +:+ n +:+ rest.
Proof.
  intros Hsch Hhost Hn. cbv zeta.
  destruct (allowed_host_no_scheme n host rest Hhost Hn) as [Hs Hh].
  destruct Hsch as [-> | [-> | [Hsch | Hsch]]].
  - exists "https", "https://". cbn [String.append]. rewrite Hs, Hh.
    by repeat split; auto.
  - exists "https", "https://". repeat split; auto.
  - exists "http", sch. split; [auto|]. split; [done|].
    assert (H1 : startswith "//" (sch +:+ n +:+ rest) = false).
    { destruct sch as [|c sch]; [done|]. cbn [String.append startswith].
      destruct (Ascii.eqb "/" c) eqn:E; [|done]. apply Ascii.eqb_eq in E as <-.
      cbn in Hsch. by injection Hsch as Hc _. }
    assert (H2 : has_http_scheme (sch +:+ n +:+ rest) = true).
    { unfold has_http_scheme. rewrite lower_append, Hsch.
      by rewrite startswith_append. }
    by rewrite H1, H2.
  - exists "https", sch. split; [auto|]. split; [done|].
    assert (H1 : startswith "//" (sch +:+ n +:+ rest) = false).
    { destruct sch as [|c sch]; [done|]. cbn [String.append startswith].
      destruct (Ascii.eqb "/" c) eqn:E; [|done]. apply Ascii.eqb_eq in E as <-.
      cbn in Hsch. by injection Hsch as Hc _. }
    assert (H2 : has_http_scheme (sch +:+ n +:+ rest) = true).
    { unfold has_http_scheme. rewrite lower_append, Hsch.
      rewrite startswith_append. apply orb_true_r. }
    by rewrite H1, H2.
Qed.

Lemma str_in_elem_of s l : str_in s l = true <-> s ∈ l.
Proof.
  unfold str_in. induction l as [|x l IH]; cbn.
  - split; [done | by intros ?%elem_of_nil].
  - rewrite elem_of_cons, <- IH. destruct (String.eqb_spec s x) as [->|Hne].
    + split; auto.
    + split; [auto | by intros [?|?]].
Qed.

Lemma lstrip_head p c s : p c = false -> lstrip_with p (String c s) = String c s.
Proof. intros H. cbn. by rewrite H. Qed.

Lemma rstrip_fixed_append p a b :
  rstrip_with p a = a -> a <> "" -> rstrip_with p b = b ->
  rstrip_with p (a +:+ b) = a +:+ b.
Proof.
  intros Ha Hne Hb. destruct b as [|c b].
  - by rewrite append_nil_r.
  - rewrite rstrip_append_keep; by rewrite Hb.
Qed.

(** The strings that the normaliser takes apart are left alone by
    [strip] when nothing follows the path but a tail without white
    space at its end. *)
Lemma strip_accepted sch n host rest :
  is_http_prefix sch -> str_in host allowed_hosts = true ->
  lower n = host \/ lower n = "www." +:+ host ->
  rstrip_with isspace rest = rest ->
  strip (sch +:+ n +:+ rest) = sch +:+ n +:+ rest /\
  truthy_str (sch +:+ n +:+ rest) = true.
Proof.
  intros Hsch Hhost Hn Hrest.
  pose proof (accepted_netloc_of n host Hhost Hn) as Hacc.
  destruct (accepted_netloc n) as (_ & Hns & Hne); [by rewrite Hacc|].
  assert (Hnr : rstrip_with isspace (n +:+ rest) = n +:+ rest).
  { apply rstrip_fixed_append; [by apply rstrip_id|done|done]. }
  assert (Hnl : lstrip_with isspace (n +:+ rest) = n +:+ rest).
  { destruct n as [|c n]; [done|]. cbn [all_chars] in Hns.
    apply andb_prop in Hns as [Hc _]. apply negb_true_iff in Hc.
    by apply lstrip_head. }
  assert (Hnt : truthy_str (n +:+ rest) = true) by by destruct n.
  assert (Hnn : n +:+ rest <> "") by by destruct n.
  unfold strip.
  destruct Hsch as [-> | [-> | [Hsch | Hsch]]].
  - cbn [String.append]. by rewrite Hnl, Hnr.
  - split; [|done].
    change (lstrip_with isspace ("//" +:+ n +:+ rest)) with ("//" +:+ n +:+ rest).
    rewrite rstrip_append_keep; by rewrite Hnr.
  - destruct sch as [|c sch]; [done|]. split; [|done].
    cbn [lower] in Hsch. injection Hsch as Hc _.
    assert (Hsp : isspace c = false).
    { revert Hc. by destruct c as [[] [] [] [] [] [] [] []]. }
    cbn [String.append]. rewrite lstrip_head by done.
    change (String c (sch +:+ n +:+ rest)) with (String c sch +:+ n +:+ rest).
    rewrite rstrip_append_keep; by rewrite Hnr.
  - destruct sch as [|c sch]; [done|]. split; [|done].
    cbn [lower] in Hsch. injection Hsch as Hc _.
    assert (Hsp : isspace c = false).
    { revert Hc. by destruct c as [[] [] [] [] [] [] [] []]. }
    cbn [String.append]. rewrite lstrip_head by done.
    change (String c (sch +:+ n +:+ rest)) with (String c sch +:+ n +:+ rest).
    rewrite rstrip_append_keep; by rewrite Hnr.
Qed.

Lemma normalize_written sch n host p tail :
  is_http_prefix sch -> str_in host allowed_hosts = true ->
  lower n = host \/ lower n = "www." +:+ host ->
  is_path p -> head_is tail_start tail = true ->
  rstrip_with isspace (p +:+ tail) = p +:+ tail ->
  normalize_input_url (PyStr (sch +:+ n +:+ p +:+ tail)) =
    Ok (Some ("https://" +:+ host +:+ p)).
Proof.
  intros Hsch Hhost Hn Hpath Htail Hclean.
  destruct (strip_accepted sch n host (p +:+ tail) Hsch Hhost Hn Hclean)
    as [Hstrip Htruthy].
  pose proof (accepted_netloc_of n host Hhost Hn) as Hacc.
  destruct (accepted_netloc n) as (Hnc & _ & _); [by rewrite Hacc|].
  destruct (normalize_adds_scheme sch n host (p +:+ tail) Hsch Hhost Hn)
    as (s & P & Hs & HP & Heq).
  cbv zeta in Heq.
  destruct (urlparse_tail s P n p tail Hs HP Hnc Hpath Htail) as (q & f & Hparse).
  unfold normalize_input_url. rewrite Hstrip, Htruthy. cbn [negb].
  rewrite Heq, Hparse. cbn [res_bind netloc path]. rewrite Hacc, Hhost.
  cbn [negb]. rewrite urlunparse_host_path; [done| |by destruct Hpath].
  by destruct (allowed_host_chars _ Hhost) as (_ & _ & _ & ? & _).
Qed.

(** X5. White space around a URL does not change what the normaliser
    returns. A URL written with one of the five hosts in any letter
    case, with or without [www.] before it, with [http://] or
    [https://] in any letter case, with [//] or with no scheme, and
    with or without a query or a fragment behind its path, normalises
    to [https://], the host in lower case and the path. *)
Theorem X5_normalizer_normal_form :
  (forall ws1 s ws2,
     all_chars isspace ws1 = true -> all_chars isspace ws2 = true ->
     normalize_input_url (PyStr (ws1 +:+ s +:+ ws2)) =
       normalize_input_url (PyStr s)) /\
  (forall sch n host p tail,
     is_http_prefix sch -> host ∈ allowed_hosts ->
     lower n = host \/ lower n = "www." +:+ host ->
     is_path p -> head_is tail_start tail = true ->
     rstrip_with isspace (p +:+ tail) = p +:+ tail ->
     normalize_input_url (PyStr (sch +:+ n +:+ p +:+ tail)) =
       Ok (Some ("https://" +:+ host +:+ p))).
Proof.
  split.
  - intros ws1 s ws2 H1 H2. unfold normalize_input_url.
    by rewrite strip_pad.
  - intros sch n host p tail Hsch Hhost%str_in_elem_of. by apply normalize_written.
Qed.

(** *** A host with a square bracket that is not closed *)

Lemma rstrip_nil_inv p s : rstrip_with p s = "" -> all_chars p s = true.
Proof.
  induction s as [|c s IH]; cbn; [done|].
  destruct (rstrip_with p s) eqn:Hs; [|done].
  destruct (p c); [by intros _; apply IH | done].
Qed.

Lemma rstrip_append_fixed p a b :
  rstrip_with p a = a -> a <> "" ->
  rstrip_with p (a +:+ b) = a +:+ rstrip_with p b.
Proof.
  intros Ha Hne. destruct (rstrip_with p b) eqn:Hb.
  - apply rstrip_nil_inv in Hb. by rewrite rstrip_pad, append_nil_r.
  - rewrite rstrip_append_keep; by rewrite Hb.
Qed.

Lemma head_is_rstrip_delim s :
  head_is netloc_delim s = true ->
  head_is netloc_delim (rstrip_with isspace s) = true.
Proof.
  destruct s as [|c s]; [done|]. cbn [head_is]. intros Hc.
  assert (Hs : isspace c = false).
  { revert Hc. by destruct c as [[] [] [] [] [] [] [] []]. }
  by destruct (rstrip_head isspace c s Hs) as [r ->].
Qed.

Lemma netloc_char_facts n :
  all_chars netloc_char n = true ->
  all_chars (fun c => negb (netloc_delim c)) n = true /\
  all_chars (fun c => negb (unsafe_url_byte c)) n = true /\
  all_chars (fun c => negb (isspace c)) n = true.
Proof.
  intros H. repeat split; revert H; apply all_chars_impl; intros c;
    unfold netloc_char; intros [H1 H2]%andb_prop; [done| |done].
  revert H2. by destruct c as [[] [] [] [] [] [] [] []].
Qed.

Lemma urlparse_unmatched_bracket sch P n rest :
  sch = "http" \/ sch = "https" -> lower P = sch +:+ "://" ->
  all_chars netloc_char n = true -> unmatched_bracket n ->
  head_is netloc_delim rest = true ->
  urlparse (P +:+ n +:+ rest) = Raise ValueError.
Proof.
  intros Hsch HP Hn Hbr Hrest.
  destruct (netloc_char_facts _ Hn) as (Hnd & Hnu & _).
  unfold urlparse. rewrite (urlsplit_http _ _ sch Hsch HP).
  rewrite remove_chars_append, (remove_chars_id _ n) by done.
  apply head_is_delim_remove in Hrest.
  unfold split_hier, split_authority, splitnetloc2.
  cbn [String.append take_str drop_str String.eqb Ascii.eqb Bool.eqb].
  rewrite break_at_append by done. unfold unmatched_bracket in Hbr.
  by destruct (contains "[" n), (contains "]" n).
Qed.

(** X6. A URL with [http://] or [https://] whose host holds an opening
    square bracket and no closing one, or the reverse, is not
    rejected as invalid: the parser raises [ValueError], the normaliser
    does not catch it, and neither does the classifier, which makes no
    request. *)
Theorem X6_unmatched_bracket_raises P n rest net tweet_id w :
  lower P = "http://" \/ lower P = "https://" ->
  all_chars netloc_char n = true -> unmatched_bracket n ->
  head_is netloc_delim rest = true ->
  normalize_input_url (PyStr (P +:+ n +:+ rest)) = Raise ValueError /\
  check_tweet net tweet_id (PyStr (P +:+ n +:+ rest)) w = (Raise ValueError, w).
Proof.
  intros HP Hn Hbr Hrest.
  assert (Hnorm : normalize_input_url (PyStr (P +:+ n +:+ rest))
                  = Raise ValueError).
  { destruct (netloc_char_facts _ Hn) as (_ & _ & Hns).
    assert (Hne : n <> "").
    { intros ->. by apply Hbr. }
    assert (exists sch, (sch = "http" \/ sch = "https") /\
                        lower P = sch +:+ "://") as (sch & Hsch & HP').
    { destruct HP as [HP | HP]; [exists "http" | exists "https"]; auto. }
    assert (exists c P', P = String c P' /\ isspace c = false /\
                         Ascii.eqb "/" c = false) as (c & P' & -> & Hc & Hsl).
    { destruct P as [|c P']; [by destruct HP|]. exists c, P'.
      assert (Hl : ascii_lower c = "h"%char).
      { destruct HP as [HP | HP]; cbn [lower] in HP; by injection HP. }
      split; [done|]. revert Hl. by destruct c as [[] [] [] [] [] [] [] []]. }
    assert (Hstrip : strip (String c P' +:+ n +:+ rest) =
                     String c P' +:+ n +:+ rstrip_with isspace rest).
    { unfold strip. cbn [String.append]. rewrite lstrip_head by done.
      change (String c (P' +:+ n +:+ rest)) with ((String c P') +:+ n +:+ rest).
      rewrite <- !append_assoc. rewrite rstrip_append_fixed.
      - done.
      - apply rstrip_fixed_append; [|done|by apply rstrip_id].
        destruct (rstrip_split isspace (String c P')) as (ws & Hws & Hall).
        destruct ws as [|d ws]; [by rewrite append_nil_r in Hws|].
        exfalso. assert (Hlen : all_chars (fun c => negb (isspace c))
                                  (lower (String c P')) = true).
        { rewrite HP'. by destruct Hsch as [-> | ->]. }
        rewrite all_chars_lower in Hlen by (intros x; by rewrite isspace_lower).
        rewrite Hws, all_chars_append in Hlen.
        apply andb_prop in Hlen as [_ Hlen]. cbn [all_chars] in Hlen, Hall.
        apply andb_prop in Hlen as [Hd _]. apply andb_prop in Hall as [Hd' _].
        by rewrite Hd' in Hd.
      - by destruct n. }
    unfold normalize_input_url. rewrite Hstrip.
    change (truthy_str (String c P' +:+ n +:+ rstrip_with isspace rest)) with true.
    cbn [negb].
    assert (H1 : startswith "//" (String c P' +:+ n +:+ rstrip_with isspace rest)
                 = false).
    { cbn [String.append startswith]. by rewrite Hsl. }
    assert (H2 : has_http_scheme
                   (String c P' +:+ n +:+ rstrip_with isspace rest) = true).
    { unfold has_http_scheme. rewrite lower_append, HP'.
      by destruct Hsch as [-> | ->]. }
    rewrite H1, H2. cbn [negb].
    rewrite (urlparse_unmatched_bracket sch); [done..|].
    by apply head_is_rstrip_delim. }
  split; [exact Hnorm|]. unfold check_tweet. by rewrite Hnorm.
Qed.

(** ** The host rewrite *)


Lemma contains_prefix c a b : contains c (a +:+ b) = false -> contains c a = false.
Proof. rewrite contains_append. by intros [? _]%orb_false_elim. Qed.



(** X8. On [http] and [https] URLs the host rewrite is idempotent:
    rewriting its result again, with the same choice for the query,
    gives the result back. *)
Theorem X8_host_rewrite_idempotent url keep_query out :
  has_http_scheme url = true ->
  convert_to_x_domain url keep_query = Ok out ->
  convert_to_x_domain out keep_query = Ok out.
Proof.
  intros Hhttp Hout. rewrite convert_to_x_domain_eq in Hout.
  destruct (urlparse_http_cases _ Hhttp)
    as (sch & P & r & Hsch & _ & _ & [Hparse | Hparse] & _);
    rewrite Hparse in Hout; [|done].
  cbn [res_bind] in Hout. injection Hout as <-.
  destruct (parse_parts_shape sch _ Hsch (remove_chars_clean _ r))
    as (_ & _ & _ & _ & Hpath & Hquery).
  set (parsed := parse_parts sch (remove_chars unsafe_url_byte r)) in *.
  rewrite urlunparse_x, path_no_insert by by destruct Hpath.
  pose proof (convert_built "https" "x.com" (path parsed)
                (if keep_query then query parsed else "") keep_query
                (or_intror eq_refl) eq_refl Hpath) as Hagain.
  change ("https" +:+ "://" +:+ "x.com" +:+ path parsed +:+ ?t)
    with ("https://x.com" +:+ path parsed +:+ t) in Hagain.
  rewrite Hagain; [|by destruct keep_query]. by destruct keep_query.
Qed.

(** ** The candidate list in order *)

(** The normaliser on a URL of the shape that it returns: the white
    space at the end of the path goes. *)
Lemma normalize_trailing host p :
  str_in host allowed_hosts = true -> is_path p ->
  normalize_input_url (PyStr ("https://" +:+ host +:+ p)) =
    Ok (Some ("https://" +:+ host +:+ rstrip_with isspace p)).
Proof.
  intros Hhost Hpath.
  pose proof (normalize_fixed host _ Hhost (is_path_rstrip _ Hpath)
                (rstrip_idem _ _)) as Hfix.
  destruct (rstrip_split isspace p) as (ws & Hp & Hws).
  rewrite Hp at 1. rewrite <- Hfix. unfold normalize_input_url.
  replace ("https://" +:+ host +:+ rstrip_with isspace p +:+ ws)
    with ("" +:+ ("https://" +:+ host +:+ rstrip_with isspace p) +:+ ws)
    by (cbn [String.append]; by rewrite !append_assoc).
  by rewrite strip_pad.
Qed.

(** A seed that is a normalised URL adds its form on the canonical
    domain. *)
Lemma seed_step_normalised st host p :
  str_in host allowed_hosts = true -> is_path p ->
  seed_step st (PyStr ("https://" +:+ host +:+ p)) =
    Ok (add_candidate ("https://x.com" +:+ rstrip_with isspace p) st).
Proof.
  intros Hhost Hpath.
  destruct (allowed_host_chars _ Hhost) as (Hchars & _ & _ & Htruthy & _).
  pose proof (urlparse_built "https" host p "" (or_intror eq_refl) Hchars Hpath
                eq_refl) as Hparse.
  pose proof (convert_built "https" host _ "" false (or_intror eq_refl) Hchars
                (is_path_rstrip _ Hpath) eq_refl) as Hconv.
  cbn [truthy_str] in Hparse, Hconv. rewrite append_nil_r in Hparse, Hconv.
  change ("https" +:+ "://" +:+ host +:+ ?t) with ("https://" +:+ host +:+ t)
    in Hparse, Hconv.
  unfold seed_step.
  change (truthy (PyStr ("https://" +:+ host +:+ p))) with true.
  change (startswith "//" ("https://" +:+ host +:+ p)) with false.
  cbn [negb]. rewrite has_http_scheme_https. cbn [negb]. rewrite Hparse.
  cbn [res_bind scheme netloc path query or_https truthy_str].
  rewrite urlunparse_host_path; [|done|by destruct Hpath].
  rewrite normalize_trailing by done. cbn [res_bind].
  change (truthy_str ("https://" +:+ host +:+ rstrip_with isspace p)) with true.
  cbn iota. by rewrite Hconv.
Qed.

Lemma add_candidate_snd x st :
  candidates_inv st ->
  (add_candidate x st).2 = if bool_decide (x ∈ st.2) then st.2 else st.2 ++ [x].
Proof.
  destruct st as [seen l]. intros [_ Hseen]. cbn [fst snd] in *.
  unfold add_candidate.
  rewrite (bool_decide_ext (x ∈ seen) (x ∈ l)) by apply Hseen.
  by destruct (bool_decide (x ∈ l)).
Qed.

Lemma add_candidate_again x st :
  candidates_inv st -> x ∈ st.2 -> add_candidate x st = st.
Proof.
  destruct st as [seen l]. intros [_ Hseen] Hx. cbn [fst snd] in *.
  unfold add_candidate. apply Hseen in Hx. by rewrite bool_decide_eq_true_2.
Qed.

Lemma add_candidate_twice x st :
  candidates_inv st -> add_candidate x (add_candidate x st) = add_candidate x st.
Proof.
  intros Hinv. destruct (add_candidate_inv x st Hinv) as (Hinv' & Hx & _).
  by apply add_candidate_again.
Qed.

(** The four templates add the two fallback URLs, each once. *)
Lemma fallback_urls_added st tweet_id :
  candidates_inv st -> all_chars is_digit tweet_id = true ->
  seed_loop (map PyStr (template_seeds tweet_id)) st =
    Ok (add_candidate ("https://x.com/i/status/" +:+ tweet_id)
          (add_candidate ("https://x.com/i/web/status/" +:+ tweet_id) st)).
Proof.
  intros Hinv Hd. rewrite template_seeds_loop by done.
  destruct (add_candidate_inv ("https://x.com/i/web/status/" +:+ tweet_id) st Hinv)
    as (Hinv1 & _).
  rewrite (add_candidate_twice _ st) by done.
  by rewrite add_candidate_twice.
Qed.

Lemma fallback_urls_differ tweet_id :
  "https://x.com/i/web/status/" +:+ tweet_id <>
  "https://x.com/i/status/" +:+ tweet_id.
Proof. intros H. cbn in H. discriminate H. Qed.

(** The list after two different URLs [a] and [b] have been added. *)
Lemma add_two_snd a b st :
  candidates_inv st -> a <> b ->
  (add_candidate b (add_candidate a st)).2 =
    st.2 ++ filter (fun c => c ∉ st.2) [a; b].
Proof.
  intros Hinv Hab.
  destruct (add_candidate_inv a st Hinv) as (Hinv1 & _).
  rewrite (add_candidate_snd b) by done. rewrite (add_candidate_snd a) by done.
  rewrite filter_cons, filter_cons, filter_nil.
  destruct (decide (a ∈ st.2)) as [Ha|Ha].
  - rewrite (bool_decide_eq_true_2 _ Ha).
    rewrite decide_False by (intros H; by apply H).
    destruct (decide (b ∈ st.2)) as [Hb|Hb].
    + rewrite (bool_decide_eq_true_2 _ Hb).
      rewrite decide_False by (intros H; by apply H). by rewrite app_nil_r.
    + rewrite (bool_decide_eq_false_2 _ Hb). by rewrite decide_True.
  - rewrite (bool_decide_eq_false_2 _ Ha). rewrite decide_True by done.
    destruct (decide (b ∈ st.2)) as [Hb|Hb].
    + rewrite bool_decide_eq_true_2 by (apply elem_of_app; by left).
      by rewrite decide_False by (intros H; by apply H).
    + rewrite bool_decide_eq_false_2.
      * rewrite decide_True by done. by rewrite <- app_assoc.
      * intros [H|H%list_elem_of_singleton]%elem_of_app; [done|]. by apply Hab.
Qed.

Lemma candidates_inv_first x : candidates_inv (add_candidate x (∅, [])).
Proof. apply add_candidate_inv, candidates_inv_empty. Qed.

Lemma add_candidate_first x : (add_candidate x (∅, [])).2 = [x].
Proof. by rewrite add_candidate_snd by apply candidates_inv_empty. Qed.

(** X9. Without a canonical URL from the embed probe the candidates
    are, in this order: the normalised input URL moved to [x.com],
    without white space at its end; the fallback URL with
    [/i/web/status/]; the fallback URL with [/i/status/]; a fallback
    URL that equals the first candidate is left out. *)
Theorem X9_candidates_without_canonical_url v n tweet_id canonical_url :
  normalize_input_url v = Ok (Some n) -> is_digits tweet_id ->
  truthy canonical_url = false ->
  exists host p,
    n = "https://" +:+ host +:+ p /\
    host ∈ allowed_hosts /\ head_is is_slash p = true /\
    let first := "https://x.com" +:+ rstrip_with isspace p in
    build_fetch_urls tweet_id n canonical_url =
      Ok (first ::
          filter (fun c => c <> first)
            ["https://x.com/i/web/status/" +:+ tweet_id;
             "https://x.com/i/status/" +:+ tweet_id]).
Proof.
  intros Hn [_ Hd] Hc.
  destruct (normalize_shape _ _ Hn) as (host & p & Hhost & Hpath & ->).
  exists host, p. split; [done|]. split; [by apply str_in_elem_of|].
  split; [by destruct Hpath|]. cbv zeta.
  unfold build_fetch_urls, seeds_of. rewrite Hc, (normalize_truthy _ _ Hn).
  cbn [app seed_loop]. rewrite seed_step_normalised by done. cbn [res_bind].
  rewrite fallback_urls_added by (done || apply candidates_inv_first).
  cbn [res_bind].
  rewrite add_two_snd
    by (apply candidates_inv_first || apply fallback_urls_differ).
  rewrite add_candidate_first. cbn [app]. do 2 f_equal.
  apply list_filter_iff. intros c. rewrite list_elem_of_singleton. done.
Qed.

(** *** A seed with a query *)

Lemma filter_two_ext (P Q : string -> Prop) `{!forall x, Decision (P x)}
    `{!forall x, Decision (Q x)} a b :
  (P a <-> Q a) -> (P b <-> Q b) -> filter P [a; b] = filter Q [a; b].
Proof.
  intros Ha Hb. rewrite !filter_cons, !filter_nil.
  destruct (decide (P a)) as [H1|H1], (decide (Q a)) as [H2|H2];
    try (exfalso; tauto);
    destruct (decide (P b)) as [H3|H3], (decide (Q b)) as [H4|H4];
    try (exfalso; tauto); done.
Qed.

Lemma rstrip_query q :
  rstrip_with isspace (String "?" (rstrip_with isspace q)) =
    String "?" (rstrip_with isspace q).
Proof. cbn [rstrip_with]. rewrite rstrip_idem. by destruct (rstrip_with isspace q). Qed.

(** The normaliser accepts a normalised URL followed by a query. *)
Lemma normalize_with_query host p q :
  str_in host allowed_hosts = true -> is_path p ->
  normalize_input_url (PyStr ("https://" +:+ host +:+ p +:+ "?" +:+ q)) =
    Ok (Some ("https://" +:+ host +:+ p)).
Proof.
  intros Hhost Hpath.
  destruct (allowed_host_chars _ Hhost) as (_ & Hlow & _).
  destruct (rstrip_split isspace q) as (ws & Hq & Hws).
  pose proof (normalize_written "https://" host host p
                (String "?" (rstrip_with isspace q))
                ltac:(unfold is_http_prefix; auto) Hhost (or_introl Hlow) Hpath
                eq_refl) as Hw.
  rewrite <- Hw.
  2: { rewrite rstrip_append_keep; by rewrite rstrip_query. }
  unfold normalize_input_url.
  replace ("https://" +:+ host +:+ p +:+ "?" +:+ q)
    with ("" +:+ ("https://" +:+ host +:+ p +:+
                  String "?" (rstrip_with isspace q)) +:+ ws).
  - by rewrite strip_pad.
  - cbn [String.append]. rewrite Hq at 2.
    rewrite !append_assoc. by cbn [String.append].
Qed.

Lemma seed_step_with_query st host p q :
  str_in host allowed_hosts = true -> is_path p ->
  q <> "" -> all_chars query_char q = true ->
  seed_step st (PyStr ("https://" +:+ host +:+ p +:+ "?" +:+ q)) =
    Ok (add_candidate ("https://x.com" +:+ p +:+ "?" +:+ q)
          (add_candidate ("https://x.com" +:+ rstrip_with isspace p) st)).
Proof.
  intros Hhost Hpath Hne Hq.
  assert (Htq : truthy_str q = true) by by destruct q.
  destruct (allowed_host_chars _ Hhost) as (Hchars & _ & _ & Htruthy & _).
  pose proof (urlparse_built "https" host p q (or_intror eq_refl) Hchars Hpath
                Hq) as Hparse.
  pose proof (convert_built "https" host _ "" false (or_intror eq_refl) Hchars
                (is_path_rstrip _ Hpath) eq_refl) as Hconv.
  pose proof (convert_built "https" host p q true (or_intror eq_refl) Hchars
                Hpath Hq) as Hconvq.
  rewrite Htq in Hparse, Hconvq.
  cbn [truthy_str] in Hconv. rewrite append_nil_r in Hconv.
  change ("https" +:+ "://" +:+ host +:+ ?t) with ("https://" +:+ host +:+ t)
    in Hparse, Hconv, Hconvq.
  unfold seed_step.
  change (truthy (PyStr ("https://" +:+ host +:+ p +:+ "?" +:+ q))) with true.
  change (startswith "//" ("https://" +:+ host +:+ p +:+ "?" +:+ q)) with false.
  cbn [negb]. rewrite has_http_scheme_https. cbn [negb]. rewrite Hparse.
  cbn [res_bind scheme netloc path query or_https truthy_str].
  rewrite (urlunparse_query _ _ _ q) by done.
  rewrite urlunparse_host_path; [|done|by destruct Hpath].
  rewrite normalize_trailing by done. cbn [res_bind].
  change (truthy_str ("https://" +:+ host +:+ rstrip_with isspace p)) with true.
  cbn iota. rewrite Hconv. cbn [res_bind]. rewrite Htq.
  replace (("https://" +:+ host +:+ p) +:+ "?" +:+ q)
    with ("https://" +:+ host +:+ p +:+ "?" +:+ q)
    by (cbn [String.append]; by rewrite !append_assoc).
  rewrite normalize_with_query by done. cbn [res_bind].
  change (truthy_str ("https://" +:+ host +:+ p)) with true. cbn iota.
  by rewrite Hconvq.
Qed.

Lemma digits_no_question d :
  all_chars is_digit d = true -> contains "?" d = false.
Proof.
  intros H. apply contains_false. revert H. apply all_chars_impl.
  intros c. by destruct c as [[] [] [] [] [] [] [] []].
Qed.

(** X10. A seed with a query string gives two candidates: first its
    URL without the query, moved to [x.com] and without white space at
    its end, then its URL with the query, moved to [x.com]; the
    fallback URLs follow. *)
Theorem X10_candidates_of_a_seed_with_query tweet_id host p q :
  is_digits tweet_id -> host ∈ allowed_hosts -> is_path p ->
  q <> "" -> all_chars query_char q = true ->
  let base := "https://x.com" +:+ rstrip_with isspace p in
  build_fetch_urls tweet_id ""
    (PyStr ("https://" +:+ host +:+ p +:+ "?" +:+ q)) =
    Ok (base :: ("https://x.com" +:+ p +:+ "?" +:+ q) ::
        filter (fun c => c <> base)
          ["https://x.com/i/web/status/" +:+ tweet_id;
           "https://x.com/i/status/" +:+ tweet_id]).
Proof.
  intros [_ Hd] Hhost%str_in_elem_of Hpath Hne Hq. cbv zeta.
  set (base := "https://x.com" +:+ rstrip_with isspace p).
  set (withq := "https://x.com" +:+ p +:+ "?" +:+ q).
  assert (Hbq : contains "?" base = false).
  { destruct (is_path_rstrip _ Hpath) as (_ & Hc & _).
    destruct (path_char_facts _ Hc) as (Hc1 & _). unfold base.
    by rewrite contains_append, Hc1. }
  assert (Hwq : contains "?" withq = true).
  { unfold withq. rewrite !contains_append.
    change (contains "?" ("?" +:+ q)) with true. by rewrite !orb_true_r. }
  assert (Hdiff : base <> withq).
  { intros Heq. by rewrite Heq, Hwq in Hbq. }
  assert (Hweb : "https://x.com/i/web/status/" +:+ tweet_id <> withq).
  { intros Heq. rewrite <- Heq, contains_append in Hwq.
    rewrite (digits_no_question _ Hd) in Hwq. vm_compute in Hwq. discriminate. }
  assert (Hst : "https://x.com/i/status/" +:+ tweet_id <> withq).
  { intros Heq. rewrite <- Heq, contains_append in Hwq.
    rewrite (digits_no_question _ Hd) in Hwq. vm_compute in Hwq. discriminate. }
  unfold build_fetch_urls, seeds_of.
  change (truthy (PyStr ("https://" +:+ host +:+ p +:+ "?" +:+ q))) with true.
  cbn [truthy_str app seed_loop]. rewrite seed_step_with_query by done.
  cbn [res_bind]. fold base withq.
  assert (Hinv : candidates_inv (add_candidate withq (add_candidate base (∅, [])))).
  { apply add_candidate_inv, candidates_inv_first. }
  assert (Hl : (add_candidate withq (add_candidate base (∅, []))).2 = [base; withq]).
  { rewrite add_candidate_snd by apply candidates_inv_first.
    rewrite add_candidate_first. rewrite bool_decide_eq_false_2; [done|].
    intros H%list_elem_of_singleton. by apply Hdiff. }
  rewrite fallback_urls_added by done. cbn [res_bind].
  rewrite add_two_snd by (done || apply fallback_urls_differ).
  rewrite Hl. cbn [app]. do 3 f_equal.
  apply filter_two_ext; rewrite !elem_of_cons, elem_of_nil; split;
    intros H; try tauto; intros ->; apply H; auto.
Qed.

(** ** The classifier: every outcome it returns *)

Lemma fetch_inv_weaken net fetched fetched' st :
  (forall u, u ∈ fetched -> u ∈ fetched') ->
  fetch_inv net fetched st -> fetch_inv net fetched' st.
Proof.
  unfold fetch_inv. intros Hsub. destruct (last_status st) as [s|]; [|done].
  intros (H1 & H2 & u & past & j & H3 & H4 & H5).
  split; [done|]. split; [done|]. exists u, past, j. auto.
Qed.

Lemma fetch_loop_cases net fetch_urls :
  forall fetched st w r w',
    fetch_inv net fetched st ->
    fetch_loop net 200 200 fetch_urls st w = (r, w') ->
    match r with
    | inl o =>
        exists s u past j,
          u ∈ fetch_urls /\ net past (BotGet u) = Response s j /\
          o = fetched_outcome s u
    | inr st' => fetch_inv net (fetched ++ fetch_urls) st'
    end.
Proof.
  induction fetch_urls as [|c rest IH]; intros fetched st w r w' Hinv.
  - intros [= <- <-]. by rewrite app_nil_r.
  - cbn [fetch_loop]. unfold send.
    assert (Hgo : forall st1 w1,
              fetch_inv net (fetched ++ [c]) st1 ->
              fetch_loop net 200 200 rest st1 w1 = (r, w') ->
              match r with
              | inl o =>
                  exists s u past j,
                    u ∈ c :: rest /\ net past (BotGet u) = Response s j /\
                    o = fetched_outcome s u
              | inr st' => fetch_inv net (fetched ++ c :: rest) st'
              end).
    { intros st1 w1 Hinv1 Hrun. apply (IH _ _ _ _ _ Hinv1) in Hrun.
      destruct r as [o|st'].
      - destruct Hrun as (s & u & past & j & Hu & ?).
        exists s, u, past, j. split; [by apply elem_of_cons; right | done].
      - by rewrite <- app_assoc in Hrun. }
    destruct (net (requests w) (BotGet c)) as [exc|s j] eqn:Hnet.
    { apply Hgo. eapply fetch_inv_weaken; [|exact Hinv].
      intros u Hu. apply elem_of_app. by left. }
    assert (Hret : forall a d,
              fetch_verdict s = (a, d) ->
              (inl (mkOutcome a (Some s) d (Some 200%Z) (Some c)),
               mkWorld (requests w ++ [BotGet c]) (calls w)) = (r, w') ->
              match r with
              | inl o =>
                  exists s u past j,
                    u ∈ c :: rest /\ net past (BotGet u) = Response s j /\
                    o = fetched_outcome s u
              | inr st' => fetch_inv net (fetched ++ c :: rest) st'
              end).
    { intros a d Hv [= <- <-]. exists s, c, (requests w), j.
      split; [by apply elem_of_cons; left|]. split; [done|].
      unfold fetched_outcome. by rewrite Hv. }
    unfold fetch_verdict in Hret.
    destruct (s =? 200)%Z eqn:E1; [by apply Hret|].
    destruct ((s =? 401)%Z || (s =? 403)%Z) eqn:E2; [by apply Hret|].
    destruct (s =? 410)%Z eqn:E3; [by apply Hret|].
    destruct (s =? 429)%Z eqn:E4; [by apply Hret|].
    destruct (s =? 451)%Z eqn:E5; [by apply Hret|].
    assert (Hnd : spec_decisive s = None).
    { unfold spec_decisive. by rewrite E1, E2, E3, E4, E5. }
    assert (Hnext : forall d,
              (fetch_verdict s).2 = Some d ->
              fetch_inv net (fetched ++ [c])
                (mkFetch (Some s) (Some d) (Some c) (last_exception st))).
    { intros d Hd. unfold fetch_inv. cbn [last_status last_detail last_url].
      split; [done|]. split; [done|]. exists c, (requests w), j.
      split; [done|]. split; [|done]. apply elem_of_app. right.
      by apply list_elem_of_singleton. }
    unfold fetch_verdict in Hnext. rewrite E1, E2, E3, E4, E5 in Hnext.
    destruct (s =? 404)%Z eqn:E6; apply Hgo; by apply Hnext.
Qed.

(** The last HTTP response among the attempts is the reply to one of
    the candidates, fetched after those before it. *)
Lemma last_response_split net fetch_urls :
  forall past u s,
    last (http_responses (attempts net past fetch_urls)) = Some (u, s) ->
    exists pre rest j,
      fetch_urls = pre ++ u :: rest /\
      net (past ++ map BotGet pre) (BotGet u) = Response s j.
Proof.
  induction fetch_urls as [|c l IH]; intros past u s; [done|].
  cbn [attempts]. unfold http_responses. cbn [omap list_omap fst snd].
  assert (Hgo : last (http_responses (attempts net (past ++ [BotGet c]) l)) =
                  Some (u, s) ->
                exists pre rest j,
                  c :: l = pre ++ u :: rest /\
                  net (past ++ map BotGet pre) (BotGet u) = Response s j).
  { intros H. apply IH in H as (pre & rest & j & -> & Hj).
    exists (c :: pre), rest, j. split; [done|].
    cbn [map]. by rewrite <- app_assoc in Hj. }
  destruct (net past (BotGet c)) as [exc|s0 j0] eqn:Hnet; [exact Hgo|].
  rewrite last_cons. fold (http_responses (attempts net (past ++ [BotGet c]) l)).
  destruct (last (http_responses _)) as [p|]; [exact Hgo|].
  intros [= <- <-]. exists [], l, j0. cbn [app map]. by rewrite app_nil_r.
Qed.

(** Where the loop over the candidates stops. *)
Lemma fetch_loop_trace net os sc fetch_urls :
  forall st w r w',
    fetch_loop net os sc fetch_urls st w = (r, w') ->
    match r with
    | inl o =>
        exists pre u rest s j a d,
          fetch_urls = pre ++ u :: rest /\
          Forall indecisive (attempts net (requests w) pre) /\
          net (requests w ++ map BotGet pre) (BotGet u) = Response s j /\
          spec_decisive s = Some a /\
          o = mkOutcome a (Some s) d (Some os) (Some u) /\
          requests w' = requests w ++ map BotGet (pre ++ [u])
    | inr _ => Forall indecisive (attempts net (requests w) fetch_urls)
    end.
Proof.
  induction fetch_urls as [|c l IH]; intros st w r w'.
  - intros [= <- <-]. constructor.
  - cbn [fetch_loop attempts]. unfold send.
    assert (Hgo : forall st1,
              indecisive (c, net (requests w) (BotGet c)) ->
              fetch_loop net os sc l st1
                (mkWorld (requests w ++ [BotGet c]) (calls w)) = (r, w') ->
              match r with
              | inl o =>
                  exists pre u rest s j a d,
                    c :: l = pre ++ u :: rest /\
                    Forall indecisive (attempts net (requests w) pre) /\
                    net (requests w ++ map BotGet pre) (BotGet u) =
                      Response s j /\
                    spec_decisive s = Some a /\
                    o = mkOutcome a (Some s) d (Some os) (Some u) /\
                    requests w' = requests w ++ map BotGet (pre ++ [u])
              | inr _ =>
                  Forall indecisive
                    ((c, net (requests w) (BotGet c))
                     :: attempts net (requests w ++ [BotGet c]) l)
              end).
    { intros st1 Hc Hrun. apply IH in Hrun. cbn [requests] in Hrun.
      destruct r as [o|st']; [|by apply Forall_cons].
      destruct Hrun as (pre & u & rest & s & j & a & d & -> & Hpre & Hu & Ha
                        & -> & Hw).
      exists (c :: pre), u, rest, s, j, a, d. split; [done|].
      split; [by apply Forall_cons|].
      rewrite <- app_assoc in Hu, Hw. by cbn [map app]. }
    assert (Hret : forall s j a d,
              net (requests w) (BotGet c) = Response s j ->
              spec_decisive s = Some a ->
              (inl (mkOutcome a (Some s) d (Some os) (Some c)),
               mkWorld (requests w ++ [BotGet c]) (calls w)) = (r, w') ->
              match r with
              | inl o =>
                  exists pre u rest s j a d,
                    c :: l = pre ++ u :: rest /\
                    Forall indecisive (attempts net (requests w) pre) /\
                    net (requests w ++ map BotGet pre) (BotGet u) =
                      Response s j /\
                    spec_decisive s = Some a /\
                    o = mkOutcome a (Some s) d (Some os) (Some u) /\
                    requests w' = requests w ++ map BotGet (pre ++ [u])
              | inr _ =>
                  Forall indecisive
                    ((c, Response s j)
                     :: attempts net (requests w ++ [BotGet c]) l)
              end).
    { intros s j a d Hnet Ha [= <- <-]. exists [], c, l, s, j, a, d.
      split; [done|]. split; [constructor|]. cbn [map app].
      by rewrite app_nil_r. }
    destruct (net (requests w) (BotGet c)) as [exc|s j] eqn:Hnet.
    { by apply Hgo. }
    specialize (Hret s j). unfold spec_decisive in Hret.
    destruct (s =? 200)%Z eqn:E1; [by eapply Hret|].
    destruct ((s =? 401)%Z || (s =? 403)%Z) eqn:E2; [by eapply Hret|].
    destruct (s =? 410)%Z eqn:E3; [by eapply Hret|].
    destruct (s =? 429)%Z eqn:E4; [by eapply Hret|].
    destruct (s =? 451)%Z eqn:E5; [by eapply Hret|].
    assert (Hnd : indecisive (c, Response s j)).
    { unfold indecisive, spec_decisive. cbn [snd].
      by rewrite E1, E2, E3, E4, E5. }
    destruct (s =? 404)%Z; by apply Hgo.
Qed.

Lemma fetch_verdict_indecisive s :
  spec_decisive s = None ->
  (fetch_verdict s).1 = (if (s =? 404)%Z then not_found else unknown).
Proof.
  unfold fetch_verdict. intros (-> & -> & -> & -> & ->)%spec_decisive_None.
  by destruct (s =? 404)%Z.
Qed.

Lemma fetch_verdict_public s : (fetch_verdict s).1 = public -> s = 200%Z.
Proof.
  unfold fetch_verdict. destruct (Z.eqb_spec s 200) as [->|_]; [done|].
  destruct ((s =? 401)%Z || (s =? 403)%Z); [done|].
  destruct (s =? 410)%Z; [done|]. destruct (s =? 429)%Z; [done|].
  destruct (s =? 451)%Z; [done|]. by destruct (s =? 404)%Z.
Qed.

(** Phase 2 after a 200 of the embed probe: the outcome of a candidate
    that the loop reached, or an [error] when no fetch was answered.
    A decisive status ends the requests at its candidate. *)
Lemma phase2_cases net tweet_id n canonical_url w o w' :
  phase2 net tweet_id n 200 200 canonical_url w = (Ok o, w') ->
  (exists fetch_urls pre s u,
     build_fetch_urls tweet_id n canonical_url = Ok fetch_urls /\
     fetch_reached net (requests w) fetch_urls pre u s /\
     o = fetched_outcome s u /\
     (is_Some (spec_decisive s) ->
      requests w' = requests w ++ map BotGet (pre ++ [u]))) \/
  (exists last_failure,
     o = mkOutcome error None (Some (failure_detail last_failure))
           (Some 200%Z) None).
Proof.
  unfold phase2.
  destruct (build_fetch_urls _ _ _) as [fetch_urls|] eqn:Hb; [|done].
  destruct (fetch_loop _ _ _ _ _ _) as [r w1] eqn:Hloop.
  pose proof (fetch_loop_trace _ _ _ _ _ _ _ _ Hloop) as Ht.
  pose proof Hloop as Hc. apply (fetch_loop_cases _ _ []) in Hc; [|done].
  destruct r as [o1|st]; intros [= <- <-].
  - left. destruct Ht as (pre & u & rest & s & j & a & d & Hl & Hpre & Hu & Ha
                          & Ho & Hw).
    destruct Hc as (s' & u' & past & j' & _ & _ & Ho').
    rewrite Ho' in Ho. injection Ho as _ <- _ <-.
    exists fetch_urls, pre, s', u'. split; [done|].
    split; [by exists rest, j|]. by split.
  - destruct (fetch_loop_exhausted net 200 200 fetch_urls
                (mkFetch None None None None) w Ht)
      as (st' & Hrun & H1 & H2 & _).
    rewrite Hloop in Hrun. injection Hrun as <- _.
    cbn [last_status last_url] in H1, H2.
    unfold fetch_inv in Hc. unfold after_loop.
    destruct (last (http_responses _)) as [[url status]|] eqn:Hlast;
      cbn [fst snd] in H1, H2; rewrite H1 in Hc |- *.
    + left. destruct Hc as (Hnd & Hd & _).
      apply last_response_split in Hlast as (pre & rest & j & Hl & Hu).
      exists fetch_urls, pre, status, url. split; [done|]. split.
      * exists rest, j. split; [done|]. split; [|done].
        rewrite Hl, attempts_app in Ht. by apply Forall_app in Ht as [? _].
      * split.
        -- unfold fetched_outcome.
           by rewrite H2, Hd, (fetch_verdict_indecisive _ Hnd).
        -- rewrite Hnd. by intros [? ?].
    + right. by exists (last_exception st).
Qed.

Lemma probe_verdict_eq sc :
  probe_verdict sc =
    (if (sc =? 401)%Z || (sc =? 403)%Z then restricted
     else if (sc =? 404)%Z then not_found
     else if (sc =? 429)%Z then rate_limited
     else unknown,
     if (sc =? 401)%Z || (sc =? 403)%Z
     then "Tweet requires authentication or is protected"
     else if (sc =? 404)%Z then "Tweet not found or removed"
     else if (sc =? 429)%Z then "Rate limited by Twitter oEmbed endpoint"
     else "Unexpected " +:+ str_of_int sc +:+ " response from oEmbed").
Proof.
  unfold probe_verdict. destruct ((sc =? 401)%Z || (sc =? 403)%Z); [done|].
  destruct (sc =? 404)%Z; [done|]. by destruct (sc =? 429)%Z.
Qed.

(** The five kinds of outcome of the classifier. *)
Lemma check_tweet_cases net tweet_id original_url w o w' :
  check_tweet net tweet_id original_url w = (Ok o, w') ->
  (o = mkOutcome invalid_url None (Some "URL could not be normalized")
         None None /\ w' = w) \/
  (exists exc,
     o = mkOutcome error None (Some ("oEmbed request failed: " +:+ exc))
           None None) \/
  (exists sc,
     sc <> 200%Z /\
     o = mkOutcome (probe_verdict sc).1 (Some sc) (Some (probe_verdict sc).2)
           (Some sc) None) \/
  (exists n json a0 d0 canonical_url fetch_urls pre s u,
     normalize_input_url original_url = Ok (Some n) /\
     net (requests w) (OembedGet n) = Response 200 json /\
     oembed_200 json = Ok (a0, d0, canonical_url) /\
     build_fetch_urls tweet_id n canonical_url = Ok fetch_urls /\
     fetch_reached net (requests w ++ [OembedGet n]) fetch_urls pre u s /\
     o = fetched_outcome s u /\
     (is_Some (spec_decisive s) ->
      requests w' = requests w ++ OembedGet n :: map BotGet (pre ++ [u]))) \/
  (exists last_failure,
     o = mkOutcome error None (Some (failure_detail last_failure))
           (Some 200%Z) None).
Proof.
  destruct (normalize_input_url original_url) as [[n|]|e] eqn:Hn.
  - rewrite (check_tweet_probe _ _ _ _ _ Hn). cbv zeta.
    destruct (net (requests w) (OembedGet n)) as [exc|sc json] eqn:Hnet.
    { intros [= <- <-]. right. left. by exists exc. }
    destruct (Z.eqb_spec sc 200) as [->|Hsc].
    + destruct (oembed_200 json) as [[[a0 d0] canonical_url]|] eqn:Hjson;
        [|done].
      intros [H|H]%phase2_cases.
      * right. right. right. left.
        destruct H as (fetch_urls & pre & s & u & Hb & Hr & Ho & Hw).
        exists n, json, a0, d0, canonical_url, fetch_urls, pre, s, u.
        repeat (split; [done|]). intros Hs. rewrite (Hw Hs).
        cbn [requests]. by rewrite <- app_assoc.
      * by do 4 right.
    + intros [= <- <-]. right. right. left. exists sc. split; [done|].
      by rewrite probe_verdict_eq.
  - rewrite (check_tweet_invalid _ _ _ _ Hn). intros [= <- <-]. by left.
  - unfold check_tweet. by rewrite Hn.
Qed.

Ltac outcome_fields :=
  cbn; repeat split; intros;
  repeat match goal with
         | H : _ \/ _ |- _ => destruct H
         | H : _ /\ _ |- _ => destruct H
         | H : is_Some None |- _ => by destruct H
         end;
  try discriminate; try done; eauto.

(** X11. When the embed probe answers 200 with a body that parses to
    something other than an object, or to an object whose [url] is a
    value that counts as true and is no string, the classifier raises
    [AttributeError] after this one request: no candidate is fetched
    and no outcome is returned. *)
Theorem X11_malformed_embed_body_raises net tweet_id original_url w n json :
  normalize_input_url original_url = Ok (Some n) ->
  net (requests w) (OembedGet n) = Response 200 json ->
  json = JsonOther \/ json = JsonObject (PyOther true) ->
  check_tweet net tweet_id original_url w =
    (Raise AttributeError, mkWorld (requests w ++ [OembedGet n]) (calls w)).
Proof.
  intros Hn Hnet Hjson. rewrite (check_tweet_probe _ _ _ _ _ Hn). cbv zeta.
  rewrite Hnet. by destruct Hjson as [-> | ->].
Qed.

(** X12. The fields of an outcome go together. There is no HTTP status
    exactly when the availability is [invalid_url] or [error]; there is
    no detail exactly when it is [public]; a checked URL comes with a
    200 of the embed probe and with an HTTP status; [public], [gone]
    and [unavailable_legal] come with a checked URL; without a status
    of the embed probe there is no HTTP status and no checked URL. *)
Theorem X12_outcome_fields_agree net tweet_id original_url w o w' :
  check_tweet net tweet_id original_url w = (Ok o, w') ->
  (http_status o = None <->
   availability o = invalid_url \/ availability o = error) /\
  (detail o = None <-> availability o = public) /\
  (is_Some (checked_url o) ->
   oembed_status o = Some 200%Z /\ is_Some (http_status o)) /\
  (availability o = public \/ availability o = gone \/
   availability o = unavailable_legal -> is_Some (checked_url o)) /\
  (oembed_status o = None -> http_status o = None /\ checked_url o = None).
Proof.
  intros [[-> _] | [[exc ->] | [(sc & _ & ->) | [H | [f ->]]]]]%check_tweet_cases.
  - outcome_fields.
  - outcome_fields.
  - unfold probe_verdict. destruct ((sc =? 401)%Z || (sc =? 403)%Z);
      [outcome_fields|].
    destruct (sc =? 404)%Z; [outcome_fields|].
    destruct (sc =? 429)%Z; outcome_fields.
  - destruct H as (n & json & a0 & d0 & cu & fetch_urls & pre & s & u & _ & _
                   & _ & _ & _ & -> & _).
    unfold fetched_outcome, fetch_verdict.
    destruct (s =? 200)%Z; [outcome_fields|].
    destruct ((s =? 401)%Z || (s =? 403)%Z); [outcome_fields|].
    destruct (s =? 410)%Z; [outcome_fields|].
    destruct (s =? 429)%Z; [outcome_fields|].
    destruct (s =? 451)%Z; [outcome_fields|].
    destruct (s =? 404)%Z; outcome_fields.
  - outcome_fields.
Qed.

(** X14. An outcome with a checked URL is the verdict on one fetch of
    the run. The embed probe of the run was answered 200, the
    candidates were built from the normalised URL and the canonical
    URL of that reply, and the checked URL is one of them, on [x.com]:
    the candidates before it were fetched first without a decisive
    status, and its own fetch, made after them, was answered with the
    HTTP status of the outcome; availability and detail are the ones
    of that status, and a 404 of a fetch always carries the text about
    the success of the embed probe. The text [Tweet not found or
    removed] belongs to the 404 of the embed probe alone: it is the
    detail exactly of the [not_found] outcomes without checked URL. *)
Theorem X14_checked_url_verdict net tweet_id original_url w o w' :
  check_tweet net tweet_id original_url w = (Ok o, w') ->
  (forall u,
     checked_url o = Some u ->
     exists n json a0 d0 canonical_url fetch_urls pre s,
       normalize_input_url original_url = Ok (Some n) /\
       net (requests w) (OembedGet n) = Response 200 json /\
       oembed_200 json = Ok (a0, d0, canonical_url) /\
       build_fetch_urls tweet_id n canonical_url = Ok fetch_urls /\
       fetch_reached net (requests w ++ [OembedGet n]) fetch_urls pre u s /\
       on_x_domain u /\
       http_status o = Some s /\ oembed_status o = Some 200%Z /\
       availability o = (fetch_verdict s).1 /\ detail o = (fetch_verdict s).2) /\
  (detail o = Some "Tweet not found or removed" <->
   availability o = not_found /\ checked_url o = None).
Proof.
  intros [[-> _] | [[exc ->] | [(sc & _ & ->) | [H | [f ->]]]]]%check_tweet_cases.
  - outcome_fields.
  - outcome_fields.
  - unfold probe_verdict. destruct ((sc =? 401)%Z || (sc =? 403)%Z);
      [outcome_fields|].
    destruct (sc =? 404)%Z; [outcome_fields|].
    destruct (sc =? 429)%Z; outcome_fields.
  - destruct H as (n & json & a0 & d0 & cu & fetch_urls & pre & s & u & Hn & Hnet
                   & Hjson & Hb & Hr & -> & _).
    assert (Hx : on_x_domain u).
    { destruct Hr as (rest & j & Hl & _). subst fetch_urls.
      apply (build_fetch_urls_on_x_domain _ _ _ _ _ Hb).
      apply elem_of_app. right. by apply elem_of_cons; left. }
    split.
    + intros u' [= <-].
      by exists n, json, a0, d0, cu, fetch_urls, pre, s.
    + clear Hr. unfold fetched_outcome, fetch_verdict.
      destruct (s =? 200)%Z; [outcome_fields|].
      destruct ((s =? 401)%Z || (s =? 403)%Z); [outcome_fields|].
      destruct (s =? 410)%Z; [outcome_fields|].
      destruct (s =? 429)%Z; [outcome_fields|].
      destruct (s =? 451)%Z; [outcome_fields|].
      destruct (s =? 404)%Z; outcome_fields.
  - unfold failure_detail. destruct f as [exc|]; [|outcome_fields].
    destruct (truthy_str exc); outcome_fields.
Qed.

(** C9. A [public] outcome has the HTTP status 200 and a checked URL
    that is one of the candidates of phase 2 of this run: the embed
    probe was answered 200, the candidates were built from the
    normalised URL and the canonical URL of that reply, the candidates
    before the checked URL were fetched without a decisive status, the
    fetch of the checked URL, made after them, was answered 200, and it
    is the last request of the run. The 200 of the embed probe alone
    gives no [public] outcome: there is always such a fetch. *)
Theorem C9_public_outcome net tweet_id original_url w o w' :
  check_tweet net tweet_id original_url w = (Ok o, w') ->
  availability o = public ->
  http_status o = Some 200%Z /\
  exists n json a0 d0 canonical_url fetch_urls pre c rest j,
    normalize_input_url original_url = Ok (Some n) /\
    net (requests w) (OembedGet n) = Response 200 json /\
    oembed_200 json = Ok (a0, d0, canonical_url) /\
    build_fetch_urls tweet_id n canonical_url = Ok fetch_urls /\
    fetch_urls = pre ++ c :: rest /\
    checked_url o = Some c /\
    Forall indecisive (attempts net (requests w ++ [OembedGet n]) pre) /\
    net (requests w ++ OembedGet n :: map BotGet pre) (BotGet c) =
      Response 200 j /\
    requests w' = requests w ++ OembedGet n :: map BotGet (pre ++ [c]).
Proof.
  intros [[-> _] | [[exc ->] | [(sc & _ & ->) | [H | [f ->]]]]]%check_tweet_cases
    Hpub; try discriminate Hpub.
  - exfalso. revert Hpub. unfold probe_verdict. cbn.
    destruct ((sc =? 401)%Z || (sc =? 403)%Z); [done|].
    destruct (sc =? 404)%Z; [done|]. by destruct (sc =? 429)%Z.
  - destruct H as (n & json & a0 & d0 & cu & fetch_urls & pre & s & u & Hn & Hnet
                   & Hjson & Hb & (rest & j & Hl & Hpre & Hu) & -> & Hw).
    cbn [availability fetched_outcome] in Hpub.
    apply fetch_verdict_public in Hpub as ->. split; [done|].
    exists n, json, a0, d0, cu, fetch_urls, pre, u, rest, j.
    repeat (split; [done|]). split.
    + by rewrite <- app_assoc in Hu.
    + apply Hw. by eexists.
Qed.

(** *** The requests of one classification *)

Lemma fetch_loop_requests net os sc fetch_urls :
  forall st w r w',
    fetch_loop net os sc fetch_urls st w = (r, w') ->
    calls w' = calls w /\
    exists fetched rest,
      fetch_urls = fetched ++ rest /\
      requests w' = requests w ++ map BotGet fetched.
Proof.
  induction fetch_urls as [|c urls IH]; intros st w r w'.
  - intros [= <- <-]. split; [done|]. exists [], []. split; [done|].
    cbn [map]. by rewrite app_nil_r.
  - cbn [fetch_loop]. unfold send.
    assert (Hgo : forall st1,
              fetch_loop net os sc urls st1
                (mkWorld (requests w ++ [BotGet c]) (calls w)) = (r, w') ->
              calls w' = calls w /\
              exists fetched rest,
                c :: urls = fetched ++ rest /\
                requests w' = requests w ++ map BotGet fetched).
    { intros st1 Hrun.
      destruct (IH _ _ _ _ Hrun) as (Hc & fetched & rest & -> & Hreq).
      cbn [requests calls] in *. split; [done|].
      exists (c :: fetched), rest. split; [done|].
      by rewrite Hreq, <- app_assoc. }
    assert (Hret : forall o,
              (inl o, mkWorld (requests w ++ [BotGet c]) (calls w)) = (r, w') ->
              calls w' = calls w /\
              exists fetched rest,
                c :: urls = fetched ++ rest /\
                requests w' = requests w ++ map BotGet fetched).
    { intros o [= <- <-]. split; [done|]. by exists [c], urls. }
    destruct (net (requests w) (BotGet c)) as [exc|s j]; [by apply Hgo|].
    destruct (s =? 200)%Z; [by apply Hret|].
    destruct ((s =? 401)%Z || (s =? 403)%Z); [by apply Hret|].
    destruct (s =? 410)%Z; [by apply Hret|].
    destruct (s =? 429)%Z; [by apply Hret|].
    destruct (s =? 451)%Z; [by apply Hret|].
    destruct (s =? 404)%Z; by apply Hgo.
Qed.

Lemma build_fetch_urls_NoDup tweet_id normalized_url canonical_url fetch_urls :
  build_fetch_urls tweet_id normalized_url canonical_url = Ok fetch_urls ->
  NoDup fetch_urls.
Proof.
  unfold build_fetch_urls.
  destruct (seed_loop _ (∅, [])) as [st1|] eqn:H1; [|done].
  cbn [res_bind]. intros [= <-].
  by destruct (seed_loop_inv _ _ _ H1 candidates_inv_empty) as ([? _] & _).
Qed.

Lemma NoDup_requests n fetched :
  NoDup fetched -> NoDup (OembedGet n :: map BotGet fetched).
Proof.
  intros Hnd. apply NoDup_cons. split.
  - intros (u & [=] & _)%list_elem_of_fmap.
  - apply NoDup_fmap_2; [|done]. by intros x y [= ->].
Qed.

(** X13. One classification, whether it returns or raises, makes no
    request at all, which is the case when the normaliser gives no
    URL; or the embed request for the normalised URL alone; or, after
    a 200 of that request, that request and then fetches of the first
    candidates of the list built from the normalised URL and the
    canonical URL of its reply, in their order, all on [x.com]. No
    request is made twice. The history of the batch loop is left
    alone. *)
Theorem X13_requests_of_a_classification net tweet_id original_url w r w' :
  check_tweet net tweet_id original_url w = (r, w') ->
  calls w' = calls w /\
  exists new,
    requests w' = requests w ++ new /\ NoDup new /\
    classification_requests net (requests w) tweet_id original_url new.
Proof.
  unfold classification_requests.
  destruct (normalize_input_url original_url) as [[n|]|e] eqn:Hn.
  - rewrite (check_tweet_probe _ _ _ _ _ Hn). cbv zeta.
    assert (Hone : forall r0,
              (r0, mkWorld (requests w ++ [OembedGet n]) (calls w)) = (r, w') ->
              calls w' = calls w /\
              exists new,
                requests w' = requests w ++ new /\ NoDup new /\
                ((new = [] /\
                  (Ok (Some n) = Ok None \/
                   exists e, @Ok (option string) (Some n) = Raise e)) \/
                 exists n0,
                   @Ok (option string) (Some n) = Ok (Some n0) /\
                   (new = [OembedGet n0] \/
                    exists json a0 d0 canonical_url fetched rest,
                      net (requests w) (OembedGet n0) = Response 200 json /\
                      oembed_200 json = Ok (a0, d0, canonical_url) /\
                      build_fetch_urls tweet_id n0 canonical_url =
                        Ok (fetched ++ rest) /\
                      new = OembedGet n0 :: map BotGet fetched /\
                      Forall on_x_domain fetched))).
    { intros r0 [= <- <-]. split; [done|]. exists [OembedGet n].
      split; [done|]. split; [apply (NoDup_requests n []), NoDup_nil_2|].
      right. exists n. split; [done | by left]. }
    destruct (net (requests w) (OembedGet n)) as [exc|sc json] eqn:Hnet;
      [by apply Hone|].
    destruct (Z.eqb_spec sc 200) as [->|_]; [|by apply Hone].
    destruct (oembed_200 json) as [[[a0 d0] canonical_url]|] eqn:Hjson;
      [|by apply Hone].
    unfold phase2.
    destruct (build_fetch_urls tweet_id n canonical_url) as [fetch_urls|] eqn:Hb;
      [|by apply Hone].
    destruct (fetch_loop _ _ _ _ _ _) as [r1 w1] eqn:Hloop.
    apply fetch_loop_requests in Hloop as (Hc & fetched & rest & -> & Hreq).
    cbn [requests calls] in Hc, Hreq.
    pose proof (build_fetch_urls_NoDup _ _ _ _ Hb) as Hnd.
    apply NoDup_app in Hnd as (Hnd & _).
    assert (Hw : calls w1 = calls w /\
              exists new,
                requests w1 = requests w ++ new /\ NoDup new /\
                ((new = [] /\
                  (Ok (Some n) = Ok None \/
                   exists e, @Ok (option string) (Some n) = Raise e)) \/
                 exists n0,
                   @Ok (option string) (Some n) = Ok (Some n0) /\
                   (new = [OembedGet n0] \/
                    exists json a0 d0 canonical_url fetched rest,
                      net (requests w) (OembedGet n0) = Response 200 json /\
                      oembed_200 json = Ok (a0, d0, canonical_url) /\
                      build_fetch_urls tweet_id n0 canonical_url =
                        Ok (fetched ++ rest) /\
                      new = OembedGet n0 :: map BotGet fetched /\
                      Forall on_x_domain fetched))).
    { split; [done|]. exists (OembedGet n :: map BotGet fetched).
      split; [by rewrite Hreq, <- app_assoc|].
      split; [by apply NoDup_requests|]. right. exists n. split; [done|].
      right. exists json, a0, d0, canonical_url, fetched, rest.
      repeat (split; [done|]). apply Forall_forall. intros u Hu.
      apply (build_fetch_urls_on_x_domain _ _ _ _ _ Hb).
      apply elem_of_app. by left. }
    by destruct r1; intros [= <- <-].
  - rewrite (check_tweet_invalid _ _ _ _ Hn). intros [= <- <-].
    split; [done|]. exists []. rewrite app_nil_r. split; [done|].
    split; [apply NoDup_nil_2|]. left. split; [done | by left].
  - unfold check_tweet. rewrite Hn. intros [= <- <-].
    split; [done|]. exists []. rewrite app_nil_r. split; [done|].
    split; [apply NoDup_nil_2|]. left. split; [done|]. right. by exists e.
Qed.

(** ** The batch loop: rows that share an identifier, and a raise *)


Lemma main_loop_app net checked_at rows1 rows2 :
  forall st w,
    main_loop net checked_at (rows1 ++ rows2) st w =
      match main_loop net checked_at rows1 st w with
      | (Ok st1, w1) => main_loop net checked_at rows2 st1 w1
      | (Raise e, w1) => (Raise e, w1)
      end.
Proof.
  induction rows1 as [|u rows1 IH]; intros st w; [done|].
  cbn [app main_loop].
  destruct (main_row net checked_at u st w) as [[st1|e] w1]; [apply IH | done].
Qed.


(** X16. A classification that raises ends the batch: when the rows
    before have been worked off and the classifier raises on the next
    row, whose identifier is not in the cache, the run raises the same
    exception; the rows after it are not looked at, no request follows
    and no list of results is returned. The loops of the script and of
    the app agree. *)
Theorem X16_raise_ends_batch net checked_at before url after w cache results
    w0 tweet_id e w1 :
  main_loop net checked_at before (∅, []) w = (Ok (cache, results), w0) ->
  extract_tweet_id url = Some tweet_id -> cache !! tweet_id = None ->
  check_tweet net tweet_id url (mkWorld (requests w0) (calls w0 ++ [tweet_id])) =
    (Raise e, w1) ->
  main_results net checked_at (before ++ url :: after) w = (Raise e, w1) /\
  run_checks net checked_at (before ++ url :: after) w = (Raise e, w1).
Proof.
  intros Hbefore Hid Hcache Hcheck.
  assert (Hmain : main_loop net checked_at (before ++ url :: after) (∅, []) w =
                  (Raise e, w1)).
  { rewrite main_loop_app, Hbefore. cbn [main_loop main_row].
    rewrite Hid, (extract_tweet_id_truthy _ _ Hid). cbn [negb].
    unfold fill_cache. by rewrite Hcache, Hcheck. }
  unfold main_results, run_checks. split; [by rewrite Hmain|].
  rewrite (run_checks_loop_eq net checked_at (before ++ url :: after)).
  by rewrite Hmain.
Qed.

Lemma main_loop_provenance net checked_at all rows :
  forall cache results w cache' results' w',
    (forall u, u ∈ rows -> u ∈ all) ->
    (forall tweet_id o,
       cache !! tweet_id = Some o -> classified net all tweet_id o) ->
    main_loop net checked_at rows (cache, results) w =
      (Ok (cache', results'), w') ->
    exists new,
      results' = results ++ new /\
      Forall2 (row_record net checked_at all) rows new.
Proof.
  induction rows as [|url rows IH];
    intros cache results w cache' results' w' Hsub Hinv.
  - intros [= <- <- <-]. exists []. by rewrite app_nil_r.
  - cbn [main_loop].
    destruct (main_row net checked_at url (cache, results) w)
      as [[[cache1 results1]|e] w1] eqn:Hrow; [|done].
    apply (main_row_provenance _ _ all) in Hrow as (Hinv1 & rec & -> & Hrec);
      [|apply Hsub; by apply elem_of_cons; left|done].
    intros Hrun. apply IH in Hrun as (new & -> & Hnew);
      [|intros u Hu; apply Hsub; by apply elem_of_cons; right|done].
    exists (rec :: new). split; [by rewrite <- app_assoc|].
    by apply Forall2_cons.
Qed.

(** X17. Every record of a batch run comes from the classifier: a row
    without identifier has the fixed [invalid_url] record, and a row
    with an identifier has the record of an outcome that the
    classifier returned for that identifier and the URL of a row of the
    batch that carries it. *)
Theorem X17_records_come_from_classifier net checked_at rows w results w' :
  main_results net checked_at rows w = (Ok results, w') ->
  Forall2 (row_record net checked_at rows) rows results.
Proof.
  unfold main_results.
  destruct (main_loop net checked_at rows (∅, []) w)
    as [[[cache results1]|e] w1] eqn:Hloop; [|done].
  intros [= <- <-].
  apply (main_loop_provenance _ _ rows) in Hloop as (new & Hnew & Hall);
    [|done|by intros id o; rewrite lookup_empty].
  cbn [snd]. by rewrite Hnew.
Qed.

(** ** The names of the files in the app *)

Lemma endswith_inv suf : forall s,
  endswith suf s = true -> exists pre, s = pre +:+ suf.
Proof.
  induction s as [|c s IH]; cbn [endswith].
  - rewrite orb_false_r. intros ->%String.eqb_eq. by exists "".
  - intros [->%String.eqb_eq | H]%orb_prop; [by exists ""|].
    destruct (IH H) as [pre ->]. by exists (String c pre).
Qed.

Lemma lower_append_inv a b : forall s,
  lower s = a +:+ b -> exists s1 s2, s = s1 +:+ s2 /\ lower s1 = a /\ lower s2 = b.
Proof.
  induction a as [|x a IH]; intros s; cbn [String.append].
  - intros H. by exists "", s.
  - destruct s as [|c s]; [done|]. cbn [lower]. intros [= Hc H].
    destruct (IH _ H) as (s1 & s2 & -> & <- & <-).
    exists (String c s1), s2. cbn. by rewrite Hc.
Qed.

(** X18. The name of a download is the name of the upload up to its
    last dot, then [_checked] and the new extension; a name without a
    dot is kept whole. A file that is read as CSV, its name ending in
    [.csv] in any letter case, so gets its name without that ending,
    then [_checked] and the extension. *)
Theorem X18_download_name :
  (forall stem ext extension,
     contains "." ext = false ->
     download_name (stem +:+ "." +:+ ext) extension =
       stem +:+ "_checked" +:+ extension) /\
  (forall name extension,
     contains "." name = false ->
     download_name name extension = name +:+ "_checked" +:+ extension) /\
  (forall name extension,
     read_as_csv name = true ->
     exists stem ending,
       name = stem +:+ ending /\ lower ending = ".csv" /\
       download_name name extension = stem +:+ "_checked" +:+ extension).
Proof.
  assert (H1 : forall stem ext extension,
            contains "." ext = false ->
            download_name (stem +:+ "." +:+ ext) extension =
              stem +:+ "_checked" +:+ extension).
  { intros stem ext extension Hext. unfold download_name, rsplit_head.
    change (stem +:+ "." +:+ ext) with (stem +:+ String "." ext).
    by rewrite rpartition_append. }
  split; [exact H1|]. split.
  - intros name extension Hname. unfold download_name, rsplit_head.
    by rewrite rpartition_None.
  - intros name extension Hcsv. unfold read_as_csv in Hcsv.
    apply endswith_inv in Hcsv as [pre Hpre].
    apply lower_append_inv in Hpre as (stem & ending & -> & _ & Hending).
    exists stem, ending. split; [done|]. split; [done|].
    destruct ending as [|c ending]; [done|]. cbn [lower] in Hending.
    injection Hending as Hc Hending.
    assert (c = "."%char) as ->.
    { revert Hc. by destruct c as [[] [] [] [] [] [] [] []]. }
    apply (H1 stem ending extension).
    lower_cases Hending; reflexivity.
Qed.

(** ** The batch loops: pauses and progress reports *)

Lemma printed_app l k : printed (l ++ k) = printed l ++ printed k.
Proof. apply omap_app. Qed.

Lemma status_texts_app l k :
  status_texts (l ++ k) = status_texts l ++ status_texts k.
Proof. apply omap_app. Qed.

Lemma pauses_app l k : pauses (l ++ k) = pauses l + pauses k.
Proof. unfold pauses. by rewrite List.filter_app, length_app. Qed.

(** One turn of the loop of [main]: without the effects it is
    [main_row]; when it returns, it has printed the report of its row
    if one is due and the row has an identifier, and it has paused
    once for each call of the classifier. *)
Lemma main_row_io_spec net pe total index checked_at url st w log r w' log' :
  main_row_io net pe total index checked_at url st w log = (r, w', log') ->
  main_row net checked_at url st w = (r, w') /\
  exists new,
    log' = log ++ new /\ status_texts new = [] /\
    forall st', r = Ok st' ->
      printed new =
        (if progress_due pe index && has_identifier url
         then [progress_message index total] else []) /\
      pauses new + length (calls w) = length (calls w').
Proof.
  destruct st as [cache results]. unfold main_row_io, main_row, has_identifier.
  destruct (extract_tweet_id url) as [tweet_id|] eqn:Hid.
  2: { intros [= <- <- <-]. split; [done|]. exists []. rewrite app_nil_r.
       split; [done|]. split; [done|]. intros st' _.
       rewrite andb_false_r. by cbn. }
  rewrite (extract_tweet_id_truthy _ _ Hid). cbn [negb].
  rewrite andb_true_r. unfold fill_cache.
  destruct (cache !! tweet_id) as [o|] eqn:Hc.
  - rewrite Hc. destruct (progress_due pe index).
    + intros [= <- <- <-]. split; [done|]. eexists. split; [done|].
      split; [done|]. intros st' _. by cbn.
    + intros [= <- <- <-]. split; [done|]. exists []. rewrite app_nil_r.
      split; [done|]. split; [done|]. intros st' _. by cbn.
  - destruct (check_tweet net tweet_id url _) as [[o|e] w1] eqn:Hrun.
    2: { intros [= <- <- <-]. split; [done|]. exists []. rewrite app_nil_r.
         split; [done|]. split; [done|]. by intros st' [=]. }
    apply check_tweet_world in Hrun as [Hcalls _]. cbn [calls] in Hcalls.
    rewrite lookup_insert_eq. destruct (progress_due pe index).
    + intros [= <- <- <-]. split; [done|].
      exists [Slept; Printed (progress_message index total)].
      split; [by rewrite <- app_assoc|]. split; [done|]. intros st' _.
      split; [done|]. rewrite Hcalls, length_app. cbn. lia.
    + intros [= <- <- <-]. split; [done|]. exists [Slept].
      split; [done|]. split; [done|]. intros st' _.
      split; [done|]. rewrite Hcalls, length_app. cbn. lia.
Qed.

Lemma main_loop_io_spec net pe total checked_at rows :
  forall index st w log r w' log',
    main_loop_io net pe total index checked_at rows st w log = (r, w', log') ->
    main_loop net checked_at rows st w = (r, w') /\
    exists new,
      log' = log ++ new /\ status_texts new = [] /\
      forall st', r = Ok st' ->
        printed new =
          reports (fun i url => progress_due pe i && has_identifier url)
            total index rows /\
        pauses new + length (calls w) = length (calls w').
Proof.
  induction rows as [|url rows IH]; intros index st w log r w' log'.
  - intros [= <- <- <-]. split; [done|]. exists []. rewrite app_nil_r.
    split; [done|]. split; [done|]. by intros st' _.
  - cbn [main_loop_io main_loop reports].
    destruct (main_row_io net pe total index checked_at url st w log)
      as [[r1 w1] log1] eqn:Hrow.
    apply main_row_io_spec in Hrow as (Hrow & new1 & -> & Hs1 & H1).
    rewrite Hrow. destruct r1 as [st1|e].
    + intros Hrun. apply IH in Hrun as (Hloop & new2 & -> & Hs2 & H2).
      split; [done|]. exists (new1 ++ new2).
      split; [by rewrite app_assoc|].
      split; [by rewrite status_texts_app, Hs1, Hs2|].
      intros st' Hr. destruct (H1 _ eq_refl) as [Hp1 Hn1].
      destruct (H2 _ Hr) as [Hp2 Hn2].
      rewrite printed_app, pauses_app, Hp1, Hp2. split; [|lia].
      by destruct (progress_due pe index && has_identifier url).
    + intros [= <- <- <-]. split; [done|]. exists new1.
      split; [done|]. split; [done|]. by intros st' [=].
Qed.

(** One turn of the loop of [run_checks]. *)
Lemma run_checks_row_io_spec net sleep pe total index checked_at url st w log
    r w' log' :
  run_checks_row_io net sleep pe total index checked_at url st w log =
    (r, w', log') ->
  main_row net checked_at url st w = (r, w') /\
  exists new,
    log' = log ++ new /\ printed new = [] /\
    forall st', r = Ok st' ->
      status_texts new =
        (if progress_due pe index then [progress_message index total] else []) /\
      pauses new + (if sleep then length (calls w) else length (calls w')) =
        length (calls w').
Proof.
  destruct st as [cache results]. unfold run_checks_row_io, main_row.
  assert (Hend : forall (st1 : gmap string outcome * list result_record) w1 new0,
            printed new0 = [] -> status_texts new0 = [] ->
            pauses new0 + (if sleep then length (calls w) else length (calls w1))
              = length (calls w1) ->
            exists new,
              (if progress_due pe index
               then (log ++ new0) ++ [StatusText (progress_message index total)]
               else log ++ new0) ++ [ProgressBar index total] = log ++ new /\
              printed new = [] /\
              forall st', Ok st1 = Ok st' ->
                status_texts new =
                  (if progress_due pe index
                   then [progress_message index total] else []) /\
                pauses new +
                  (if sleep then length (calls w) else length (calls w1)) =
                  length (calls w1)).
  { intros st1 w1 new0 Hp Hs Hn. destruct (progress_due pe index).
    - exists (new0 ++ [StatusText (progress_message index total);
                       ProgressBar index total]).
      split; [by rewrite <- !app_assoc|].
      split; [by rewrite printed_app, Hp|]. intros st' _.
      rewrite status_texts_app, pauses_app, Hs. cbn. split; [done|]. lia.
    - exists (new0 ++ [ProgressBar index total]).
      split; [by rewrite <- !app_assoc|].
      split; [by rewrite printed_app, Hp|]. intros st' _.
      rewrite status_texts_app, pauses_app, Hs. cbn. split; [done|]. lia. }
  destruct (extract_tweet_id url) as [tweet_id|] eqn:Hid.
  2: { intros [= <- <- <-]. split; [done|].
       destruct (Hend (cache, results ++ [invalid_record checked_at]) w [])
         as (new & Heq & ?); [done|done|by destruct sleep|].
       rewrite app_nil_r in Heq. by exists new. }
  rewrite (extract_tweet_id_truthy _ _ Hid). cbn [negb]. unfold fill_cache.
  destruct (cache !! tweet_id) as [o|] eqn:Hc.
  - rewrite Hc. intros [= <- <- <-]. split; [done|].
    destruct (Hend (cache, results ++
                [mkResult (Some tweet_id) (availability o) (http_status o)
                   (detail o) checked_at (oembed_status o) (checked_url o)])
                w [])
      as (new & Heq & ?); [done|done|by destruct sleep|].
    rewrite app_nil_r in Heq. by exists new.
  - destruct (check_tweet net tweet_id url _) as [[o|e] w1] eqn:Hrun.
    2: { intros [= <- <- <-]. split; [done|]. exists []. rewrite app_nil_r.
         split; [done|]. split; [done|]. by intros st' [=]. }
    apply check_tweet_world in Hrun as [Hcalls _]. cbn [calls] in Hcalls.
    rewrite lookup_insert_eq. intros [= <- <- <-]. split; [done|].
    destruct sleep.
    + destruct (Hend (<[tweet_id:=o]> cache, results ++
                  [mkResult (Some tweet_id) (availability o) (http_status o)
                     (detail o) checked_at (oembed_status o) (checked_url o)])
                  w1 [Slept])
        as (new & Heq & ?); [done|done| |by exists new].
      rewrite Hcalls, length_app. cbn. lia.
    + destruct (Hend (<[tweet_id:=o]> cache, results ++
                  [mkResult (Some tweet_id) (availability o) (http_status o)
                     (detail o) checked_at (oembed_status o) (checked_url o)])
                  w1 [])
        as (new & Heq & ?); [done|done|done|].
      rewrite app_nil_r in Heq. by exists new.
Qed.

Lemma run_checks_loop_io_spec net sleep pe total checked_at rows :
  forall index st w log r w' log',
    run_checks_loop_io net sleep pe total index checked_at rows st w log =
      (r, w', log') ->
    run_checks_loop net checked_at rows st w = (r, w') /\
    exists new,
      log' = log ++ new /\ printed new = [] /\
      forall st', r = Ok st' ->
        status_texts new =
          reports (fun i _ => progress_due pe i) total index rows /\
        pauses new + (if sleep then length (calls w) else length (calls w')) =
          length (calls w').
Proof.
  induction rows as [|url rows IH]; intros index st w log r w' log'.
  - intros [= <- <- <-]. split; [done|]. exists []. rewrite app_nil_r.
    split; [done|]. split; [done|]. intros st' _. by destruct sleep.
  - cbn [run_checks_loop_io run_checks_loop reports].
    destruct (run_checks_row_io net sleep pe total index checked_at url st w log)
      as [[r1 w1] log1] eqn:Hrow.
    apply run_checks_row_io_spec in Hrow as (Hrow & new1 & -> & Hs1 & H1).
    rewrite run_checks_row_eq, Hrow. destruct r1 as [st1|e].
    + intros Hrun. apply IH in Hrun as (Hloop & new2 & -> & Hs2 & H2).
      split; [done|]. exists (new1 ++ new2).
      split; [by rewrite app_assoc|].
      split; [by rewrite printed_app, Hs1, Hs2|].
      intros st' Hr. destruct (H1 _ eq_refl) as [Hp1 Hn1].
      destruct (H2 _ Hr) as [Hp2 Hn2].
      rewrite status_texts_app, pauses_app, Hp1, Hp2.
      split; [by destruct (progress_due pe index)|].
      destruct sleep; lia.
    + intros [= <- <- <-]. split; [done|]. exists new1.
      split; [done|]. split; [done|]. by intros st' [=].
Qed.

(** X19. The progress reports of a batch that is worked off to its
    end. The script prints the message of a row when the row number is
    a multiple of the interval (an interval of 0 switches the reports
    off) and the row has an identifier: a row without identifier
    prints nothing, also when its report is due. The app shows the
    message of every row whose number is a multiple of the interval,
    with or without identifier. *)
Theorem X19_progress_reports net sleep progress_every checked_at rows w :
  (forall st' w' log,
     main_loop_io net progress_every (length rows) 1 checked_at rows (∅, []) w []
       = (Ok st', w', log) ->
     printed log =
       reports (fun i url => progress_due progress_every i && has_identifier url)
         (length rows) 1 rows /\
     status_texts log = []) /\
  (forall st' w' log,
     run_checks_loop_io net sleep progress_every (length rows) 1 checked_at rows
       (∅, []) w [] = (Ok st', w', log) ->
     status_texts log =
       reports (fun i _ => progress_due progress_every i) (length rows) 1 rows /\
     printed log = []).
Proof.
  split; intros st' w' log Hrun.
  - apply main_loop_io_spec in Hrun as (_ & new & -> & Hs & H).
    destruct (H _ eq_refl) as [Hp _]. by rewrite app_nil_l.
  - apply run_checks_loop_io_spec in Hrun as (_ & new & -> & Hp & H).
    destruct (H _ eq_refl) as [Hs _]. by rewrite app_nil_l.
Qed.

(** X20. The pauses of a batch. With the effects left out, the two
    loops are the loops of the batch run. When the run is worked off
    to its end, the script has paused once for each call of the
    classifier, so once for each identifier and not once for each row,
    also with a delay of zero; the app has paused as often when its
    delay counts as true, and not at all when the delay is zero. *)
Theorem X20_pauses_follow_classifications net sleep progress_every total_rows
    index checked_at rows st w :
  (forall r w' log,
     main_loop_io net progress_every total_rows index checked_at rows st w []
       = (r, w', log) ->
     main_loop net checked_at rows st w = (r, w') /\
     (forall st', r = Ok st' ->
        pauses log + length (calls w) = length (calls w'))) /\
  (forall r w' log,
     run_checks_loop_io net sleep progress_every total_rows index checked_at
       rows st w [] = (r, w', log) ->
     run_checks_loop net checked_at rows st w = (r, w') /\
     (forall st', r = Ok st' ->
        pauses log + length (calls w) =
          if sleep then length (calls w') else length (calls w))).
Proof.
  split; intros r w' log Hrun.
  - apply main_loop_io_spec in Hrun as (Hloop & new & -> & _ & H).
    split; [done|]. intros st' Hr. by destruct (H _ Hr) as [_ Hn].
  - apply run_checks_loop_io_spec in Hrun as (Hloop & new & -> & _ & H).
    split; [done|]. intros st' Hr. destruct (H _ Hr) as [_ Hn].
    cbn [app]. destruct sleep; lia.
Qed.
(** ** URLs written with their scheme *)






(** *** URLs written without scheme *)








(** ** Seeds that add no candidate *)




End Program.

(** * Runs

    The statements above at concrete inputs, and the inputs on which the
    program departs from its description. *)

(** A 404 of the embed probe, and a URL that the parser rejects. *)
Lemma C1_phase1_table_witness :
  normalize_input_url no_bracketed_host (PyStr "https://x.com/acct/status/456") =
    Ok (Some "https://x.com/acct/status/456") /\
  (exists o,
     check_tweet no_bracketed_host net_embed_404 "456"
       (PyStr "https://x.com/acct/status/456") world0 =
       (Ok o, mkWorld [OembedGet "https://x.com/acct/status/456"] []) /\
     availability o = not_found /\ checked_url o = None) /\
  normalize_input_url no_bracketed_host (PyStr "https://[x.com/acct/status/1") =
    Raise ValueError /\
  check_tweet no_bracketed_host net_embed_404 "1"
    (PyStr "https://[x.com/acct/status/1") world0 = (Raise ValueError, world0).
Proof.
  split; [reflexivity|]. split.
  - exact (proj2 (proj2 (C1_phase1_table no_bracketed_host net_embed_404 "456"
                           (PyStr "https://x.com/acct/status/456") world0))
             "https://x.com/acct/status/456" eq_refl).
  - split; [reflexivity|].
    exact (proj1 (proj2 (C1_phase1_table no_bracketed_host net_embed_404 "1"
                           (PyStr "https://[x.com/acct/status/1") world0))
             ValueError eq_refl).
Defined.

(** A URL with an unmatched square bracket in its host: the extractor
    finds its identifier, so that the batch loop calls the classifier;
    the normaliser raises, and the classifier raises with it: there is
    no [invalid_url] outcome, and no embed request either. *)
Lemma C1_counterexample :
  extract_tweet_id (PyStr "https://[x.com/acct/status/1") = Some "1" /\
  normalize_input_url no_bracketed_host (PyStr "https://[x.com/acct/status/1") =
    Raise ValueError /\
  check_tweet no_bracketed_host net_public "1"
    (PyStr "https://[x.com/acct/status/1") world0 = (Raise ValueError, world0) /\
  ~ (exists o w',
       check_tweet no_bracketed_host net_public "1"
         (PyStr "https://[x.com/acct/status/1") world0 = (Ok o, w')).
Proof.
  assert (H : check_tweet no_bracketed_host net_public "1"
                (PyStr "https://[x.com/acct/status/1") world0 =
              (Raise ValueError, world0)) by reflexivity.
  split; [reflexivity|]. split; [reflexivity|]. split; [exact H|].
  intros (o & w' & Ho). rewrite H in Ho. discriminate Ho.
Qed.

(** Every fetch is answered 404: the classifier fetches the three
    candidates and answers [not_found] with the last of them. Every
    fetch is answered 200: the classifier stops at the first
    candidate. *)
Lemma C2_phase2_exhausted_witness :
  normalize_input_url no_bracketed_host (PyStr "https://x.com/acct/status/123") =
    Ok (Some "https://x.com/acct/status/123") /\
  build_fetch_urls no_bracketed_host "123" "https://x.com/acct/status/123" PyNone =
    Ok ["https://x.com/acct/status/123"; "https://x.com/i/web/status/123";
        "https://x.com/i/status/123"] /\
  (exists o,
     check_tweet no_bracketed_host net_all_404 "123"
       (PyStr "https://x.com/acct/status/123") world0 =
       (Ok o,
        mkWorld [OembedGet "https://x.com/acct/status/123";
                 BotGet "https://x.com/acct/status/123";
                 BotGet "https://x.com/i/web/status/123";
                 BotGet "https://x.com/i/status/123"] []) /\
     oembed_status o = Some 200%Z /\
     availability o = not_found /\ http_status o = Some 404%Z /\
     checked_url o = Some "https://x.com/i/status/123") /\
  (exists a d,
     spec_decisive 200 = Some a /\
     check_tweet no_bracketed_host net_public "123"
       (PyStr "https://x.com/acct/status/123") world0 =
       (Ok (mkOutcome a (Some 200%Z) d (Some 200%Z)
              (Some "https://x.com/acct/status/123")),
        mkWorld [OembedGet "https://x.com/acct/status/123";
                 BotGet "https://x.com/acct/status/123"] [])).
Proof.
  assert (Hb : build_fetch_urls no_bracketed_host "123"
                 "https://x.com/acct/status/123" PyNone =
               Ok ["https://x.com/acct/status/123";
                   "https://x.com/i/web/status/123";
                   "https://x.com/i/status/123"]) by (vm_compute; reflexivity).
  assert (Hc : build_fetch_urls no_bracketed_host "123"
                 "https://x.com/acct/status/123"
                 (PyStr "https://x.com/acct/status/123") =
               Ok ([] ++ "https://x.com/acct/status/123" ::
                   ["https://x.com/i/web/status/123";
                    "https://x.com/i/status/123"])) by (vm_compute; reflexivity).
  split; [reflexivity|]. split; [exact Hb|]. split.
  - exact (proj2 (proj2
             (C2_phase2_exhausted no_bracketed_host net_all_404 "123"
                (PyStr "https://x.com/acct/status/123") world0
                "https://x.com/acct/status/123" (JsonObject PyNone) public None
                PyNone _ eq_refl eq_refl eq_refl Hb))
             ltac:(repeat constructor)).
  - exact (proj1 (proj2
             (C2_phase2_exhausted no_bracketed_host net_public "123"
                (PyStr "https://x.com/acct/status/123") world0
                "https://x.com/acct/status/123"
                (JsonObject (PyStr "https://x.com/acct/status/123")) public None
                (PyStr "https://x.com/acct/status/123") _ eq_refl eq_refl eq_refl
                Hc))
             [] "https://x.com/acct/status/123"
             ["https://x.com/i/web/status/123"; "https://x.com/i/status/123"]
             200%Z JsonOther eq_refl ltac:(constructor) eq_refl
             ltac:(constructor)).
Defined.




Lemma C5_extractor_shapes_witness :
  is_scheme_prefix "HTTPS://" /\ is_www_prefix "WWW." /\ is_segment "acct" /\
  is_digits "123" /\ ascii_text "?s=20" /\ no_digit_ahead "?s=20" /\
  extract_tweet_id (PyStr "HTTPS://WWW.x.com/acct/statuses/123?s=20") = Some "123" /\
  exists pre dom u es rest,
    (dom = "twitter" \/ dom = "x") /\ (es = "es" \/ es = "") /\ u <> "" /\
    "HTTPS://WWW.x.com/acct/statuses/123?s=20" =
      pre +:+ dom +:+ ".com/" +:+ u +:+ "/status" +:+ es +:+ "/" +:+ "123"
      +:+ rest.
Proof.
  assert (H1 : is_scheme_prefix "HTTPS://") by (right; right; reflexivity).
  assert (Hw : is_www_prefix "WWW.") by (right; reflexivity).
  assert (H2 : is_segment "acct") by (split; [discriminate | reflexivity]).
  assert (H3 : is_digits "123") by (split; [discriminate | reflexivity]).
  assert (H4 : no_digit_ahead "?s=20") by reflexivity.
  assert (Ha : ascii_text "?s=20") by reflexivity.
  repeat (split; [assumption|]).
  assert (H5 : extract_tweet_id
                 (PyStr "HTTPS://WWW.x.com/acct/statuses/123?s=20") = Some "123").
  { exact (proj1 C5_extractor_shapes "HTTPS://" "WWW." "x" "acct" "es" "123"
             "?s=20" H1 Hw (or_intror eq_refl) H2 (or_introl eq_refl) H3
             eq_refl H4). }
  split; [exact H5|].
  exact (proj1 (proj2 C5_extractor_shapes)
           "HTTPS://WWW.x.com/acct/statuses/123?s=20" "123" H5).
Defined.

(** A domain name with an upper-case letter is not matched. *)
Lemma C5_counterexample :
  extract_tweet_id (PyStr "https://Twitter.com/acct/status/123") = None /\
  extract_tweet_id (PyStr "https://twitter.com/acct/status/123") = Some "123".
Proof. split; reflexivity. Qed.

Lemma C6_parse_failure_dropped_witness :
  normalize_input_url no_bracketed_host (PyStr "https://twitter.com/acct/status/123") =
    Ok (Some "https://twitter.com/acct/status/123") /\
  net_bad_json (requests world0) (OembedGet "https://twitter.com/acct/status/123") =
    Response 200 (JsonValueError "Expecting value: line 1 column 1 (char 0)") /\
  forall o w',
    check_tweet no_bracketed_host net_bad_json "123"
      (PyStr "https://twitter.com/acct/status/123") world0 = (Ok o, w') ->
    detail o <>
      Some ("Failed to parse oEmbed payload: " +:+
            "Expecting value: line 1 column 1 (char 0)").
Proof.
  split; [reflexivity|]. split; [reflexivity|].
  exact (proj2 (C6_parse_failure_dropped no_bracketed_host net_bad_json "123"
                  (PyStr "https://twitter.com/acct/status/123") world0
                  "https://twitter.com/acct/status/123"
                  "Expecting value: line 1 column 1 (char 0)" eq_refl eq_refl)).
Defined.

(** The run behind C6: the outcome is [public] and has no detail. *)
Lemma check_tweet_bad_json_run :
  check_tweet no_bracketed_host net_bad_json "123"
    (PyStr "https://twitter.com/acct/status/123") world0 =
    (Ok (mkOutcome public (Some 200%Z) None (Some 200%Z)
           (Some "https://x.com/acct/status/123")),
     mkWorld [OembedGet "https://twitter.com/acct/status/123";
              BotGet "https://x.com/acct/status/123"] []).
Proof. vm_compute. reflexivity. Qed.





Lemma C9_public_outcome_witness :
  check_tweet no_bracketed_host net_public "123"
    (PyStr "https://twitter.com/acct/status/123") world0 =
    (Ok (mkOutcome public (Some 200%Z) None (Some 200%Z)
           (Some "https://x.com/acct/status/123")),
     mkWorld [OembedGet "https://twitter.com/acct/status/123";
              BotGet "https://x.com/acct/status/123"] []) /\
  exists n json a0 d0 canonical_url fetch_urls pre c rest j,
    normalize_input_url no_bracketed_host
      (PyStr "https://twitter.com/acct/status/123") = Ok (Some n) /\
    net_public (requests world0) (OembedGet n) = Response 200 json /\
    oembed_200 json = Ok (a0, d0, canonical_url) /\
    build_fetch_urls no_bracketed_host "123" n canonical_url = Ok fetch_urls /\
    fetch_urls = pre ++ c :: rest /\
    Some "https://x.com/acct/status/123" = Some c /\
    Forall indecisive (attempts net_public (requests world0 ++ [OembedGet n]) pre) /\
    net_public (requests world0 ++ OembedGet n :: map BotGet pre) (BotGet c) =
      Response 200 j /\
    [OembedGet "https://twitter.com/acct/status/123";
     BotGet "https://x.com/acct/status/123"] =
      requests world0 ++ OembedGet n :: map BotGet (pre ++ [c]).
Proof.
  assert (H : check_tweet no_bracketed_host net_public "123"
                (PyStr "https://twitter.com/acct/status/123") world0 =
              (Ok (mkOutcome public (Some 200%Z) None (Some 200%Z)
                     (Some "https://x.com/acct/status/123")),
               mkWorld [OembedGet "https://twitter.com/acct/status/123";
                        BotGet "https://x.com/acct/status/123"] []))
    by (vm_compute; reflexivity).
  split; [exact H|].
  exact (proj2 (C9_public_outcome no_bracketed_host net_public "123"
                  (PyStr "https://twitter.com/acct/status/123") world0 _ _ H
                  eq_refl)).
Defined.

Lemma C10_unanchored_search_witness :
  match_at TWEET_URL_RE "x.com/acct/status/5" = Some (Some "5") /\
  exists pre1 t1 d,
    "see " +:+ "x.com/acct/status/5" = pre1 +:+ t1 /\
    String.length pre1 <= String.length "see " /\
    match_at TWEET_URL_RE t1 = Some (Some d) /\ is_digits d /\
    extract_tweet_id (PyStr ("see " +:+ "x.com/acct/status/5")) = Some d.
Proof.
  split; [reflexivity|].
  exact (proj1 (C10_unanchored_search no_bracketed_host) "see "
           "x.com/acct/status/5" (Some "5") eq_refl).
Defined.

(** ** Runs of the further properties *)

Lemma X1_identifier_is_whole_digit_run_witness :
  ascii_input (PyStr "see x.com/acct/status/123abc") /\
  extract_tweet_id (PyStr "see x.com/acct/status/123abc") = Some "123" /\
  exists pre sch www dom u es rest,
    PyStr "see x.com/acct/status/123abc" =
      PyStr (pre +:+ sch +:+ www +:+ dom +:+ ".com/" +:+ u +:+ "/status"
             +:+ es +:+ "/" +:+ "123" +:+ rest) /\
    (sch = "http://" \/ sch = "https://" \/ sch = "") /\
    (www = "www." \/ www = "") /\ (dom = "twitter" \/ dom = "x") /\
    (es = "es" \/ es = "") /\
    u <> "" /\ all_chars (atom_matches Dot) u = true /\
    is_digits "123" /\ no_digit_ahead rest.
Proof.
  assert (Ha : ascii_input (PyStr "see x.com/acct/status/123abc"))
    by reflexivity.
  split; [exact Ha|]. split; [reflexivity|].
  exact (X1_identifier_is_whole_digit_run
           (PyStr "see x.com/acct/status/123abc") "123" Ha eq_refl).
Defined.

Lemma X2_fallback_urls_give_identifier_witness :
  is_digits "1234567890" /\
  Forall (fun u => extract_tweet_id (PyStr u) = Some "1234567890")
    (template_seeds "1234567890").
Proof.
  assert (H : is_digits "1234567890") by (split; [discriminate | reflexivity]).
  split; [exact H|]. exact (X2_fallback_urls_give_identifier "1234567890" H).
Defined.

Lemma X3_blank_input_is_invalid_witness :
  blank (PyStr "   ") /\
  normalize_input_url no_bracketed_host (PyStr "   ") = Ok None /\
  check_tweet no_bracketed_host net_public "123" (PyStr "   ") world0 =
    (Ok (mkOutcome invalid_url None (Some "URL could not be normalized")
           None None), world0).
Proof.
  assert (H : blank (PyStr "   ")) by reflexivity.
  split; [exact H|].
  exact (X3_blank_input_is_invalid no_bracketed_host (PyStr "   ") net_public
           "123" world0 H).
Defined.

Lemma X4_normalized_url_shape_witness :
  normalize_input_url no_bracketed_host
    (PyStr "WWW.Twitter.com/acct/status/123?s=20#top") =
    Ok (Some "https://twitter.com/acct/status/123") /\
  exists host p,
    "https://twitter.com/acct/status/123" = "https://" +:+ host +:+ p /\
    host ∈ allowed_hosts /\ head_is is_slash p = true /\
    contains "?" "https://twitter.com/acct/status/123" = false /\
    contains "#" "https://twitter.com/acct/status/123" = false.
Proof.
  split; [reflexivity|].
  exact (X4_normalized_url_shape no_bracketed_host
           (PyStr "WWW.Twitter.com/acct/status/123?s=20#top")
           "https://twitter.com/acct/status/123" eq_refl).
Defined.

Lemma X5_normalizer_normal_form_witness :
  is_http_prefix "HTTP://" /\ "mobile.twitter.com" ∈ allowed_hosts /\
  is_path "/acct/status/123" /\
  normalize_input_url no_bracketed_host
    (PyStr ("HTTP://" +:+ "WWW.Mobile.Twitter.COM" +:+ "/acct/status/123"
            +:+ "?s=20#top")) =
    Ok (Some ("https://" +:+ "mobile.twitter.com" +:+ "/acct/status/123")).
Proof.
  assert (H1 : is_http_prefix "HTTP://") by (right; right; left; reflexivity).
  assert (H2 : "mobile.twitter.com" ∈ allowed_hosts)
    by (unfold allowed_hosts; repeat constructor).
  assert (H3 : is_path "/acct/status/123") by (repeat split).
  split; [exact H1|]. split; [exact H2|]. split; [exact H3|].
  exact (proj2 (X5_normalizer_normal_form no_bracketed_host) "HTTP://"
           "WWW.Mobile.Twitter.COM" "mobile.twitter.com" "/acct/status/123"
           "?s=20#top" H1 H2 (or_intror eq_refl) H3 eq_refl eq_refl).
Defined.

(** A row that has an identifier and makes the classifier raise. *)
Lemma X6_unmatched_bracket_raises_witness :
  extract_tweet_id (PyStr ("https://" +:+ "[x.com" +:+ "/acct/status/1")) =
    Some "1" /\
  all_chars netloc_char "[x.com" = true /\ unmatched_bracket "[x.com" /\
  normalize_input_url no_bracketed_host
    (PyStr ("https://" +:+ "[x.com" +:+ "/acct/status/1")) = Raise ValueError /\
  check_tweet no_bracketed_host net_public "1"
    (PyStr ("https://" +:+ "[x.com" +:+ "/acct/status/1")) world0 =
    (Raise ValueError, world0).
Proof.
  assert (H : unmatched_bracket "[x.com") by (intros H; discriminate H).
  split; [reflexivity|]. split; [reflexivity|]. split; [exact H|].
  exact (X6_unmatched_bracket_raises no_bracketed_host "https://" "[x.com"
           "/acct/status/1" net_public "1" world0 (or_intror eq_refl) eq_refl H
           eq_refl).
Defined.


Lemma X8_host_rewrite_idempotent_witness :
  has_http_scheme "http://example.org/a;b?c=d#e" = true /\
  convert_to_x_domain no_bracketed_host "http://example.org/a;b?c=d#e" true =
    Ok "https://x.com/a?c=d" /\
  convert_to_x_domain no_bracketed_host "https://x.com/a?c=d" true =
    Ok "https://x.com/a?c=d".
Proof.
  split; [reflexivity|]. split; [reflexivity|].
  exact (X8_host_rewrite_idempotent no_bracketed_host
           "http://example.org/a;b?c=d#e" true "https://x.com/a?c=d" eq_refl
           eq_refl).
Defined.

(** The input URL is one of the fallback URLs: two candidates. *)
Lemma X9_candidates_without_canonical_url_witness :
  normalize_input_url no_bracketed_host (PyStr "twitter.com/i/web/status/123") =
    Ok (Some "https://twitter.com/i/web/status/123") /\
  is_digits "123" /\
  build_fetch_urls no_bracketed_host "123" "https://twitter.com/i/web/status/123"
    PyNone =
    Ok ["https://x.com/i/web/status/123"; "https://x.com/i/status/123"] /\
  exists host p,
    "https://twitter.com/i/web/status/123" = "https://" +:+ host +:+ p /\
    host ∈ allowed_hosts /\ head_is is_slash p = true /\
    let first := "https://x.com" +:+ rstrip_with isspace p in
    build_fetch_urls no_bracketed_host "123"
      "https://twitter.com/i/web/status/123" PyNone =
      Ok (first ::
          filter (fun c => c <> first)
            ["https://x.com/i/web/status/" +:+ "123";
             "https://x.com/i/status/" +:+ "123"]).
Proof.
  assert (H : is_digits "123") by (split; [discriminate | reflexivity]).
  split; [reflexivity|]. split; [exact H|].
  split; [vm_compute; reflexivity|].
  exact (X9_candidates_without_canonical_url no_bracketed_host
           (PyStr "twitter.com/i/web/status/123")
           "https://twitter.com/i/web/status/123" "123" PyNone eq_refl H eq_refl).
Defined.

Lemma X10_candidates_of_a_seed_with_query_witness :
  is_digits "123" /\ "twitter.com" ∈ allowed_hosts /\ is_path "/acct/status/123" /\
  build_fetch_urls no_bracketed_host "123" ""
    (PyStr ("https://" +:+ "twitter.com" +:+ "/acct/status/123" +:+ "?" +:+ "s=20")) =
    Ok (("https://x.com" +:+ rstrip_with isspace "/acct/status/123") ::
        ("https://x.com" +:+ "/acct/status/123" +:+ "?" +:+ "s=20") ::
        filter (fun c => c <> "https://x.com" +:+ rstrip_with isspace "/acct/status/123")
          ["https://x.com/i/web/status/" +:+ "123";
           "https://x.com/i/status/" +:+ "123"]).
Proof.
  assert (H1 : is_digits "123") by (split; [discriminate | reflexivity]).
  assert (H2 : "twitter.com" ∈ allowed_hosts)
    by (unfold allowed_hosts; repeat constructor).
  assert (H3 : is_path "/acct/status/123") by (repeat split).
  split; [exact H1|]. split; [exact H2|]. split; [exact H3|].
  exact (X10_candidates_of_a_seed_with_query no_bracketed_host "123"
           "twitter.com" "/acct/status/123" "s=20" H1 H2 H3
           ltac:(discriminate) eq_refl).
Defined.

Lemma X11_malformed_embed_body_raises_witness :
  normalize_input_url no_bracketed_host
    (PyStr "https://twitter.com/acct/status/123") =
    Ok (Some "https://twitter.com/acct/status/123") /\
  check_tweet no_bracketed_host net_embed_number "123"
    (PyStr "https://twitter.com/acct/status/123") world0 =
    (Raise AttributeError,
     mkWorld (requests world0 ++ [OembedGet "https://twitter.com/acct/status/123"])
       (calls world0)).
Proof.
  split; [reflexivity|].
  exact (X11_malformed_embed_body_raises no_bracketed_host net_embed_number "123"
           (PyStr "https://twitter.com/acct/status/123") world0
           "https://twitter.com/acct/status/123" (JsonObject (PyOther true))
           eq_refl eq_refl (or_intror eq_refl)).
Defined.

(** A run in which the first fetch fails and the later ones answer 404
    and 503. *)
Lemma check_tweet_flaky_run :
  check_tweet no_bracketed_host net_flaky "123"
    (PyStr "https://twitter.com/acct/status/123") world0 =
    (Ok (mkOutcome unknown (Some 503%Z)
           (Some "Unexpected 503 response while fetching tweet") (Some 200%Z)
           (Some "https://x.com/i/status/123")),
     mkWorld [OembedGet "https://twitter.com/acct/status/123";
              BotGet "https://x.com/acct/status/123";
              BotGet "https://x.com/i/web/status/123";
              BotGet "https://x.com/i/status/123"] []).
Proof. vm_compute. reflexivity. Qed.

Lemma X12_outcome_fields_agree_witness :
  let o := mkOutcome unknown (Some 503%Z)
             (Some "Unexpected 503 response while fetching tweet") (Some 200%Z)
             (Some "https://x.com/i/status/123") in
  (http_status o = None <->
   availability o = invalid_url \/ availability o = error) /\
  (detail o = None <-> availability o = public) /\
  (is_Some (checked_url o) ->
   oembed_status o = Some 200%Z /\ is_Some (http_status o)) /\
  (availability o = public \/ availability o = gone \/
   availability o = unavailable_legal -> is_Some (checked_url o)) /\
  (oembed_status o = None -> http_status o = None /\ checked_url o = None).
Proof.
  exact (X12_outcome_fields_agree no_bracketed_host net_flaky "123"
           (PyStr "https://twitter.com/acct/status/123") world0 _ _
           check_tweet_flaky_run).
Defined.

Lemma X13_requests_of_a_classification_witness :
  exists new,
    [OembedGet "https://twitter.com/acct/status/123";
     BotGet "https://x.com/acct/status/123";
     BotGet "https://x.com/i/web/status/123";
     BotGet "https://x.com/i/status/123"] = requests world0 ++ new /\
    NoDup new /\
    classification_requests no_bracketed_host net_flaky (requests world0) "123"
      (PyStr "https://twitter.com/acct/status/123") new.
Proof.
  exact (proj2 (X13_requests_of_a_classification no_bracketed_host net_flaky
                  "123" (PyStr "https://twitter.com/acct/status/123") world0 _ _
                  check_tweet_flaky_run)).
Defined.

Lemma X14_checked_url_verdict_witness :
  exists n json a0 d0 canonical_url fetch_urls pre s,
    normalize_input_url no_bracketed_host
      (PyStr "https://twitter.com/acct/status/123") = Ok (Some n) /\
    net_flaky (requests world0) (OembedGet n) = Response 200 json /\
    oembed_200 json = Ok (a0, d0, canonical_url) /\
    build_fetch_urls no_bracketed_host "123" n canonical_url = Ok fetch_urls /\
    fetch_reached net_flaky (requests world0 ++ [OembedGet n]) fetch_urls pre
      "https://x.com/i/status/123" s /\
    on_x_domain "https://x.com/i/status/123" /\
    Some 503%Z = Some s /\ Some 200%Z = Some 200%Z /\
    unknown = (fetch_verdict s).1 /\
    Some "Unexpected 503 response while fetching tweet" = (fetch_verdict s).2.
Proof.
  exact (proj1 (X14_checked_url_verdict no_bracketed_host net_flaky "123"
                  (PyStr "https://twitter.com/acct/status/123") world0 _ _
                  check_tweet_flaky_run)
           "https://x.com/i/status/123" eq_refl).
Defined.


Lemma X16_raise_ends_batch_witness :
  main_results no_bracketed_host net_public "2024-01-01T00:00:00"
    ([PyNone] ++ PyStr "https://[x.com/acct/status/1" ::
     [PyStr "https://x.com/acct/status/2"]) world0 =
    (Raise ValueError, mkWorld [] ["1"]).
Proof.
  exact (proj1 (X16_raise_ends_batch no_bracketed_host net_public
                  "2024-01-01T00:00:00" [PyNone]
                  (PyStr "https://[x.com/acct/status/1")
                  [PyStr "https://x.com/acct/status/2"] world0 ∅
                  [invalid_record "2024-01-01T00:00:00"] world0 "1" ValueError
                  (mkWorld [] ["1"]) eq_refl eq_refl eq_refl eq_refl)).
Defined.

Lemma X17_records_come_from_classifier_witness :
  let rows := [PyStr "https://twitter.com/acct/status/123"; PyNone] in
  Forall2 (row_record no_bracketed_host net_public "2024-01-01T00:00:00" rows)
    rows
    [record_of "2024-01-01T00:00:00" "123"
       (mkOutcome public (Some 200%Z) None (Some 200%Z)
          (Some "https://x.com/acct/status/123"));
     invalid_record "2024-01-01T00:00:00"].
Proof.
  exact (X17_records_come_from_classifier no_bracketed_host net_public
           "2024-01-01T00:00:00"
           [PyStr "https://twitter.com/acct/status/123"; PyNone] world0 _
           (mkWorld [OembedGet "https://twitter.com/acct/status/123";
                     BotGet "https://x.com/acct/status/123"] ["123"])
           ltac:(vm_compute; reflexivity)).
Defined.

Lemma X18_download_name_witness :
  read_as_csv "tweets.2024.CSV" = true /\
  exists stem ending,
    "tweets.2024.CSV" = stem +:+ ending /\ lower ending = ".csv" /\
    download_name "tweets.2024.CSV" ".xlsx" = stem +:+ "_checked" +:+ ".xlsx".
Proof.
  split; [reflexivity|].
  exact (proj2 (proj2 X18_download_name) "tweets.2024.CSV" ".xlsx" eq_refl).
Defined.

(** Two rows, the first without identifier, and a report due at every
    row: the script reports the second row only, the app both. *)
Lemma X19_progress_reports_witness :
  let rows := [PyNone; PyStr "https://x.com/acct/status/123"] in
  reports (fun i url => progress_due 1 i && has_identifier url) 2 1 rows =
    ["Checked 2/2 rows..."] /\
  reports (fun i _ => progress_due 1 i) 2 1 rows =
    ["Checked 1/2 rows..."; "Checked 2/2 rows..."] /\
  exists st' w' log,
    main_loop_io no_bracketed_host net_public 1 (length rows) 1
      "2024-01-01T00:00:00" rows (∅, []) world0 [] = (Ok st', w', log) /\
    printed log =
      reports (fun i url => progress_due 1 i && has_identifier url)
        (length rows) 1 rows /\
    status_texts log = [].
Proof.
  split; [reflexivity|]. split; [reflexivity|].
  assert (H : exists st' w' log,
            main_loop_io no_bracketed_host net_public 1 2 1
              "2024-01-01T00:00:00"
              [PyNone; PyStr "https://x.com/acct/status/123"] (∅, []) world0 []
            = (Ok st', w', log))
    by (eexists _, _, _; vm_compute; reflexivity).
  destruct H as (st' & w' & log & H). exists st', w', log.
  split; [exact H|].
  exact (proj1 (X19_progress_reports no_bracketed_host net_public false 1
                  "2024-01-01T00:00:00"
                  [PyNone; PyStr "https://x.com/acct/status/123"] world0)
           st' w' log H).
Defined.

(** Three rows with one identifier: one pause. *)
Lemma X20_pauses_follow_classifications_witness :
  let rows := [PyStr "https://x.com/acct/status/123";
               PyStr "https://twitter.com/acct/status/123";
               PyStr "x.com/acct/status/123?s=20"] in
  exists r w' log,
    main_loop_io no_bracketed_host net_public 25 3 1 "2024-01-01T00:00:00"
      rows (∅, []) world0 [] = (r, w', log) /\
    main_loop no_bracketed_host net_public "2024-01-01T00:00:00" rows (∅, [])
      world0 = (r, w') /\
    calls w' = ["123"] /\
    forall st', r = Ok st' -> pauses log + length (calls world0) = length (calls w').
Proof.
  assert (H : exists r w' log,
            main_loop_io no_bracketed_host net_public 25 3 1
              "2024-01-01T00:00:00"
              [PyStr "https://x.com/acct/status/123";
               PyStr "https://twitter.com/acct/status/123";
               PyStr "x.com/acct/status/123?s=20"] (∅, []) world0 []
            = (r, w', log) /\ calls w' = ["123"])
    by (eexists _, _, _; split; vm_compute; reflexivity).
  destruct H as (r & w' & log & H & Hc). exists r, w', log.
  split; [exact H|].
  destruct (proj1 (X20_pauses_follow_classifications no_bracketed_host
                     net_public false 25 3 1 "2024-01-01T00:00:00"
                     [PyStr "https://x.com/acct/status/123";
                      PyStr "https://twitter.com/acct/status/123";
                      PyStr "x.com/acct/status/123?s=20"] (∅, []) world0)
              r w' log H) as [Hloop Hp].
  split; [exact Hloop|]. split; [exact Hc | exact Hp].
Defined.
